(** * Streaming response normalisation in [src/providers]: a shallow embedding

    The two providers ([openai.ts], [anthropic.ts]) read a chunked HTTP body,
    split every chunk into Server-Sent-Event frames, parse each frame's JSON
    payload with [JSON.parse] and fold the frames into a handful of mutable
    variables that the returned accessors read.  The development below
    transcribes that code function by function.

    Conventions of the embedding.
    - The wire data is untyped ([any] in the source), so payloads are JS
      values ([JS.value]) and every property read, truthiness test and [+]
      follows the JS rules for the value at hand.
    - Numbers are integers ([Z]) together with [NaN]: token counts and
      tool-call indices are integers, fractions and exponents are outside the
      embedding.
    - A chunk is the text [TextDecoder.decode] returns for it; strings are
      byte strings, so the text is taken to be ASCII.
    - The caller's hooks ([onMessage], [onError], [onFinish]) are recorded in
      a trace with their arguments (the [timestamp] field is dropped).  In
      the read loops and in [request_not_ok] a hook is assumed to return
      normally; around [request] and [generate] (module [Calls]) what each
      call of a hook does, return, throw or reject, is a parameter of the
      call. *)

From Stdlib Require Import String Ascii List ZArith Bool Lia Arith.
From Stdlib Require Import Numbers.DecimalString Numbers.DecimalZ Numbers.DecimalPos.
Import ListNotations.

Open Scope list_scope.
Open Scope string_scope.
Set Warnings "-register-all".

(** ** JS values and the primitive operations the providers use *)

Module JS.

Inductive value : Type :=
| Undefined
| Null
| Bool (b : bool)
| Num (n : Z)
| NaN
| Str (s : string)
| Arr (elems : list value)
| Obj (members : list (string * value)).

Inductive js_error : Type :=
| SyntaxError (text : string)
| TypeError
| ReferenceError (name : string)
| ApiError (message : string)
| ReadError (reason : string).

(** Result of evaluating an expression that may throw. *)
Inductive res (A : Type) : Type :=
| Ok (a : A)
| Throw (e : js_error).
Arguments Ok {A} a.
Arguments Throw {A} e.

(** *** Strings *)

Definition nl : string := String (ascii_of_nat 10) EmptyString.
Definition dquote : ascii := ascii_of_nat 34.
Definition backslash : ascii := ascii_of_nat 92.

(** [q s] is [s] between double quotes, for writing JSON text. *)
Definition q (s : string) : string :=
  String dquote (s ++ String dquote EmptyString).

(** White space removed by [String.prototype.trim] (one-byte code points). *)
Definition is_ws (c : ascii) : bool :=
  let n := nat_of_ascii c in
  (Nat.eqb n 9 || Nat.eqb n 10 || Nat.eqb n 11 || Nat.eqb n 12
   || Nat.eqb n 13 || Nat.eqb n 32)%bool.

Fixpoint trim_start (s : string) : string :=
  match s with
  | EmptyString => EmptyString
  | String c s' => if is_ws c then trim_start s' else s
  end.

Fixpoint trim_end (s : string) : string :=
  match s with
  | EmptyString => EmptyString
  | String c s' =>
      match trim_end s' with
      | EmptyString => if is_ws c then EmptyString else String c EmptyString
      | r => String c r
      end
  end.

Definition trim (s : string) : string := trim_end (trim_start s).

Definition is_empty (s : string) : bool :=
  match s with EmptyString => true | _ => false end.

Definition startsWith (s p : string) : bool := String.prefix p s.

(** [s.substring(n)] *)
Fixpoint substring_from (n : nat) (s : string) : string :=
  match n, s with
  | O, _ => s
  | S n', String _ s' => substring_from n' s'
  | S _, EmptyString => EmptyString
  end.

(** [s.split(sep)] for a non-empty separator: leftmost, non-overlapping
    occurrences; [skip] counts the separator characters still to drop and
    [cur] is the piece being read. *)
Fixpoint split_go (sep : string) (skip : nat) (cur : string) (s : string)
  : list string :=
  match s with
  | EmptyString => [cur]
  | String c s' =>
      match skip with
      | S k => split_go sep k cur s'
      | O =>
          if String.prefix sep s
          then cur :: split_go sep (String.length sep - 1) EmptyString s'
          else split_go sep 0 (cur ++ String c EmptyString) s'
      end
  end.

Definition split (sep s : string) : list string :=
  split_go sep 0 EmptyString s.

(** *** Truthiness, property reads, conversions *)

Definition truthy (v : value) : bool :=
  match v with
  | Undefined | Null | NaN => false
  | Bool b => b
  | Num n => negb (Z.eqb n 0)
  | Str s => negb (is_empty s)
  | Arr _ | Obj _ => true
  end.

Definition nullish (v : value) : bool :=
  match v with Undefined | Null => true | _ => false end.

(** [a || b] *)
Definition or_else (a b : value) : value := if truthy a then a else b.

(** Members are kept in source order; a later duplicate key shadows an
    earlier one, as [JSON.parse] has it. *)
Fixpoint lookup (k : string) (m : list (string * value)) : option value :=
  match m with
  | [] => None
  | (k', v) :: m' =>
      match lookup k m' with
      | Some w => Some w
      | None => if String.eqb k k' then Some v else None
      end
  end.

(** [v.k] for a [v] that is neither [null] nor [undefined], [k] being one
    of the field names of the wire formats (none of them is a property of
    a string, number, boolean or array). *)
Definition field (v : value) (k : string) : value :=
  match v with
  | Obj m => match lookup k m with Some w => w | None => Undefined end
  | _ => Undefined
  end.

(** [v.k]: a [TypeError] when [v] is [null] or [undefined]. *)
Definition get (v : value) (k : string) : res value :=
  if nullish v then Throw TypeError else Ok (field v k).

(** [v?.k] *)
Definition oget (v : value) (k : string) : value :=
  if nullish v then Undefined else field v k.

(** [v?.[0]] *)
Definition oindex0 (v : value) : value :=
  match v with
  | Arr (x :: _) => x
  | Str (String c _) => Str (String c EmptyString)
  | Obj m => match lookup "0" m with Some w => w | None => Undefined end
  | _ => Undefined
  end.

Definition string_of_Z (n : Z) : string :=
  NilZero.string_of_int (Z.to_int n).

Definition join (sep : string) (l : list string) : string :=
  match l with
  | [] => EmptyString
  | x :: r => fold_left (fun acc y => acc ++ sep ++ y) r x
  end.

(** [String(v)], as string concatenation and template literals apply it. *)
Fixpoint to_string (v : value) : string :=
  match v with
  | Undefined => "undefined"
  | Null => "null"
  | Bool true => "true"
  | Bool false => "false"
  | Num n => string_of_Z n
  | NaN => "NaN"
  | Str s => s
  | Arr l =>
      join ","
        (map (fun x => if nullish x then EmptyString else to_string x) l)
  | Obj _ => "[object Object]"
  end.

Definition is_digit (c : ascii) : bool :=
  let n := nat_of_ascii c in (Nat.leb 48 n && Nat.leb n 57)%bool.

Fixpoint digits_value (acc : Z) (s : string) : option Z :=
  match s with
  | EmptyString => Some acc
  | String c s' =>
      if is_digit c
      then digits_value (10 * acc + Z.of_nat (nat_of_ascii c - 48)) s'
      else None
  end.

(** [Number(s)] on the integer literals; any other text is [NaN] here. *)
Definition string_to_number (s : string) : option Z :=
  match trim s with
  | EmptyString => Some 0%Z
  | String c r =>
      if Ascii.eqb c "-" then
        if is_empty r then None else option_map Z.opp (digits_value 0 r)
      else if Ascii.eqb c "+" then
        if is_empty r then None else digits_value 0 r
      else digits_value 0 (String c r)
  end.

(** [Number(v)]; [None] stands for [NaN]. *)
Definition to_number (v : value) : option Z :=
  match v with
  | Undefined | NaN | Obj _ => None
  | Null => Some 0%Z
  | Bool b => Some (if b then 1 else 0)%Z
  | Num n => Some n
  | Str s => string_to_number s
  | Arr _ => string_to_number (to_string v)
  end.

Definition is_stringy (v : value) : bool :=
  match v with Str _ | Arr _ | Obj _ => true | _ => false end.

(** [a + b] *)
Definition add (a b : value) : value :=
  if (is_stringy a || is_stringy b)%bool
  then Str (to_string a ++ to_string b)
  else match to_number a, to_number b with
       | Some x, Some y => Num (x + y)
       | _, _ => NaN
       end.

(** [v >= n] for an array length [n] *)
Definition ge_length (v : value) (n : nat) : bool :=
  match to_number v with
  | Some x => Z.leb (Z.of_nat n) x
  | None => false
  end.

(** [arr[v]]: the element whose index, printed in decimal, is the property
    key [String(v)]. *)
Fixpoint find_index (key : string) (i len : nat) : option nat :=
  match len with
  | O => None
  | S len' =>
      if String.eqb (string_of_Z (Z.of_nat i)) key then Some i
      else find_index key (S i) len'
  end.

Definition element_index {A : Type} (arr : list A) (v : value) : option nat :=
  find_index (to_string v) 0 (List.length arr).


(** *** [JSON.parse]

    A recursive-descent reader for JSON text over the values above.  Number
    literals with a fraction or an exponent and [\u] escapes beyond one byte
    are rejected (they have no counterpart among the values); on all other
    text it accepts exactly the JSON grammar. *)

Definition is_json_ws (c : ascii) : bool :=
  let n := nat_of_ascii c in
  (Nat.eqb n 32 || Nat.eqb n 9 || Nat.eqb n 10 || Nat.eqb n 13)%bool.

Fixpoint skip_ws (s : string) : string :=
  match s with
  | String c s' => if is_json_ws c then skip_ws s' else s
  | EmptyString => EmptyString
  end.

Definition expect (lit : string) (v : value) (s : string)
  : option (value * string) :=
  if String.prefix lit s
  then Some (v, substring_from (String.length lit) s)
  else None.

Definition hex_digit (c : ascii) : option nat :=
  let n := nat_of_ascii c in
  if (Nat.leb 48 n && Nat.leb n 57)%bool then Some (n - 48)
  else if (Nat.leb 97 n && Nat.leb n 102)%bool then Some (n - 87)
  else if (Nat.leb 65 n && Nat.leb n 70)%bool then Some (n - 55)
  else None.

Definition simple_escape (c : ascii) : option ascii :=
  if Ascii.eqb c dquote then Some dquote
  else if Ascii.eqb c backslash then Some backslash
  else if Ascii.eqb c "/" then Some "/"%char
  else if Ascii.eqb c "b" then Some (ascii_of_nat 8)
  else if Ascii.eqb c "f" then Some (ascii_of_nat 12)
  else if Ascii.eqb c "n" then Some (ascii_of_nat 10)
  else if Ascii.eqb c "r" then Some (ascii_of_nat 13)
  else if Ascii.eqb c "t" then Some (ascii_of_nat 9)
  else None.

Definition unicode_escape (h1 h2 h3 h4 : ascii) : option ascii :=
  match hex_digit h1, hex_digit h2, hex_digit h3, hex_digit h4 with
  | Some a, Some b, Some c, Some d =>
      let n := ((a * 16 + b) * 16 + c) * 16 + d in
      if Nat.ltb n 128 then Some (ascii_of_nat n) else None
  | _, _, _, _ => None
  end.

(** The characters of a string literal after its opening quote. *)
Fixpoint parse_chars (acc : string) (s : string) : option (string * string) :=
  match s with
  | EmptyString => None
  | String c r =>
      if Ascii.eqb c dquote then Some (acc, r)
      else if Ascii.eqb c backslash then
        match r with
        | String e r' =>
            match simple_escape e with
            | Some ch => parse_chars (acc ++ String ch EmptyString) r'
            | None =>
                if Ascii.eqb e "u" then
                  match r' with
                  | String h1 (String h2 (String h3 (String h4 r''))) =>
                      match unicode_escape h1 h2 h3 h4 with
                      | Some ch => parse_chars (acc ++ String ch EmptyString) r''
                      | None => None
                      end
                  | _ => None
                  end
                else None
            end
        | EmptyString => None
        end
      else if Nat.ltb (nat_of_ascii c) 32 then None
      else parse_chars (acc ++ String c EmptyString) r
  end.

Fixpoint take_digits (acc : Z) (s : string) : Z * string :=
  match s with
  | String c r =>
      if is_digit c
      then take_digits (10 * acc + Z.of_nat (nat_of_ascii c - 48)) r
      else (acc, s)
  | EmptyString => (acc, s)
  end.

Definition starts_fraction (s : string) : bool :=
  match s with
  | String c _ => (Ascii.eqb c "." || Ascii.eqb c "e" || Ascii.eqb c "E")%bool
  | EmptyString => false
  end.

(** An unsigned integer literal: [0] or a digit string without leading zero. *)
Definition parse_nat_literal (s : string) : option (Z * string) :=
  match s with
  | String c r =>
      if Ascii.eqb c "0" then
        if starts_fraction r then None else Some (0%Z, r)
      else if is_digit c then
        let '(n, r') := take_digits 0 s in
        if starts_fraction r' then None else Some (n, r')
      else None
  | EmptyString => None
  end.

Definition parse_number (s : string) : option (value * string) :=
  match s with
  | String c r =>
      if Ascii.eqb c "-" then
        match parse_nat_literal r with
        | Some (n, r') => Some (Num (- n), r')
        | None => None
        end
      else
        match parse_nat_literal s with
        | Some (n, r') => Some (Num n, r')
        | None => None
        end
  | EmptyString => None
  end.

Fixpoint parse_value (fuel : nat) (s : string) : option (value * string) :=
  match fuel with
  | O => None
  | S f =>
      match skip_ws s with
      | EmptyString => None
      | String c r =>
          if Ascii.eqb c "n" then expect "ull" Null r
          else if Ascii.eqb c "t" then expect "rue" (Bool true) r
          else if Ascii.eqb c "f" then expect "alse" (Bool false) r
          else if Ascii.eqb c dquote then
            match parse_chars EmptyString r with
            | Some (str, r') => Some (Str str, r')
            | None => None
            end
          else if Ascii.eqb c "[" then
            match skip_ws r with
            | String c' r' =>
                if Ascii.eqb c' "]" then Some (Arr [], r')
                else match parse_elements f r with
                     | Some (l, r'') => Some (Arr l, r'')
                     | None => None
                     end
            | EmptyString => None
            end
          else if Ascii.eqb c "{" then
            match skip_ws r with
            | String c' r' =>
                if Ascii.eqb c' "}" then Some (Obj [], r')
                else match parse_members f r with
                     | Some (m, r'') => Some (Obj m, r'')
                     | None => None
                     end
            | EmptyString => None
            end
          else parse_number (String c r)
      end
  end

with parse_elements (fuel : nat) (s : string) : option (list value * string) :=
  match fuel with
  | O => None
  | S f =>
      match parse_value f s with
      | Some (v, r) =>
          match skip_ws r with
          | String c r' =>
              if Ascii.eqb c "," then
                match parse_elements f r' with
                | Some (l, r'') => Some (v :: l, r'')
                | None => None
                end
              else if Ascii.eqb c "]" then Some ([v], r')
              else None
          | EmptyString => None
          end
      | None => None
      end
  end

with parse_members (fuel : nat) (s : string)
  : option (list (string * value) * string) :=
  match fuel with
  | O => None
  | S f =>
      match skip_ws s with
      | String c r =>
          if Ascii.eqb c dquote then
            match parse_chars EmptyString r with
            | Some (k, r1) =>
                match skip_ws r1 with
                | String c1 r2 =>
                    if Ascii.eqb c1 ":" then
                      match parse_value f r2 with
                      | Some (v, r3) =>
                          match skip_ws r3 with
                          | String c3 r4 =>
                              if Ascii.eqb c3 "," then
                                match parse_members f r4 with
                                | Some (m, r5) => Some ((k, v) :: m, r5)
                                | None => None
                                end
                              else if Ascii.eqb c3 "}" then Some ([(k, v)], r4)
                              else None
                          | EmptyString => None
                          end
                      | None => None
                      end
                    else None
                | EmptyString => None
                end
            | None => None
            end
          else None
      | EmptyString => None
      end
  end.

(** [JSON.parse(s)]: [None] when it throws [SyntaxError]. *)
Definition JSON_parse (s : string) : option value :=
  match parse_value (2 * String.length s + 2) s with
  | Some (v, r) => if is_empty (skip_ws r) then Some v else None
  | None => None
  end.

End JS.

(** ** The controller of the [ReadableStream] handed out as [textStream]

    The providers drive a [ReadableStreamDefaultController] (default
    strategy, high-water mark 1).  [queue] holds the chunks enqueued and not
    yet read, [delivered] the chunks the consumer has received, in order. *)

Module Streams.
Import JS.

Inductive stream_state : Type :=
| Readable
| Closed
| Errored (e : js_error).

Record stream : Type := {
  queue : list value;
  delivered : list value;
  pendingReads : nat;
  closeRequested : bool;
  sstate : stream_state
}.

Definition fresh : stream :=
  {| queue := []; delivered := []; pendingReads := 0;
     closeRequested := false; sstate := Readable |}.

Definition is_readable (s : stream) : bool :=
  match sstate s with Readable => true | _ => false end.

Definition can_close_or_enqueue (s : stream) : bool :=
  (negb (closeRequested s) && is_readable s)%bool.

(** [controller.enqueue(v)] *)
Definition enqueue (v : value) (s : stream) : res stream :=
  if can_close_or_enqueue s then
    match pendingReads s with
    | S n =>
        Ok {| queue := queue s; delivered := (delivered s ++ [v])%list;
              pendingReads := n; closeRequested := closeRequested s;
              sstate := sstate s |}
    | O =>
        Ok {| queue := (queue s ++ [v])%list; delivered := delivered s;
              pendingReads := 0; closeRequested := closeRequested s;
              sstate := sstate s |}
    end
  else Throw TypeError.

(** [controller.close()] *)
Definition close (s : stream) : res stream :=
  if can_close_or_enqueue s then
    match queue s with
    | [] =>
        Ok {| queue := []; delivered := delivered s; pendingReads := 0;
              closeRequested := true; sstate := Closed |}
    | _ =>
        Ok {| queue := queue s; delivered := delivered s;
              pendingReads := pendingReads s; closeRequested := true;
              sstate := sstate s |}
    end
  else Throw TypeError.

(** [controller.error(e)] *)
Definition error (e : js_error) (s : stream) : stream :=
  if is_readable s then
    {| queue := []; delivered := delivered s; pendingReads := 0;
       closeRequested := closeRequested s; sstate := Errored e |}
  else s.

(** [controller.desiredSize]; [None] is [null]. *)
Definition desiredSize (s : stream) : option Z :=
  match sstate s with
  | Errored _ => None
  | Closed => Some 0%Z
  | Readable => Some (1 - Z.of_nat (List.length (queue s)))%Z
  end.

(** One [read()] by the consumer of the stream. *)
Definition pull (s : stream) : stream :=
  match queue s with
  | v :: rest =>
      {| queue := rest; delivered := (delivered s ++ [v])%list;
         pendingReads := pendingReads s; closeRequested := closeRequested s;
         sstate := match rest with
                   | [] => if closeRequested s then Closed else sstate s
                   | _ => sstate s
                   end |}
  | [] =>
      if is_readable s then
        {| queue := []; delivered := delivered s;
           pendingReads := S (pendingReads s);
           closeRequested := closeRequested s; sstate := sstate s |}
      else s
  end.

(** Every chunk the controller has accepted and not dropped. *)
Definition yielded (s : stream) : list value := (delivered s ++ queue s)%list.

End Streams.

(** ** The shared declarations of [src/types.ts] *)

Module Types.
Import JS.

(** [ProcessedStreamChunk['type']] *)
Inductive chunk_type : Type :=
| text_delta | tool_call_delta | tool_call_start | stop | other.

(** The [rawError] passed to [onError]. *)
Inductive raw : Type :=
| RawText (s : string)
| RawValue (v : value)
| RawError (e : js_error).

(** What the caller can observe besides the return value: the calls of its
    hooks, and what is written to the console. *)
Inductive effect (Message Usage : Type) : Type :=
| OnMessage (type : chunk_type) (data rawChunk : value)
| OnError (error : js_error) (rawError : raw)
| OnFinish (finalResponse : Message) (usage : Usage) (stopReason : value)
| ConsoleError (error : js_error) (text : string).
Arguments OnMessage {Message Usage} type data rawChunk.
Arguments OnError {Message Usage} error rawError.
Arguments OnFinish {Message Usage} finalResponse usage stopReason.
Arguments ConsoleError {Message Usage} error text.

(** Which of the optional hooks of [GenerateParams] the caller passed. *)
Record hooks : Type := {
  onMessage : bool;
  onError : bool;
  onFinish : bool
}.

(** [GenerateResultStreaming]'s three accessors. *)
Inductive accessor : Type :=
| FinalResponse
| UsageOf
| StopReason.

(** What one [await reader.read()] settles to. *)
Inductive read_result : Type :=
| Chunk (text : string)
| Done
| Failed (e : js_error).

(** What happens around the read loop: a read settles and the loop body
    runs up to the next read, the consumer of [textStream] reads, the caller
    invokes an accessor.  A run of the program is a list of such events. *)
Inductive event : Type :=
| Read (rr : read_result)
| Pull
| Call (a : accessor).

(** The HTTP response of the non-streaming branch. *)
Record response : Type := {
  ok : bool;
  status : Z;
  statusText : string;
  responseText : string
}.

(** The [errorBody] built when the text of a non-OK response is not JSON. *)
Definition fallback_body (resp : response) : value :=
  Obj [("message", Str (statusText resp));
       ("details", Str (responseText resp))].

End Types.

(** ** [OpenAIProvider.request] *)

Module OpenAI.
Import JS Types.

Record Usage : Type := {
  inputTokens : value;
  outputTokens : value;
  totalTokens : value
}.

(** An element of [aggregatedToolCalls]:
    [{ id, type: 'function', function: { name, arguments } }]. *)
Record ToolCall : Type := {
  tc_id : value;
  fn_name : value;
  fn_arguments : value
}.

(** [{ role: 'assistant', content, toolCalls }] *)
Record Message : Type := {
  content : string;
  toolCalls : option (list ToolCall)
}.

Definition effect : Type := Types.effect Message Usage.

(** The variables [request] closes over in its streaming branch. *)
Record state : Type := {
  aggregatedContent : string;
  aggregatedToolCalls : list ToolCall;
  finalStopReason : value;
  finalUsage : Usage;
  trace : list effect
}.

Definition initial : state :=
  {| aggregatedContent := EmptyString;
     aggregatedToolCalls := [];
     finalStopReason := Null;
     finalUsage := {| inputTokens := Num 0; outputTokens := Num 0;
                      totalTokens := Num 0 |};
     trace := [] |}.

(** The part of the state the accessors read. *)
Definition aggregate (st : state)
  : string * list ToolCall * value * Usage :=
  (aggregatedContent st, aggregatedToolCalls st, finalStopReason st,
   finalUsage st).

Definition set_content (c : string) (st : state) : state :=
  {| aggregatedContent := c;
     aggregatedToolCalls := aggregatedToolCalls st;
     finalStopReason := finalStopReason st;
     finalUsage := finalUsage st;
     trace := trace st |}.

Definition set_tool_calls (tcs : list ToolCall) (st : state) : state :=
  {| aggregatedContent := aggregatedContent st;
     aggregatedToolCalls := tcs;
     finalStopReason := finalStopReason st;
     finalUsage := finalUsage st;
     trace := trace st |}.

Definition set_stop_reason (r : value) (st : state) : state :=
  {| aggregatedContent := aggregatedContent st;
     aggregatedToolCalls := aggregatedToolCalls st;
     finalStopReason := r;
     finalUsage := finalUsage st;
     trace := trace st |}.

Definition set_usage (u : Usage) (st : state) : state :=
  {| aggregatedContent := aggregatedContent st;
     aggregatedToolCalls := aggregatedToolCalls st;
     finalStopReason := finalStopReason st;
     finalUsage := u;
     trace := trace st |}.

Definition emit (e : effect) (st : state) : state :=
  {| aggregatedContent := aggregatedContent st;
     aggregatedToolCalls := aggregatedToolCalls st;
     finalStopReason := finalStopReason st;
     finalUsage := finalUsage st;
     trace := (trace st ++ [e])%list |}.

(** Statements of a [try] body: the state they leave and the exception
    they end with, if any. *)
Definition stmt : Type := state -> state * option js_error.

Definition skip : stmt := fun st => (st, None).
Definition throw (e : js_error) : stmt := fun st => (st, Some e).
Definition assign (f : state -> state) : stmt := fun st => (f st, None).
Definition seq (a b : stmt) : stmt :=
  fun st => match a st with
            | (st', None) => b st'
            | (st', Some e) => (st', Some e)
            end.
Definition eval {A : Type} (r : res A) (k : A -> stmt) : stmt :=
  match r with Ok a => k a | Throw e => throw e end.

Notation "a ;; b" := (seq a b) (at level 61, right associativity).

(** [existingTc.function.name += v] (and likewise [arguments]) *)
Definition append_name (v : value) (tc : ToolCall) : ToolCall :=
  {| tc_id := tc_id tc; fn_name := add (fn_name tc) v;
     fn_arguments := fn_arguments tc |}.

Definition append_arguments (v : value) (tc : ToolCall) : ToolCall :=
  {| tc_id := tc_id tc; fn_name := fn_name tc;
     fn_arguments := add (fn_arguments tc) v |}.

Fixpoint update_nth {A : Type} (i : nat) (f : A -> A) (l : list A) : list A :=
  match l, i with
  | [], _ => []
  | x :: r, O => f x :: r
  | x :: r, S j => x :: update_nth j f r
  end.

(** The object pushed for an index at or beyond the end of the array. *)
Definition new_tool_call (tc_delta : value) : ToolCall :=
  {| tc_id := field tc_delta "id";
     fn_name := or_else (oget (field tc_delta "function") "name")
                        (Str EmptyString);
     fn_arguments := or_else (oget (field tc_delta "function") "arguments")
                             (Str EmptyString) |}.

(** The callback of [delta.tool_calls.forEach]. *)
Definition tool_call_step (tcs : list ToolCall) (tc_delta : value)
  : res (list ToolCall) :=
  match get tc_delta "index" with
  | Throw e => Throw e
  | Ok index =>
      if ge_length index (List.length tcs)
      then Ok (tcs ++ [new_tool_call tc_delta])%list
      else
        let name := oget (field tc_delta "function") "name" in
        let args := oget (field tc_delta "function") "arguments" in
        match element_index tcs index with
        | None =>
            (* existingTc is undefined *)
            if (truthy name || truthy args)%bool then Throw TypeError
            else Ok tcs
        | Some i =>
            let tcs1 :=
              if truthy name then update_nth i (append_name name) tcs
              else tcs in
            Ok (if truthy args
                then update_nth i (append_arguments args) tcs1
                else tcs1)
        end
  end.

Fixpoint forEach_tool_call (ds : list value) (tcs : list ToolCall)
  : list ToolCall * option js_error :=
  match ds with
  | [] => (tcs, None)
  | d :: ds' =>
      match tool_call_step tcs d with
      | Ok tcs' => forEach_tool_call ds' tcs'
      | Throw e => (tcs, Some e)
      end
  end.

Section Streaming.

(** [JSON.parse]; [None] when it throws. *)
Variable parse_json : string -> option value.
Variable h : hooks.

Definition call_onMessage (t : chunk_type) (data rawChunk : value) : stmt :=
  assign (emit (OnMessage t data rawChunk)).

(** The body of [if (onMessage) { ... }] (lines 248-278). *)
Definition classify (chunkData : value) : stmt :=
  eval (get chunkData "choices") (fun choices =>
    let delta := oget (oindex0 choices) "delta" in
    if truthy (oget delta "content") then
      assign (fun st =>
        set_content (aggregatedContent st ++ to_string (field delta "content"))
                    st) ;;
      call_onMessage text_delta (field delta "content") chunkData
    else if truthy (oget delta "tool_calls") then
      match field delta "tool_calls" with
      | Arr ds =>
          (fun st =>
             let '(tcs, thrown) :=
               forEach_tool_call ds (aggregatedToolCalls st) in
             (set_tool_calls tcs st, thrown)) ;;
          call_onMessage tool_call_delta (Arr ds) chunkData
      | _ => throw TypeError
      end
    else call_onMessage other chunkData chunkData).

(** Lines 280-282. *)
Definition update_stop_reason (chunkData : value) : stmt :=
  eval (get chunkData "choices") (fun choices =>
    let finish_reason := oget (oindex0 choices) "finish_reason" in
    if truthy finish_reason then assign (set_stop_reason finish_reason)
    else skip).

(** Lines 287-293. *)
Definition update_usage (chunkData : value) : stmt :=
  eval (get chunkData "usage") (fun u =>
    if truthy u then
      assign (fun st =>
        set_usage
          {| inputTokens :=
               or_else (field u "prompt_tokens") (inputTokens (finalUsage st));
             outputTokens :=
               or_else (field u "completion_tokens")
                       (outputTokens (finalUsage st));
             totalTokens :=
               or_else (field u "total_tokens") (totalTokens (finalUsage st))
          |} st)
    else skip).

(** The [try] body once [JSON.parse] has returned [chunkData]. *)
Definition on_chunk_data (chunkData : value) : stmt :=
  (if onMessage h then classify chunkData else skip) ;;
  update_stop_reason chunkData ;;
  update_usage chunkData.

(** The [catch] clause of lines 296-299. *)
Definition on_catch (e : js_error) (dataStr : string) (st : state) : state :=
  let st1 := emit (ConsoleError e dataStr) st in
  if onError h then emit (OnError e (RawText dataStr)) st1 else st1.

Inductive flow : Type :=
| Continue
| Return.

(** One iteration of [for (const line of lines)] in [processChunk]. *)
Definition process_line (line : string) (st : state) : state * flow :=
  if startsWith line "data: " then
    let dataStr := substring_from 6 line in
    if String.eqb dataStr "[DONE]" then (st, Return)
    else
      let '(st', thrown) :=
        match parse_json dataStr with
        | Some chunkData => on_chunk_data chunkData st
        | None => (st, Some (SyntaxError dataStr))
        end in
      match thrown with
      | None => (st', Continue)
      | Some e => (on_catch e dataStr st', Continue)
      end
  else (st, Continue).

Fixpoint process_lines (lines : list string) (st : state) : state :=
  match lines with
  | [] => st
  | line :: rest =>
      match process_line line st with
      | (st', Continue) => process_lines rest st'
      | (st', Return) => st'
      end
  end.

(** The line that ends the stream: [data: [DONE]]. *)
Definition is_done (line : string) : bool :=
  (startsWith line "data: "
   && String.eqb (substring_from 6 line) "[DONE]")%bool.

(** [chunkStr.split('\n').filter(line => line.trim() !== '')] *)
Definition lines_of (chunkStr : string) : list string :=
  filter (fun line => negb (is_empty (trim line))) (split nl chunkStr).

(** [processChunk(value)] for a chunk the reader delivered. *)
Definition processChunk (chunkStr : string) (st : state) : state :=
  process_lines (lines_of chunkStr) st.


(** *** The read loop of [textStream] (lines 305-362) *)

Inductive live_flow : Type :=
| LiveContinue
| LiveReturn
| LiveThrow (e : js_error).

(** One iteration of the second [for (const line of lines)], which feeds
    [textStream]. *)
Definition live_line (line : string) (out : Streams.stream)
  : Streams.stream * live_flow :=
  if startsWith line "data: " then
    let dataStr := substring_from 6 line in
    if String.eqb dataStr "[DONE]" then
      match Streams.close out with
      | Ok out' => (out', LiveReturn)
      | Throw e => (out, LiveThrow e)
      end
    else
      match parse_json dataStr with
      | None => (out, LiveContinue)
      | Some parsed =>
          match get parsed "choices" with
          | Throw _ => (out, LiveContinue)
          | Ok choices =>
              let textDelta :=
                oget (oget (oindex0 choices) "delta") "content" in
              if truthy textDelta then
                match Streams.enqueue textDelta out with
                | Ok out' => (out', LiveContinue)
                | Throw _ => (out, LiveContinue)
                end
              else (out, LiveContinue)
          end
      end
  else (out, LiveContinue).

Fixpoint live_lines (lines : list string) (out : Streams.stream)
  : Streams.stream * live_flow :=
  match lines with
  | [] => (out, LiveContinue)
  | line :: rest =>
      match live_line line out with
      | (out', LiveContinue) => live_lines rest out'
      | r => r
      end
  end.

Record run_state : Type := {
  agg : state;
  out : Streams.stream;
  finished : bool
}.

Definition started : run_state :=
  {| agg := initial; out := Streams.fresh; finished := false |}.

Definition finalResponse (st : state) : Message :=
  {| content := aggregatedContent st;
     toolCalls := match aggregatedToolCalls st with
                  | [] => None
                  | tcs => Some tcs
                  end |}.

Definition usage (st : state) : Usage := finalUsage st.

Definition stopReason (st : state) : value := finalStopReason st.

(** The [catch (error)] clause of line 334. *)
Definition on_fatal (e : js_error) (r : run_state) : run_state :=
  {| agg := if onError h then emit (OnError e (RawError e)) (agg r)
            else agg r;
     out := Streams.error e (out r);
     finished := finished r |}.

(** The [finally] clause of lines 337-361. *)
Definition finally (r : run_state) : run_state :=
  let out' :=
    match Streams.desiredSize (out r) with
    | None => out r
    | Some d =>
        if Z.leb d 0 then out r
        else match Streams.close (out r) with
             | Ok o => o
             | Throw _ => out r
             end
    end in
  {| agg := if onFinish h
            then emit (OnFinish (finalResponse (agg r)) (finalUsage (agg r))
                                (finalStopReason (agg r))) (agg r)
            else agg r;
     out := out';
     finished := true |}.

(** One turn of [while (true)]: the read settles and the body runs. *)
Definition on_read (rr : read_result) (r : run_state) : run_state :=
  if finished r then r
  else
    match rr with
    | Done => finally r
    | Failed e => finally (on_fatal e r)
    | Chunk value =>
        let st' := processChunk value (agg r) in
        match live_lines (lines_of value) (out r) with
        | (out', LiveContinue) =>
            {| agg := st'; out := out'; finished := false |}
        | (out', LiveReturn) =>
            finally {| agg := st'; out := out'; finished := false |}
        | (out', LiveThrow e) =>
            finally (on_fatal e {| agg := st'; out := out'; finished := false |})
        end
    end.

(** *** The caller's side: the accessors of [GenerateResultStreaming] and
    the consumer of [textStream], interleaved with the read loop *)

Inductive answer : Type :=
| AMessage (m : Message)
| AUsage (u : Usage)
| AStopReason (v : value).

(** The value the [async] arrow function resolves with. *)
Definition resolve (a : accessor) (st : state) : answer :=
  match a with
  | FinalResponse => AMessage (finalResponse st)
  | UsageOf => AUsage (usage st)
  | StopReason => AStopReason (stopReason st)
  end.

Record world : Type := {
  run : run_state;
  answers : list answer
}.

Definition request_returned : world :=
  {| run := started; answers := [] |}.

Definition step (w : world) (ev : event) : world :=
  match ev with
  | Read rr => {| run := on_read rr (run w); answers := answers w |}
  | Pull =>
      {| run := {| agg := agg (run w); out := Streams.pull (out (run w));
                   finished := finished (run w) |};
         answers := answers w |}
  | Call a =>
      {| run := run w;
         answers := (answers w ++ [resolve a (agg (run w))])%list |}
  end.

Definition exec (evs : list event) (w : world) : world :=
  fold_left step evs w.

(** *** The non-streaming branch (lines 148-209) *)

(** [{ response, usage, stopReason }] *)
Record result : Type := {
  r_response : option Message;
  r_usage : option Usage;
  r_stopReason : value
}.

Definition error_result : result :=
  {| r_response := None; r_usage := None; r_stopReason := Str "error" |}.

(** Lines 158-163. *)
Definition errorBody_of (resp : response) : value :=
  match parse_json (responseText resp) with
  | Some body => body
  | None => fallback_body resp
  end.

(** Lines 157-169 with the [catch] of lines 378-388 around them: the effects
    and the value the promise resolves with when [!response.ok]. *)
Definition request_not_ok (resp : response) : list effect * result :=
  let errorBody := errorBody_of resp in
  match get errorBody "error" with
  | Ok err =>
      let error :=
        ApiError ("OpenAI API Error: " ++ string_of_Z (status resp) ++ " "
                  ++ to_string (or_else (oget err "message")
                                        (field errorBody "message"))) in
      (if onError h then [OnError error (RawValue errorBody)] else [],
       error_result)
  | Throw e =>
      (if onError h then [OnError e (RawError e)] else [], error_result)
  end.

(** Lines 180-184: the usage of a successful non-streaming call, for the
    parsed body [responseData] (an object, [responseData.choices[0]] having
    been read before). *)
Definition usage_of_response (responseData : value) : Usage :=
  let u := field responseData "usage" in
  {| inputTokens := or_else (oget u "prompt_tokens") (Num 0);
     outputTokens := or_else (oget u "completion_tokens") (Num 0);
     totalTokens := or_else (oget u "total_tokens") (Num 0) |}.

End Streaming.

End OpenAI.

(** ** [AnthropicProvider.request] *)

Module Anthropic.
Import JS Types.

(** [Usage], whose [totalTokens] is optional. *)
Record Usage : Type := {
  inputTokens : value;
  outputTokens : value;
  totalTokens : option value
}.

(** The only [ContentPart] the streaming branch builds. *)
Inductive ContentPart : Type :=
| TextPart (text : string).

(** [{ role: 'assistant', content }] *)
Record Message : Type := {
  content : list ContentPart
}.

Definition effect : Type := Types.effect Message Usage.

(** The variables the streaming branch closes over, with the stream its
    controller feeds.  ([currentToolCalls], [finalToolCalls] and
    [currentMessage] are declared and never used.)  The array in
    [finalMessageContentBlocks] is the one a message returned by
    [finalResponse()] or passed to [onFinish] holds as its content. *)
Record state : Type := {
  aggregatedTextContent : string;
  currentUsage : Usage;
  currentStopReason : value;
  finalMessageContentBlocks : list ContentPart;
  textStream : Streams.stream;
  trace : list effect
}.

Definition initial : state :=
  {| aggregatedTextContent := EmptyString;
     currentUsage := {| inputTokens := Num 0; outputTokens := Num 0;
                        totalTokens := None |};
     currentStopReason := Null;
     finalMessageContentBlocks := [];
     textStream := Streams.fresh;
     trace := [] |}.

(** The part of the state the accessors read. *)
Definition aggregate (st : state) : string * Usage * value :=
  (aggregatedTextContent st, currentUsage st, currentStopReason st).

Definition set_text (t : string) (st : state) : state :=
  {| aggregatedTextContent := t;
     currentUsage := currentUsage st;
     currentStopReason := currentStopReason st;
     finalMessageContentBlocks := finalMessageContentBlocks st;
     textStream := textStream st;
     trace := trace st |}.

Definition set_usage (u : Usage) (st : state) : state :=
  {| aggregatedTextContent := aggregatedTextContent st;
     currentUsage := u;
     currentStopReason := currentStopReason st;
     finalMessageContentBlocks := finalMessageContentBlocks st;
     textStream := textStream st;
     trace := trace st |}.

Definition set_stop_reason (r : value) (st : state) : state :=
  {| aggregatedTextContent := aggregatedTextContent st;
     currentUsage := currentUsage st;
     currentStopReason := r;
     finalMessageContentBlocks := finalMessageContentBlocks st;
     textStream := textStream st;
     trace := trace st |}.

Definition set_blocks (b : list ContentPart) (st : state) : state :=
  {| aggregatedTextContent := aggregatedTextContent st;
     currentUsage := currentUsage st;
     currentStopReason := currentStopReason st;
     finalMessageContentBlocks := b;
     textStream := textStream st;
     trace := trace st |}.

Definition set_stream (s : Streams.stream) (st : state) : state :=
  {| aggregatedTextContent := aggregatedTextContent st;
     currentUsage := currentUsage st;
     currentStopReason := currentStopReason st;
     finalMessageContentBlocks := finalMessageContentBlocks st;
     textStream := s;
     trace := trace st |}.

Definition emit (e : effect) (st : state) : state :=
  {| aggregatedTextContent := aggregatedTextContent st;
     currentUsage := currentUsage st;
     currentStopReason := currentStopReason st;
     finalMessageContentBlocks := finalMessageContentBlocks st;
     textStream := textStream st;
     trace := (trace st ++ [e])%list |}.

(** How a statement of the loop body completes. *)
Inductive completion : Type :=
| Normal
| Break
| Return
| Thrown (e : js_error).

Definition stmt : Type := state -> state * completion.

Definition skip : stmt := fun st => (st, Normal).
Definition throw (e : js_error) : stmt := fun st => (st, Thrown e).
Definition break : stmt := fun st => (st, Break).
Definition ret : stmt := fun st => (st, Return).
Definition assign (f : state -> state) : stmt := fun st => (f st, Normal).
Definition seq (a b : stmt) : stmt :=
  fun st => match a st with
            | (st', Normal) => b st'
            | r => r
            end.
Definition eval {A : Type} (r : res A) (k : A -> stmt) : stmt :=
  match r with Ok a => k a | Throw e => throw e end.

Notation "a ;; b" := (seq a b) (at level 61, right associativity).

(** [streamController.enqueue(chunk)] *)
Definition stream_enqueue (v : value) : stmt :=
  fun st => match Streams.enqueue v (textStream st) with
            | Ok s => (set_stream s st, Normal)
            | Throw e => (st, Thrown e)
            end.

(** [streamController.error(e)] *)
Definition stream_error (e : js_error) (st : state) : state :=
  set_stream (Streams.error e (textStream st)) st.

(** [streamController.close()], which swallows what [close] throws. *)
Definition stream_close (st : state) : state :=
  match Streams.close (textStream st) with
  | Ok s => set_stream s st
  | Throw _ => st
  end.

(** The inner [for (const line of lines)] (lines 244-247). *)
Fixpoint scan_lines (lines : list string) (eventName : option string)
  (dataStr : string) : option string * string :=
  match lines with
  | [] => (eventName, dataStr)
  | line :: rest =>
      if startsWith line "event: "
      then scan_lines rest (Some (trim (substring_from 7 line))) dataStr
      else if startsWith line "data: "
      then scan_lines rest eventName (dataStr ++ substring_from 6 line)
      else scan_lines rest eventName dataStr
  end.

(** [{ eventName, eventData }] *)
Definition named (eventName : string) (eventData : value) : value :=
  Obj [("eventName", Str eventName); ("eventData", eventData)].

Definition is_str (v : value) (s : string) : bool :=
  match v with Str s' => String.eqb s' s | _ => false end.

Section Streaming.

(** [JSON.parse]; [None] when it throws. *)
Variable parse_json : string -> option value.
Variable h : hooks.

Definition call_onMessage (t : chunk_type) (data rawChunk : value) : stmt :=
  if onMessage h then assign (emit (OnMessage t data rawChunk)) else skip.

Definition call_onError (e : js_error) (r : raw) (st : state) : state :=
  if onError h then emit (OnError e r) st else st.

(** The [try] body of lines 252-297, [eventData] being parsed. *)
Definition on_event (eventName : string) (eventData : value) : stmt :=
  if String.eqb eventName "message_start" then
    eval (get eventData "message") (fun message =>
      assign (fun st =>
        set_usage
          {| inputTokens :=
               or_else (oget (oget message "usage") "input_tokens") (Num 0);
             outputTokens := outputTokens (currentUsage st);
             totalTokens := totalTokens (currentUsage st) |} st)) ;;
    call_onMessage other (named eventName eventData) eventData
  else if String.eqb eventName "content_block_start" then
    call_onMessage other (named eventName eventData) eventData
  else if String.eqb eventName "content_block_delta" then
    eval (get eventData "delta") (fun delta =>
    eval (get delta "type") (fun type =>
      if is_str type "text_delta" then
        assign (fun st =>
          set_text (aggregatedTextContent st ++ to_string (field delta "text"))
                   st) ;;
        stream_enqueue (field delta "text") ;;
        call_onMessage text_delta (field delta "text") eventData
      else if is_str type "input_json_delta" then
        call_onMessage tool_call_delta
          (Obj [("tool_use_id", field eventData "index");
                ("partial_json", field delta "partial_json")])
          eventData
      else call_onMessage other eventData eventData))
  else if String.eqb eventName "content_block_stop" then
    call_onMessage other (named eventName eventData) eventData
  else if String.eqb eventName "message_delta" then
    eval (get eventData "usage") (fun u =>
      assign (fun st =>
        set_usage
          {| inputTokens := inputTokens (currentUsage st);
             outputTokens :=
               or_else (oget u "output_tokens") (outputTokens (currentUsage st));
             totalTokens := totalTokens (currentUsage st) |} st) ;;
      (let stop_reason := oget (field eventData "delta") "stop_reason" in
       if truthy stop_reason then assign (set_stop_reason stop_reason)
       else skip) ;;
      call_onMessage other (named eventName eventData) eventData)
  else if String.eqb eventName "message_stop" then
    call_onMessage stop (named eventName eventData) eventData ;;
    break
  else if String.eqb eventName "ping" then skip
  else if String.eqb eventName "error" then
    eval (get eventData "error") (fun error =>
      let err :=
        ApiError ("Anthropic API Stream Error: "
                  ++ to_string (oget error "type") ++ " "
                  ++ to_string (oget error "message")) in
      assign (call_onError err (RawValue error)) ;;
      assign (stream_error err) ;;
      ret)
  else skip.

(** The [catch] clause of lines 298-301. *)
Definition on_catch (e : js_error) (dataStr : string) (st : state) : state :=
  call_onError e (RawText dataStr) (emit (ConsoleError e dataStr) st).

(** One iteration of [for (const eventLine of eventLines)]. *)
Definition process_event (eventLine : string) : stmt :=
  fun st =>
    let '(eventName, dataStr) :=
      scan_lines (split nl eventLine) None EmptyString in
    match eventName with
    | None => (st, Normal)
    | Some name =>
        if (is_empty name || is_empty dataStr)%bool then (st, Normal)
        else
          let '(st', c) :=
            match parse_json dataStr with
            | Some eventData => on_event name eventData st
            | None => (st, Thrown (SyntaxError dataStr))
            end in
          match c with
          | Thrown e => (on_catch e dataStr st', Normal)
          | _ => (st', c)
          end
    end.

Fixpoint process_events (eventLines : list string) : stmt :=
  match eventLines with
  | [] => skip
  | eventLine :: rest => process_event eventLine ;; process_events rest
  end.

(** [chunkStr.split('\n\n').filter(line => line.trim() !== '')] *)
Definition events_of (chunkStr : string) : list string :=
  filter (fun line => negb (is_empty (trim line))) (split (nl ++ nl) chunkStr).

(** The [catch (error)] clause of lines 305-307. *)
Definition on_fatal (e : js_error) (st : state) : state :=
  call_onError e (RawError e) (stream_error e st).

(** The [finally] clause of lines 308-332. *)
Definition finally (st : state) : state :=
  let st1 := stream_close st in
  let st2 :=
    set_blocks (finalMessageContentBlocks st1
                ++ [TextPart (aggregatedTextContent st1)])%list st1 in
  let st3 :=
    set_usage
      {| inputTokens := inputTokens (currentUsage st2);
         outputTokens := outputTokens (currentUsage st2);
         totalTokens := Some (add (inputTokens (currentUsage st2))
                                  (outputTokens (currentUsage st2))) |} st2 in
  if onFinish h
  then emit (OnFinish {| content := finalMessageContentBlocks st3 |}
                      (currentUsage st3) (currentStopReason st3)) st3
  else st3.

Record run_state : Type := {
  vars : state;
  finished : bool
}.

Definition started : run_state := {| vars := initial; finished := false |}.

(** One turn of [while (true)] (lines 232-304).  The test of line 303 reads
    [eventName], which is declared by [let] inside the body of the [for]
    loop that ends on line 302: outside that block the name has no binding,
    so the read throws a [ReferenceError], which the [catch] of line 305
    receives.  It is reached whenever the [for] loop ends or is left by
    [break]. *)
Definition on_read (rr : read_result) (r : run_state) : run_state :=
  if finished r then r
  else
    match rr with
    | Done => {| vars := finally (vars r); finished := true |}
    | Failed e => {| vars := finally (on_fatal e (vars r)); finished := true |}
    | Chunk chunkStr =>
        match process_events (events_of chunkStr) (vars r) with
        | (st', Return) => {| vars := finally st'; finished := true |}
        | (st', Thrown e) =>
            {| vars := finally (on_fatal e st'); finished := true |}
        | (st', _) =>
            {| vars := finally (on_fatal (ReferenceError "eventName") st');
               finished := true |}
        end
    end.

(** *** The accessors (lines 336-347) *)

Inductive answer : Type :=
| AMessage (m : Message)
| AUsage (u : Usage)
| AStopReason (v : value).

(** [finalResponse()]: it replaces [finalMessageContentBlocks] by a new
    array and returns a message holding that array. *)
Definition finalResponse (st : state) : state * Message :=
  let blocks :=
    if is_empty (aggregatedTextContent st) then []
    else [TextPart (aggregatedTextContent st)] in
  (set_blocks blocks st, {| content := blocks |}).

Definition usage (st : state) : Usage :=
  {| inputTokens := inputTokens (currentUsage st);
     outputTokens := outputTokens (currentUsage st);
     totalTokens := Some (add (inputTokens (currentUsage st))
                              (outputTokens (currentUsage st))) |}.

Definition stopReason (st : state) : value := currentStopReason st.

Record world : Type := {
  run : run_state;
  answers : list answer
}.

Definition request_returned : world := {| run := started; answers := [] |}.

(** The value an accessor resolves with, and the state it leaves. *)
Definition resolve (a : accessor) (st : state) : state * answer :=
  match a with
  | FinalResponse =>
      let '(st', m) := finalResponse st in (st', AMessage m)
  | UsageOf => (st, AUsage (usage st))
  | StopReason => (st, AStopReason (stopReason st))
  end.

Definition step (w : world) (ev : event) : world :=
  match ev with
  | Read rr => {| run := on_read rr (run w); answers := answers w |}
  | Pull =>
      {| run := {| vars := set_stream (Streams.pull (textStream (vars (run w))))
                                      (vars (run w));
                   finished := finished (run w) |};
         answers := answers w |}
  | Call a =>
      let '(st', ans) := resolve a (vars (run w)) in
      {| run := {| vars := st'; finished := finished (run w) |};
         answers := (answers w ++ [ans])%list |}
  end.

Definition exec (evs : list event) (w : world) : world :=
  fold_left step evs w.

(** *** The non-streaming branch (lines 154-192) *)

Record result : Type := {
  r_response : option Message;
  r_usage : option Usage;
  r_stopReason : value
}.

Definition error_result : result :=
  {| r_response := None; r_usage := None; r_stopReason := Str "error" |}.

(** Lines 164-166. *)
Definition errorBody_of (resp : response) : value :=
  match parse_json (responseText resp) with
  | Some body => body
  | None => fallback_body resp
  end.

(** Lines 163-172 with the [catch] of lines 350-360 around them. *)
Definition request_not_ok (resp : response) : list effect * result :=
  let errorBody := errorBody_of resp in
  match get errorBody "error" with
  | Ok err =>
      let errMsg :=
        or_else (or_else (oget err "message") (field errorBody "message"))
                (Str (statusText resp)) in
      let errType :=
        or_else (or_else (oget err "type") (field errorBody "type"))
                (Str "unknown_error") in
      let error :=
        ApiError ("Anthropic API Error: " ++ string_of_Z (status resp) ++ " "
                  ++ to_string errType ++ ": " ++ to_string errMsg) in
      (if onError h then [OnError error (RawValue errorBody)] else [],
       error_result)
  | Throw e =>
      (if onError h then [OnError e (RawError e)] else [], error_result)
  end.

(** Lines 182-186: the usage of a successful non-streaming call, for the
    parsed body [responseData] (an object, [responseData.content] having
    been read before). *)
Definition usage_of_response (responseData : value) : Usage :=
  let u := field responseData "usage" in
  {| inputTokens := or_else (oget u "input_tokens") (Num 0);
     outputTokens := or_else (oget u "output_tokens") (Num 0);
     totalTokens := Some (add (or_else (oget u "input_tokens") (Num 0))
                              (or_else (oget u "output_tokens") (Num 0))) |}.

End Streaming.

End Anthropic.

(** ** Object literals with spread, as the request bodies are built *)

Module Objects.
Import JS.

(** Members of [m] other than [k]. *)
Fixpoint remove_member (k : string) (m : list (string * value))
  : list (string * value) :=
  match m with
  | [] => []
  | (k', v) :: r =>
      if String.eqb k k' then remove_member k r
      else (k', v) :: remove_member k r
  end.

(** [obj.k = v]: the member keeps its place when the key exists, and is
    added at the end otherwise. *)
Fixpoint set_member (k : string) (v : value) (m : list (string * value))
  : list (string * value) :=
  match m with
  | [] => [(k, v)]
  | (k', v') :: r =>
      if String.eqb k k' then (k, v) :: remove_member k r
      else (k', v') :: set_member k v r
  end.

(** [{ ...base, ...extra }] *)
Definition spread (base extra : list (string * value))
  : list (string * value) :=
  fold_left (fun m kv => set_member (fst kv) (snd kv) m) extra base.

(** [...(o || {})] for an optional object [o]. *)
Definition spread_optional (base : list (string * value))
  (o : option (list (string * value))) : list (string * value) :=
  match o with
  | Some extra => spread base extra
  | None => base
  end.

End Objects.

(** ** The message types of [src/types.ts] *)

Module Messages.
Import JS.

Inductive Role : Type :=
| user | assistant | tool.

Definition role_name (r : Role) : string :=
  match r with
  | user => "user"
  | assistant => "assistant"
  | tool => "tool"
  end.

Definition is_tool (r : Role) : bool :=
  match r with tool => true | _ => false end.

(** [ImagePart['mediaType']] *)
Inductive MediaType : Type :=
| image_jpeg | image_png | image_gif | image_webp.

Definition media_type_name (m : MediaType) : string :=
  match m with
  | image_jpeg => "image/jpeg"
  | image_png => "image/png"
  | image_gif => "image/gif"
  | image_webp => "image/webp"
  end.

(** An element of a structured [ToolResultPart.content]. *)
Inductive ResultPart : Type :=
| ResultText (text : string)
| ResultImage (mediaType : MediaType) (data : string).

(** [ToolResultPart.content] *)
Inductive ResultContent : Type :=
| ResultString (s : string)
| ResultParts (parts : list ResultPart).

Inductive ContentPart : Type :=
| TextPart (text : string)
| ImagePart (mediaType : MediaType) (data : string)
| ToolCallPart (id name : string) (input : value)
| ToolResultPart (toolUseId : string) (content : ResultContent)
                 (isError : option bool).

(** [Message.content] *)
Inductive Content : Type :=
| Plain (s : string)
| Parts (parts : list ContentPart).

(** [Message]; its [toolCalls] field is not read by the providers. *)
Record Message : Type := {
  role : Role;
  content : Content;
  toolCallId : option string
}.

(** Truthiness of an optional string. *)
Definition given (o : option string) : bool :=
  match o with
  | Some s => negb (is_empty s)
  | None => false
  end.

(** An optional string as read from the object: [undefined] when absent. *)
Definition optional_string (o : option string) : value :=
  match o with
  | Some s => Str s
  | None => Undefined
  end.

Definition optional_bool (o : option bool) : value :=
  match o with
  | Some b => Bool b
  | None => Undefined
  end.

End Messages.

(** ** [splitDataUrl] *)

Module DataUrl.
Import JS.

Record parts : Type := {
  mimeType : option string;
  base64Content : option string
}.

(** The [catch] clause. *)
Definition failed : parts := {| mimeType := None; base64Content := None |}.

(** [splitDataUrl(dataUrl)].  Reading [.split] off an [undefined] element
    throws, which the [catch] turns into two [undefined] fields. *)
Definition splitDataUrl (dataUrl : string) : parts :=
  match split "," dataUrl with
  | [] => failed
  | header :: rest =>
      match split ";" header with
      | [] => failed
      | h0 :: _ =>
          {| mimeType := nth_error (split ":" h0) 1;
             base64Content := nth_error rest 0 |}
      end
  end.

(** [`data:${mediaType};base64,${data}`], the URL [mapToOpenAIMessages]
    builds for an image part. *)
Definition data_url (mediaType data : string) : string :=
  "data:" ++ mediaType ++ ";base64," ++ data.

End DataUrl.

(** ** [writeToServerResponse] *)

Module Server.
Import JS Types.

(** The calls made on the [ServerResponse]. *)
Inductive call : Type :=
| WriteHead (status : Z) (statusText : option string)
            (headers : option (list (string * value)))
| Write (chunk : string)
| End_.

(** The [read] loop: [reads] are the results the successive
    [reader.read()] settle to; when they run out the loop stays
    suspended.  The result is the calls on the response and the error the
    promise of [read()] rejects with, if any. *)
Fixpoint read (reads : list read_result) : list call * option js_error :=
  match reads with
  | [] => ([], None)
  | Chunk value :: rest =>
      let '(calls, e) := read rest in (Write value :: calls, e)
  | Done :: _ => ([End_], None)
  | Failed e :: _ => ([End_], Some e)
  end.

(** [writeToServerResponse({ response, status, statusText, headers,
    stream })] *)
Definition writeToServerResponse (status : option Z)
  (statusText : option string) (headers : option (list (string * value)))
  (reads : list read_result) : list call * option js_error :=
  let '(calls, e) := read reads in
  (WriteHead (match status with Some n => n | None => 200%Z end)
             statusText headers :: calls, e).

End Server.

(** ** What a call of [request] or [generate] goes through *)

Module Calls.
Import JS Types.

(** How a promise settles. *)
Inductive settled (R : Type) : Type :=
| Resolves (r : R)
| Rejects (e : js_error).
Arguments Resolves {R} r.
Arguments Rejects {R} e.

(** What [await fetch(...)] gives: the promise rejects, or a response
    arrives whose body reads as [responseText], unless reading it rejects
    with [unreadable].  [noReader] is what [response.body.getReader()]
    throws, when it does: a [TypeError] for a body that is [null] or not a
    web stream. *)
Inductive fetched : Type :=
| FetchFails (e : js_error)
| Responds (resp : response) (unreadable noReader : option js_error).

(** What a call of a hook does: it returns (a promise that resolves, when
    the hook is [async]), it throws, or it returns a promise that
    rejects. *)
Inductive hook_result : Type :=
| Returns
| Throws (e : js_error)
| RejectsLater (e : js_error).

(** [await hook(...)]: what it throws. *)
Definition awaited (r : hook_result) : option js_error :=
  match r with
  | Returns => None
  | Throws e | RejectsLater e => Some e
  end.

(** [hook(...)] without [await]: the caller sees a throw only; a promise
    that rejects is dropped. *)
Definition not_awaited (r : hook_result) : option js_error :=
  match r with
  | Throws e => Some e
  | Returns | RejectsLater _ => None
  end.

(** The value of a non-streaming [GenerateResult], or the streaming
    result, which is the object the read-loop models start from. *)
Inductive generate_result (Usage : Type) : Type :=
| NonStreaming (response : option value) (usage : option Usage)
               (stopReason : value)
| Streaming.
Arguments NonStreaming {Usage} response usage stopReason.
Arguments Streaming {Usage}.

(** [{ response: null, usage: null, stopReason: 'error' }] *)
Definition error_result {Usage : Type} : generate_result Usage :=
  NonStreaming None None (Str "error").

(** What the caller and the network see of a call. *)
Inductive step (Message Usage : Type) : Type :=
| BeforeCall (request : value)
| Fetch (url : string) (headers : list (string * string)) (body : value)
| Hook (e : effect Message Usage)
| Stop (finalMessage rawChunk : value)
| Finish (finalResponse : value) (usage : Usage)
         (stopReason rawResponse : value).
Arguments BeforeCall {Message Usage} request.
Arguments Fetch {Message Usage} url headers body.
Arguments Hook {Message Usage} e.
Arguments Stop {Message Usage} finalMessage rawChunk.
Arguments Finish {Message Usage} finalResponse usage stopReason rawResponse.

(** The parameters of a call that both providers read.  [onBeforeCall] is
    [None] when the hook is not passed, [Some None] when it returns and
    [Some (Some e)] when it throws [e].  For the hooks that [hooks_of] says
    were passed, [onMessage_does] and [onFinish_does] are what their one
    call during a non-streaming [request] does, and [onError_does n] what
    the call of [onError] does that comes after [n] earlier ones. *)
Record params : Type := {
  modelId : string;
  messages : list Messages.Message;
  systemPrompt : option string;
  stream : option bool;
  providerOptions : option (list (string * value));
  hooks_of : hooks;
  onBeforeCall : option (option js_error);
  onMessage_does : hook_result;
  onFinish_does : hook_result;
  onError_does : nat -> hook_result
}.

(** [stream === true], which is also [!!stream] for an optional boolean. *)
Definition streaming (p : params) : bool :=
  match stream p with Some true => true | _ => false end.

(** The calls of [onError] among the steps of a call. *)
Definition reported {Message Usage : Type} (s : step Message Usage) : bool :=
  match s with
  | Hook (OnError _ _) => true
  | _ => false
  end.

(** [src/index.ts]: [generate(params)] around the promise that
    [provider.request(params)] returned, [onError] having been called [n]
    times by then.  The effects are those of the [catch] clause, where the
    hook is called without [await]: if it throws, [generate] rejects with
    what it threw. *)
Definition generate {Message Usage : Type} (p : params) (n : nat)
  (requested : settled (generate_result Usage))
  : list (effect Message Usage) * settled (generate_result Usage) :=
  match requested with
  | Resolves r => ([], Resolves r)
  | Rejects e =>
      let settle :=
        if streaming p then Rejects e else Resolves error_result in
      if onError (hooks_of p)
      then ([OnError e (RawValue Undefined)],
            match not_awaited (onError_does p n) with
            | Some e' => Rejects e'
            | None => settle
            end)
      else ([ConsoleError e
               "Error in generate function, no onError callback provided:"],
            settle)
  end.

(** A call of [generate] from its beginning: what [request] did, then
    what the [catch] of [generate] adds. *)
Definition generate_with {Message Usage : Type} (p : params)
  (request : list (step Message Usage) * settled (generate_result Usage))
  : list (step Message Usage) * settled (generate_result Usage) :=
  let '(steps, requested) := request in
  let '(effects, r) :=
    generate p (List.length (filter reported steps)) requested in
  ((steps ++ map Hook effects)%list, r).

End Calls.

(** ** Building the provider requests *)

Module OpenAIRequest.
Import JS Types Objects Messages.

Definition text_part (text : string) : value :=
  Obj [("type", Str "text"); ("text", Str text)].

Definition image_part (mediaType : MediaType) (data : string) : value :=
  Obj [("type", Str "image_url");
       ("image_url",
        Obj [("url", Str (DataUrl.data_url (media_type_name mediaType) data))])].

Section Mapping.

(** [JSON.stringify] on the structured content of a tool result. *)
Variable stringify : list ResultPart -> string.

Definition tool_result_message (toolUseId : string) (c : ResultContent)
  : value :=
  Obj [("role", Str "tool");
       ("tool_call_id", Str toolUseId);
       ("content", Str (match c with
                        | ResultString s => s
                        | ResultParts ps => stringify ps
                        end))].

(** [msg.content.forEach(part => ...)] (lines 49-73): [messages] is
    [openAIMessages], [contentParts] the array of the message at hand. *)
Fixpoint forEach_part (r : Role) (parts : list ContentPart)
  (messages contentParts : list value) : list value * list value :=
  match parts with
  | [] => (messages, contentParts)
  | TextPart text :: rest =>
      forEach_part r rest messages (contentParts ++ [text_part text])
  | ImagePart mediaType data :: rest =>
      forEach_part r rest messages (contentParts ++ [image_part mediaType data])
  | ToolResultPart toolUseId c _ :: rest =>
      if is_tool r
      then forEach_part r rest
             (messages ++ [tool_result_message toolUseId c]) contentParts
      else forEach_part r rest messages contentParts
  | ToolCallPart _ _ _ :: rest => forEach_part r rest messages contentParts
  end.

(** One turn of [messages.forEach(msg => ...)] (lines 38-83). *)
Definition map_message (messages : list value) (msg : Message) : list value :=
  match content msg with
  | Plain s =>
      let openAIMsg :=
        [("role", Str (role_name (role msg))); ("content", Str s)] in
      (messages
       ++ [Obj (if (is_tool (role msg) && given (toolCallId msg))%bool
                then set_member "tool_call_id"
                       (optional_string (toolCallId msg)) openAIMsg
                else openAIMsg)])%list
  | Parts parts =>
      let '(messages', contentParts) :=
        forEach_part (role msg) parts messages [] in
      match contentParts with
      | _ :: _ =>
          (messages'
           ++ [Obj [("role", Str (role_name (role msg)));
                    ("content", Arr contentParts)]])%list
      | [] =>
          if is_tool (role msg) then messages'
          else (messages'
                ++ [Obj [("role", Str (role_name (role msg)));
                         ("content", Str EmptyString)]])%list
      end
  end.

(** [mapToOpenAIMessages(messages, systemPrompt)] *)
Definition mapToOpenAIMessages (messages : list Message)
  (systemPrompt : option string) : list value :=
  fold_left map_message messages
    (if given systemPrompt
     then [Obj [("role", Str "system");
                ("content", optional_string systemPrompt)]]
     else []).

End Mapping.

(** *** [OpenAIProvider]: the constructor and [request] (lines 87-225,
    378-388) *)

Record OpenAIProviderOptions : Type := {
  apiKey : string;
  baseUrl : option string;
  organization : option string;
  defaultOpenAIParams : option (list (string * value))
}.

Definition CAPI_BASE_URL : string := "https://api.openai.com/v1".

(** [this.options.baseUrl] after [{ baseUrl: this.CAPI_BASE_URL,
    ...options }]. *)
Definition base_url (o : OpenAIProviderOptions) : string :=
  match baseUrl o with Some u => u | None => CAPI_BASE_URL end.

(** [new OpenAIProvider(options)] *)
Definition construct (o : OpenAIProviderOptions) : res OpenAIProviderOptions :=
  if is_empty (apiKey o)
  then Throw (ApiError "OpenAI API key is required.")
  else Ok o.

Definition step : Type := Calls.step OpenAI.Message OpenAI.Usage.
Definition outcome : Type :=
  Calls.settled (Calls.generate_result OpenAI.Usage).

Section Request.

Variable stringify : list ResultPart -> string.
Variable parse_json : string -> option value.
Variable o : OpenAIProviderOptions.
Variable p : Calls.params.

Let h : hooks := Calls.hooks_of p.

(** Lines 115-125. *)
Definition requestBody : list (string * value) :=
  let literal :=
    [("model", Str (Calls.modelId p));
     ("messages",
      Arr (mapToOpenAIMessages stringify (Calls.messages p)
                               (Calls.systemPrompt p)));
     ("stream", Bool (match Calls.stream p with
                      | Some b => b
                      | None => false
                      end))] in
  let body :=
    spread_optional (spread_optional literal (defaultOpenAIParams o))
                    (Calls.providerOptions p) in
  if Calls.streaming p then set_member "stream" (Bool true) body else body.

(** Lines 139-145. *)
Definition headers : list (string * string) :=
  List.app
    [("Content-Type", "application/json");
     ("Authorization", "Bearer " ++ apiKey o)]
    (if given (organization o)
     then [("OpenAI-Organization",
            match organization o with Some g => g | None => EmptyString end)]
     else []).

Definition apiUrl : string := base_url o ++ "/chat/completions".

(** [if (onError) await onError({ error, rawError })], the hook having
    been called [n] times before: the step, and what the [await] throws. *)
Definition call_onError (n : nat) (e : js_error) (r : raw)
  : list step * option js_error :=
  if onError h
  then ([Calls.Hook (OnError e r)], Calls.awaited (Calls.onError_does p n))
  else ([], None).

(** [if (hook) await hook(...)] for [onMessage] and [onFinish]. *)
Definition call_hook (passed : bool) (s : step) (does : Calls.hook_result)
  : list step * option js_error :=
  if passed then ([s], Calls.awaited does) else ([], None).

(** The [catch] of lines 378-388, entered with [e] after [n] calls of
    [onError] in the [try] block.  What [onError] throws there is what
    [request] rejects with. *)
Definition caught (n : nat) (e : js_error) : list step * outcome :=
  let '(steps, thrown) := call_onError n e (RawError e) in
  (steps,
   match thrown with
   | Some e' => Calls.Rejects e'
   | None =>
       if Calls.streaming p then Calls.Rejects e
       else Calls.Resolves Calls.error_result
   end).

(** Lines 173-177: the message built from the body. *)
Definition message_of (responseData : value) : value :=
  let message := oget (oindex0 (field responseData "choices")) "message" in
  Obj [("role", Str "assistant");
       ("content", or_else (oget message "content") (Str EmptyString));
       ("toolCalls", oget message "tool_calls")].

(** [responseData.choices[0]?.finish_reason] *)
Definition finish_reason_of (responseData : value) : value :=
  oget (oindex0 (field responseData "choices")) "finish_reason".

(** Lines 171-208, [responseData] being parsed. *)
Definition respond (responseData : value) : list step * outcome :=
  match get responseData "choices" with
  | Throw e => caught 0 e
  | Ok choices =>
      if nullish choices then caught 0 TypeError
      else
        let finalMessage := message_of responseData in
        let usage := OpenAI.usage_of_response responseData in
        let finish_reason := finish_reason_of responseData in
        let '(s1, t1) :=
          call_hook (onMessage h) (Calls.Stop finalMessage responseData)
                    (Calls.onMessage_does p) in
        match t1 with
        | Some e => let '(s, r) := caught 0 e in ((s1 ++ s)%list, r)
        | None =>
            let '(s2, t2) :=
              call_hook (onFinish h)
                (Calls.Finish finalMessage usage (or_else finish_reason Null)
                              responseData)
                (Calls.onFinish_does p) in
            match t2 with
            | Some e => let '(s, r) := caught 0 e in ((s1 ++ s2 ++ s)%list, r)
            | None =>
                ((s1 ++ s2)%list,
                 Calls.Resolves
                   (Calls.NonStreaming (Some finalMessage) (Some usage)
                                       finish_reason))
            end
        end
  end.

(** Lines 156-169: the non-OK response of the non-streaming branch. *)
Definition not_ok (resp : response) : list step * outcome :=
  let errorBody := OpenAI.errorBody_of parse_json resp in
  match get errorBody "error" with
  | Throw e => caught 0 e
  | Ok err =>
      let error :=
        ApiError ("OpenAI API Error: " ++ string_of_Z (status resp) ++ " "
                  ++ to_string (or_else (oget err "message")
                                        (field errorBody "message"))) in
      let '(s, thrown) := call_onError 0 error (RawValue errorBody) in
      match thrown with
      | Some e => let '(s', r) := caught 1 e in ((s ++ s')%list, r)
      | None => (s, Calls.Resolves Calls.error_result)
      end
  end.

(** Lines 148-209: the non-streaming branch after [fetch]. *)
Definition non_streaming (f : Calls.fetched) : list step * outcome :=
  match f with
  | Calls.FetchFails e => caught 0 e
  | Calls.Responds _ (Some e) _ => caught 0 e
  | Calls.Responds resp None _ =>
      if ok resp then
        match parse_json (responseText resp) with
        | Some responseData => respond responseData
        | None => caught 0 (SyntaxError (responseText resp))
        end
      else not_ok resp
  end.

(** [await response.json().catch(() => ({ message: response.statusText }))] *)
Definition streaming_errorBody (resp : response) (unreadable : option js_error)
  : value :=
  match unreadable, parse_json (responseText resp) with
  | None, Some body => body
  | _, _ => Obj [("message", Str (statusText resp))]
  end.

(** Lines 212-225, 304 and 376: the streaming branch after [fetch], up to
    the [return] of the streaming result.  On an OK response the reader of
    the body is taken before the result is built. *)
Definition open_stream (f : Calls.fetched) : list step * outcome :=
  match f with
  | Calls.FetchFails e => caught 0 e
  | Calls.Responds resp unreadable noReader =>
      if ok resp then
        match noReader with
        | Some e => caught 0 e
        | None => ([], Calls.Resolves Calls.Streaming)
        end
      else
        let errorBody := streaming_errorBody resp unreadable in
        match get errorBody "error" with
        | Throw e => caught 0 e
        | Ok err =>
            let error :=
              ApiError ("OpenAI API Error (streaming): "
                        ++ string_of_Z (status resp) ++ " "
                        ++ to_string (or_else (oget err "message")
                                              (field errorBody "message"))) in
            let '(s, thrown) := call_onError 0 error (RawValue errorBody) in
            let '(s', r) :=
              caught 1 (match thrown with Some e => e | None => error end) in
            ((s ++ s')%list, r)
        end
  end.

(** [request(params)], given what [fetch] will answer. *)
Definition request (f : Calls.fetched) : list step * outcome :=
  let body := Obj requestBody in
  match Calls.onBeforeCall p with
  | Some (Some e) =>
      let '(s, thrown) := call_onError 0 e (RawError e) in
      ((Calls.BeforeCall body
        :: Calls.Hook (ConsoleError e "Error in onBeforeCall:") :: s)%list,
       Calls.Rejects (match thrown with Some e' => e' | None => e end))
  | before =>
      let '(steps, r) :=
        if Calls.streaming p then open_stream f else non_streaming f in
      ((match before with Some _ => [Calls.BeforeCall body] | None => [] end
        ++ Calls.Fetch apiUrl headers body :: steps)%list, r)
  end.

End Request.

End OpenAIRequest.

Module AnthropicRequest.
Import JS Types Objects Messages.

(** The role sent: a tool message goes out as a user message. *)
Definition sent_role (r : Role) : string :=
  match r with
  | tool => "user"
  | _ => role_name r
  end.

(** An element of a structured tool result (line 72): an image part is
    read through [.text], which it does not have. *)
Definition result_block (c : ResultPart) : value :=
  match c with
  | ResultText text => Obj [("type", Str "text"); ("text", Str text)]
  | ResultImage _ _ => Obj [("type", Str "text"); ("text", Undefined)]
  end.

(** The callback of [msg.content.map] (lines 47-82); [None] is [null]. *)
Definition map_part (part : ContentPart) : option value :=
  match part with
  | TextPart text => Some (Obj [("type", Str "text"); ("text", Str text)])
  | ImagePart mediaType data =>
      Some (Obj [("type", Str "image");
                 ("source",
                  Obj [("type", Str "base64");
                       ("media_type", Str (media_type_name mediaType));
                       ("data", Str data)])])
  | ToolResultPart toolUseId c isError =>
      Some (Obj [("type", Str "tool_result");
                 ("tool_use_id", Str toolUseId);
                 ("content", match c with
                             | ResultString s => Str s
                             | ResultParts ps => Arr (map result_block ps)
                             end);
                 ("is_error", optional_bool isError)])
  | ToolCallPart _ _ _ => None
  end.

(** [.filter(p => p !== null)] *)
Fixpoint filter_non_null (l : list (option value)) : list value :=
  match l with
  | [] => []
  | Some v :: r => v :: filter_non_null r
  | None :: r => filter_non_null r
  end.

(** The callback of [messages.map] (lines 35-86). *)
Definition map_message (msg : Message) : value :=
  Obj [("role", Str (sent_role (role msg)));
       ("content",
        match content msg with
        | Plain s =>
            if is_tool (role msg)
            then Arr [Obj [("type", Str "tool_result");
                           ("tool_use_id", optional_string (toolCallId msg));
                           ("content", Str s)]]
            else Str s
        | Parts parts => Arr (filter_non_null (map map_part parts))
        end)].

(** [mapToAnthropicMessages(messages)] *)
Definition mapToAnthropicMessages (messages : list Message) : list value :=
  map map_message messages.

(** *** [AnthropicProvider]: the constructor and [request] (lines 89-206,
    350-360) *)

Record AnthropicProviderOptions : Type := {
  apiKey : string;
  baseUrl : option string;
  version : option string;
  defaultAnthropicParams : option (list (string * value));
  anthropic_beta : option string
}.

Definition CAPI_BASE_URL : string := "https://api.anthropic.com/v1".
Definition DEFAULT_VERSION : string := "2023-06-01".

Definition base_url (o : AnthropicProviderOptions) : string :=
  match baseUrl o with Some u => u | None => CAPI_BASE_URL end.

Definition version_of (o : AnthropicProviderOptions) : string :=
  match version o with Some v => v | None => DEFAULT_VERSION end.

(** [new AnthropicProvider(options)] *)
Definition construct (o : AnthropicProviderOptions)
  : res AnthropicProviderOptions :=
  if is_empty (apiKey o)
  then Throw (ApiError "Anthropic API key is required.")
  else Ok o.

Definition step : Type := Calls.step Anthropic.Message Anthropic.Usage.
Definition outcome : Type :=
  Calls.settled (Calls.generate_result Anthropic.Usage).

(** The callback of [(responseData.content || []).map] (lines 175-179). *)
Definition map_block (block : value) : res (option value) :=
  match get block "type" with
  | Throw e => Throw e
  | Ok type =>
      if Anthropic.is_str type "text" then
        Ok (Some (Obj [("type", Str "text"); ("text", field block "text")]))
      else if Anthropic.is_str type "tool_use" then
        Ok (Some (Obj [("type", Str "tool_call");
                       ("id", field block "id");
                       ("name", field block "name");
                       ("input", field block "input")]))
      else Ok None
  end.

Fixpoint map_blocks (blocks : list value) : res (list (option value)) :=
  match blocks with
  | [] => Ok []
  | b :: rest =>
      match map_block b with
      | Throw e => Throw e
      | Ok v =>
          match map_blocks rest with
          | Throw e => Throw e
          | Ok vs => Ok (v :: vs)
          end
      end
  end.

Section Request.

Variable parse_json : string -> option value.
Variable o : AnthropicProviderOptions.
Variable p : Calls.params.

Let h : hooks := Calls.hooks_of p.

(** Lines 118-132. *)
Definition requestBody : list (string * value) :=
  let literal :=
    [("model", Str (Calls.modelId p));
     ("messages", Arr (mapToAnthropicMessages (Calls.messages p)));
     ("stream", Bool (match Calls.stream p with
                      | Some b => b
                      | None => false
                      end));
     ("max_tokens", Num 4096)] in
  let body :=
    spread_optional (spread_optional literal (defaultAnthropicParams o))
                    (Calls.providerOptions p) in
  let body1 :=
    if given (Calls.systemPrompt p)
    then set_member "system" (optional_string (Calls.systemPrompt p)) body
    else body in
  if Calls.streaming p then set_member "stream" (Bool true) body1 else body1.

(** Lines 144-151. *)
Definition headers : list (string * string) :=
  List.app
    [("Content-Type", "application/json");
     ("x-api-key", apiKey o);
     ("anthropic-version", version_of o)]
    (if given (anthropic_beta o)
     then [("anthropic-beta",
            match anthropic_beta o with Some b => b | None => EmptyString end)]
     else []).

Definition apiUrl : string := base_url o ++ "/messages".

(** [if (onError) await onError({ error, rawError })], the hook having
    been called [n] times before: the step, and what the [await] throws. *)
Definition call_onError (n : nat) (e : js_error) (r : raw)
  : list step * option js_error :=
  if onError h
  then ([Calls.Hook (OnError e r)], Calls.awaited (Calls.onError_does p n))
  else ([], None).

(** [if (hook) await hook(...)] for [onMessage] and [onFinish]. *)
Definition call_hook (passed : bool) (s : step) (does : Calls.hook_result)
  : list step * option js_error :=
  if passed then ([s], Calls.awaited does) else ([], None).

(** The [catch] of lines 350-360, entered with [e] after [n] calls of
    [onError] in the [try] block.  What [onError] throws there is what
    [request] rejects with. *)
Definition caught (n : nat) (e : js_error) : list step * outcome :=
  let '(steps, thrown) := call_onError n e (RawError e) in
  (steps,
   match thrown with
   | Some e' => Calls.Rejects e'
   | None =>
       if Calls.streaming p then Calls.Rejects e
       else Calls.Resolves Calls.error_result
   end).

(** Line 181: the message built from the mapped blocks. *)
Definition message_of (mapped : list (option value)) : value :=
  Obj [("role", Str "assistant"); ("content", Arr (filter_non_null mapped))].

(** Lines 174-191, [responseData] being parsed. *)
Definition respond (responseData : value) : list step * outcome :=
  match get responseData "content" with
  | Throw e => caught 0 e
  | Ok c =>
      match or_else c (Arr []) with
      | Arr blocks =>
          match map_blocks blocks with
          | Throw e => caught 0 e
          | Ok mapped =>
              let finalMessage := message_of mapped in
              let usage := Anthropic.usage_of_response responseData in
              let stop_reason := field responseData "stop_reason" in
              let '(s1, t1) :=
                call_hook (onMessage h) (Calls.Stop finalMessage responseData)
                          (Calls.onMessage_does p) in
              match t1 with
              | Some e => let '(s, r) := caught 0 e in ((s1 ++ s)%list, r)
              | None =>
                  let '(s2, t2) :=
                    call_hook (onFinish h)
                      (Calls.Finish finalMessage usage
                                    (or_else stop_reason Null) responseData)
                      (Calls.onFinish_does p) in
                  match t2 with
                  | Some e =>
                      let '(s, r) := caught 0 e in ((s1 ++ s2 ++ s)%list, r)
                  | None =>
                      ((s1 ++ s2)%list,
                       Calls.Resolves
                         (Calls.NonStreaming (Some finalMessage) (Some usage)
                                             stop_reason))
                  end
              end
          end
      | _ => caught 0 TypeError
      end
  end.

(** Lines 162-172: the non-OK response of the non-streaming branch. *)
Definition not_ok (resp : response) : list step * outcome :=
  let errorBody := Anthropic.errorBody_of parse_json resp in
  match get errorBody "error" with
  | Throw e => caught 0 e
  | Ok err =>
      let errMsg :=
        or_else (or_else (oget err "message") (field errorBody "message"))
                (Str (statusText resp)) in
      let errType :=
        or_else (or_else (oget err "type") (field errorBody "type"))
                (Str "unknown_error") in
      let error :=
        ApiError ("Anthropic API Error: " ++ string_of_Z (status resp) ++ " "
                  ++ to_string errType ++ ": " ++ to_string errMsg) in
      let '(s, thrown) := call_onError 0 error (RawValue errorBody) in
      match thrown with
      | Some e => let '(s', r) := caught 1 e in ((s ++ s')%list, r)
      | None => (s, Calls.Resolves Calls.error_result)
      end
  end.

(** Lines 154-192: the non-streaming branch after [fetch]. *)
Definition non_streaming (f : Calls.fetched) : list step * outcome :=
  match f with
  | Calls.FetchFails e => caught 0 e
  | Calls.Responds _ (Some e) _ => caught 0 e
  | Calls.Responds resp None _ =>
      if ok resp then
        match parse_json (responseText resp) with
        | Some responseData => respond responseData
        | None => caught 0 (SyntaxError (responseText resp))
        end
      else not_ok resp
  end.

(** [await response.json().catch(() => ({ message: response.statusText }))] *)
Definition streaming_errorBody (resp : response) (unreadable : option js_error)
  : value :=
  match unreadable, parse_json (responseText resp) with
  | None, Some body => body
  | _, _ => Obj [("message", Str (statusText resp))]
  end.

(** Lines 195-206, 218 and 348: the streaming branch after [fetch], up to
    the [return] of the streaming result.  On an OK response the reader of
    the body is taken before the result is built. *)
Definition open_stream (f : Calls.fetched) : list step * outcome :=
  match f with
  | Calls.FetchFails e => caught 0 e
  | Calls.Responds resp unreadable noReader =>
      if ok resp then
        match noReader with
        | Some e => caught 0 e
        | None => ([], Calls.Resolves Calls.Streaming)
        end
      else
        let errorBody := streaming_errorBody resp unreadable in
        match get errorBody "error" with
        | Throw e => caught 0 e
        | Ok err =>
            let error :=
              ApiError ("Anthropic API Error (streaming): "
                        ++ string_of_Z (status resp) ++ " "
                        ++ to_string (or_else (oget err "type")
                                              (field errorBody "type"))
                        ++ ": "
                        ++ to_string (or_else (oget err "message")
                                              (field errorBody "message"))) in
            let '(s, thrown) := call_onError 0 error (RawValue errorBody) in
            let '(s', r) :=
              caught 1 (match thrown with Some e => e | None => error end) in
            ((s ++ s')%list, r)
        end
  end.

(** [request(params)], given what [fetch] will answer. *)
Definition request (f : Calls.fetched) : list step * outcome :=
  let body := Obj requestBody in
  match Calls.onBeforeCall p with
  | Some (Some e) =>
      let '(s, thrown) := call_onError 0 e (RawError e) in
      ((Calls.BeforeCall body
        :: Calls.Hook (ConsoleError e "Error in onBeforeCall:") :: s)%list,
       Calls.Rejects (match thrown with Some e' => e' | None => e end))
  | before =>
      let '(steps, r) :=
        if Calls.streaming p then open_stream f else non_streaming f in
      ((match before with Some _ => [Calls.BeforeCall body] | None => [] end
        ++ Calls.Fetch apiUrl headers body :: steps)%list, r)
  end.

End Request.

End AnthropicRequest.

(** ** Wire text used in the examples *)

Module Wire.
Import JS Types.

Definition all_hooks : hooks :=
  {| onMessage := true; onError := true; onFinish := true |}.

Definition no_hooks : hooks :=
  {| onMessage := false; onError := false; onFinish := false |}.

(** A caller that passes [onError] and [onFinish] but no [onMessage]. *)
Definition without_onMessage : hooks :=
  {| onMessage := false; onError := true; onFinish := true |}.

(** [{"choices":[{"delta":{"content":"<text>"}}]}] *)
Definition text_payload (text : string) : string :=
  "{" ++ q "choices" ++ ":[{" ++ q "delta" ++ ":{" ++ q "content" ++ ":"
  ++ q text ++ "}}]}".

(** An OpenAI frame carrying a text delta, with its blank line. *)
Definition text_frame (text : string) : string :=
  "data: " ++ text_payload text ++ nl ++ nl.

(** An Anthropic [content_block_delta] frame carrying a text delta. *)
Definition text_event (text : string) : string :=
  "event: content_block_delta" ++ nl ++ "data: {" ++ q "type" ++ ":"
  ++ q "content_block_delta" ++ "," ++ q "index" ++ ":0," ++ q "delta"
  ++ ":{" ++ q "type" ++ ":" ++ q "text_delta" ++ "," ++ q "text" ++ ":"
  ++ q text ++ "}}".

(** A frame cut short: its payload is not JSON. *)
Definition broken_payload : string := "{" ++ q "choices" ++ ":[{".

Definition broken_event : string :=
  "event: content_block_delta" ++ nl ++ "data: " ++ broken_payload.

(** [{"choices":[{"delta":{},"finish_reason":"<reason>"}]}] *)
Definition finish_payload (reason : string) : string :=
  "{" ++ q "choices" ++ ":[{" ++ q "delta" ++ ":{}," ++ q "finish_reason"
  ++ ":" ++ q reason ++ "}]}".

Definition finish_frame (reason : string) : string :=
  "data: " ++ finish_payload reason ++ nl ++ nl.





(** The frame [text_frame "Hello"] cut in the middle of its payload. *)
Definition frame_head : string :=
  "data: {" ++ q "choices" ++ ":[{" ++ q "delta" ++ ":{" ++ q "content"
  ++ ":" ++ String dquote "Hel".

Definition frame_tail : string :=
  "lo" ++ String dquote "}}]}" ++ nl ++ nl.






(** A non-OK response whose body is the JSON literal [null]. *)
Definition null_response : response :=
  {| ok := false; status := 500; statusText := "Internal Server Error";
     responseText := "null" |}.

End Wire.

(** ** Predicates used in the statements *)

Module Spec.
Import JS Types.
















End Spec.

(** ** Predicates and examples for the code around the read loops *)

Module Around.
Import JS Types Messages.

(** [c] occurs in [s]. *)
Fixpoint has_char (c : ascii) (s : string) : bool :=
  match s with
  | EmptyString => false
  | String c' r => (Ascii.eqb c c' || has_char c r)%bool
  end.

Definition comma : ascii := ","%char.

(** The role of an outgoing message. *)
Definition out_role (m : value) : value := field m "role".

Definition is_tool_out (m : value) : bool :=
  Anthropic.is_str (out_role m) "tool".

(** The [onError] calls among the steps of a call. *)
Definition is_onError {M U : Type} (s : Calls.step M U) : bool :=
  match s with
  | Calls.Hook (OnError _ _) => true
  | _ => false
  end.

Definition onError_calls {M U : Type} (steps : list (Calls.step M U)) : nat :=
  List.length (filter is_onError steps).

Definition is_fetch {M U : Type} (s : Calls.step M U) : bool :=
  match s with
  | Calls.Fetch _ _ _ => true
  | _ => false
  end.

(** The steps of a successful non-streaming call. *)
Definition is_success_step {M U : Type} (s : Calls.step M U) : bool :=
  match s with
  | Calls.Stop _ _ | Calls.Finish _ _ _ _ => true
  | _ => false
  end.

(** The [onFinish] calls in a trace. *)
Definition is_onFinish {M U : Type} (e : effect M U) : bool :=
  match e with
  | OnFinish _ _ _ => true
  | _ => false
  end.

Definition onFinish_calls {M U : Type} (t : list (effect M U)) : nat :=
  List.length (filter is_onFinish t).

(** The message a tool-result part stands for: its id, content and error
    flag. *)
Definition as_part (r : string * ResultContent * option bool) : ContentPart :=
  let '(toolUseId, c, isError) := r in ToolResultPart toolUseId c isError.

Definition non_tool (m : Message) : bool := negb (is_tool (role m)).

(** The value an optional object gives for a key. *)
Definition opt_lookup (k : string) (o : option (list (string * value)))
  : option value :=
  match o with Some m => lookup k m | None => None end.

(** A non-streaming call that failed: it resolves with the error result,
    [onError] was called once if it was passed, and neither [onMessage] nor
    [onFinish] was. *)
Definition failed_call {M U : Type} (h : hooks)
  (res : list (Calls.step M U) * Calls.settled (Calls.generate_result U))
  : Prop :=
  snd res = Calls.Resolves Calls.error_result
  /\ onError_calls (fst res) = (if onError h then 1 else 0)
  /\ filter is_success_step (fst res) = [].

(** A non-streaming call that succeeded on the parsed body [raw]: it
    resolves with the message [msg], the usage and the stop reason,
    [onError] was not called, and [onMessage] then [onFinish] were called
    once each, when passed, with that message. *)
Definition successful_call {M U : Type} (h : hooks) (raw msg : value)
  (usage : U) (stopReason : value)
  (res : list (Calls.step M U) * Calls.settled (Calls.generate_result U))
  : Prop :=
  snd res
  = Calls.Resolves (Calls.NonStreaming (Some msg) (Some usage) stopReason)
  /\ onError_calls (fst res) = 0
  /\ filter is_success_step (fst res)
     = ((if onMessage h then [Calls.Stop msg raw] else [])
        ++ (if onFinish h
            then [Calls.Finish msg usage (or_else stopReason Null) raw]
            else []))%list.

(** The body an OpenAI non-streaming call can answer from: the response
    is OK, its text is read and parses, and [choices] is there. *)
Definition openai_answer (parse_json : string -> option value)
  (f : Calls.fetched) : option value :=
  match f with
  | Calls.Responds resp None _ =>
      if ok resp then
        match parse_json (responseText resp) with
        | Some responseData =>
            match get responseData "choices" with
            | Ok choices => if nullish choices then None else Some responseData
            | Throw _ => None
            end
        | None => None
        end
      else None
  | _ => None
  end.


(** [onBeforeCall] is absent or returns. *)
Definition before_call_returns (p : Calls.params) : Prop :=
  match Calls.onBeforeCall p with
  | Some (Some _) => False
  | _ => True
  end.

(** Every call of [onError] returns. *)
Definition onError_returns (p : Calls.params) : Prop :=
  forall n, Calls.onError_does p n = Calls.Returns.

(** Every call of [onMessage], [onFinish] and [onError] returns. *)
Definition hooks_return (p : Calls.params) : Prop :=
  Calls.onMessage_does p = Calls.Returns
  /\ Calls.onFinish_does p = Calls.Returns
  /\ onError_returns p.

(** Hooks that return whenever they are called. *)
Definition returning (n : nat) : Calls.hook_result := Calls.Returns.

(** An [onError] hook that returns when first called and throws from then
    on. *)
Definition throwing_later (n : nat) : Calls.hook_result :=
  match n with
  | O => Calls.Returns
  | S _ => Calls.Throws (ApiError "onError failed")
  end.

(** A call with every hook, asking for a stream or not. *)
Definition sample_params (stream : option bool)
  (providerOptions : option (list (string * value))) : Calls.params :=
  {| Calls.modelId := "m";
     Calls.messages :=
       [{| role := user; content := Plain "Hi"; toolCallId := None |}];
     Calls.systemPrompt := Some "Be brief.";
     Calls.stream := stream;
     Calls.providerOptions := providerOptions;
     Calls.hooks_of :=
       {| onMessage := true; onError := true; onFinish := true |};
     Calls.onBeforeCall := Some None;
     Calls.onMessage_does := Calls.Returns;
     Calls.onFinish_does := Calls.Returns;
     Calls.onError_does := returning |}.

Definition openai_options : OpenAIRequest.OpenAIProviderOptions :=
  {| OpenAIRequest.apiKey := "sk";
     OpenAIRequest.baseUrl := None;
     OpenAIRequest.organization := None;
     OpenAIRequest.defaultOpenAIParams :=
       Some [("temperature", Num 1); ("stream", Bool false)] |}.

Definition anthropic_options : AnthropicRequest.AnthropicProviderOptions :=
  {| AnthropicRequest.apiKey := "sk";
     AnthropicRequest.baseUrl := None;
     AnthropicRequest.version := None;
     AnthropicRequest.defaultAnthropicParams :=
       Some [("max_tokens", Num 100); ("system", Str "Default.")];
     AnthropicRequest.anthropic_beta := None |}.


(** A 200 response with one assistant message. *)
Definition completion : response :=
  {| ok := true; status := 200; statusText := "OK";
     responseText :=
       "{" ++ q "choices" ++ ":[{" ++ q "message" ++ ":{" ++ q "content"
       ++ ":" ++ q "Hello" ++ "}," ++ q "finish_reason" ++ ":" ++ q "stop"
       ++ "}]," ++ q "usage" ++ ":{" ++ q "prompt_tokens" ++ ":1,"
       ++ q "completion_tokens" ++ ":2," ++ q "total_tokens" ++ ":3}}" |}.


(** A 200 response whose body is not JSON. *)
Definition garbled : response :=
  {| ok := true; status := 200; statusText := "OK";
     responseText := "<html>" |}.

(** A call whose [onBeforeCall] hook throws, with an [onError] hook that
    does what [does] says. *)
Definition refusing_params (stream : option bool)
  (does : nat -> Calls.hook_result) : Calls.params :=
  {| Calls.modelId := "m";
     Calls.messages := [];
     Calls.systemPrompt := None;
     Calls.stream := stream;
     Calls.providerOptions := None;
     Calls.hooks_of :=
       {| onMessage := true; onError := true; onFinish := true |};
     Calls.onBeforeCall := Some (Some (ApiError "not now"));
     Calls.onMessage_does := Calls.Returns;
     Calls.onFinish_does := Calls.Returns;
     Calls.onError_does := does |}.

(** Whatever state a statement of the OpenAI [try] body starts from, the
    state it leaves is related to it by [R]. *)
Definition openai_keeps (R : OpenAI.state -> OpenAI.state -> Prop)
  (s : OpenAI.stmt) : Prop :=
  forall st, R st (fst (s st)).


(** The message of an OpenAI stream that aggregated nothing. *)
Definition empty_message : OpenAI.Message :=
  {| OpenAI.content := EmptyString; OpenAI.toolCalls := None |}.

(** The Anthropic [textStream] accepts chunks: it is readable and [close]
    has not been called. *)
Definition stream_open (st : Anthropic.state) : Prop :=
  Streams.sstate (Anthropic.textStream st) = Streams.Readable
  /\ Streams.closeRequested (Anthropic.textStream st) = false.

(** The Anthropic [textStream] has been errored, which empties its queue. *)
Definition stream_errored (st : Anthropic.state) : Prop :=
  (exists e, Streams.sstate (Anthropic.textStream st) = Streams.Errored e)
  /\ Streams.queue (Anthropic.textStream st) = [].

(** A statement of the loop body that leaves an open stream open, unless
    it completes by [return], which it does with the stream errored. *)
Definition anthropic_errors_on_return (s : Anthropic.stmt) : Prop :=
  forall st,
    stream_open st ->
    match snd (s st) with
    | Anthropic.Return => stream_errored (fst (s st))
    | _ => stream_open (fst (s st))
    end.

(** [fetch] answered with an OK response whose body gives a reader. *)
Definition answered_ok (f : Calls.fetched) : bool :=
  match f with
  | Calls.Responds resp _ None => ok resp
  | _ => false
  end.

(** How the set-up of a streaming call ends: with the streaming result
    and no [onError] call when the response is OK, and with a rejection,
    reported to [onError], when it is not. *)
Definition stream_set_up {M U : Type} (h : hooks) (f : Calls.fetched)
  (res : list (Calls.step M U) * Calls.settled (Calls.generate_result U))
  : Prop :=
  if answered_ok f
  then snd res = Calls.Resolves Calls.Streaming
       /\ onError_calls (fst res) = 0
  else (exists e, snd res = Calls.Rejects e)
       /\ (onError h = true -> 1 <= onError_calls (fst res)).

(** [JSON.stringify] is not called in the examples. *)
Definition no_stringify (ps : list ResultPart) : string := EmptyString.

End Around.

(** * Properties *)

Import JS Types Wire Spec.

(** ** Strings and framing *)

Section StringFacts.

Lemma startsWith_app (p s : string) : startsWith (p ++ s) p = true.
Proof.
  unfold startsWith.
  induction p as [|c p IH]; simpl.
  - now destruct s.
  - destruct (ascii_dec c c) as [_|ne]; [exact IH | now elim ne].
Qed.

Lemma substring_from_app (p s : string) :
  substring_from (String.length p) (p ++ s) = s.
Proof. induction p as [|c p IH]; simpl; [now destruct s | exact IH]. Qed.

Lemma append_empty_r (s : string) : s ++ EmptyString = s.
Proof. induction s as [|c s IH]; simpl; [reflexivity | now rewrite IH]. Qed.

Lemma append_assoc (a b c : string) : (a ++ b) ++ c = a ++ (b ++ c).
Proof. induction a as [|x a IH]; simpl; [reflexivity | now rewrite IH]. Qed.

Lemma prefix_nl (c : ascii) (s : string) :
  String.prefix nl (String c s) = Ascii.eqb (ascii_of_nat 10) c.
Proof.
  unfold nl. cbn [String.prefix].
  destruct (ascii_dec (ascii_of_nat 10) c) as [e|ne];
    destruct (Ascii.eqb_spec (ascii_of_nat 10) c) as [e'|ne'];
    try congruence.
  now destruct s.
Qed.

(** Splitting at line feeds distributes over a cut made at a line feed. *)
Lemma split_go_nl_app (a b cur : string) :
  split_go nl 0 cur (a ++ nl ++ b)
  = (split_go nl 0 cur a ++ split_go nl 0 EmptyString b)%list.
Proof.
  revert cur. induction a as [|c a IH]; intros cur.
  - change (EmptyString ++ nl ++ b) with (String (ascii_of_nat 10) b).
    cbn [split_go]. rewrite prefix_nl, Ascii.eqb_refl. reflexivity.
  - change (String c a ++ nl ++ b) with (String c (a ++ nl ++ b)).
    cbn [split_go]. rewrite !prefix_nl.
    destruct (Ascii.eqb (ascii_of_nat 10) c).
    + cbn [String.length nl Nat.sub]. rewrite IH. reflexivity.
    + apply IH.
Qed.

Lemma split_nl_app (a b : string) :
  split nl (a ++ nl ++ b) = (split nl a ++ split nl b)%list.
Proof. apply split_go_nl_app. Qed.

End StringFacts.

(** ** A frame that is not JSON *)

Section FrameErrors.

Variable parse_json : string -> option value.
Variable h : hooks.

Lemma openai_process_line_bad_json (payload : string) (st : OpenAI.state) :
  payload <> "[DONE]" ->
  parse_json payload = None ->
  OpenAI.process_line parse_json h ("data: " ++ payload) st
  = (OpenAI.on_catch h (SyntaxError payload) payload st, OpenAI.Continue).
Proof.
  intros Hdone Hparse. unfold OpenAI.process_line.
  rewrite startsWith_app.
  change 6 with (String.length "data: "). rewrite substring_from_app.
  destruct (String.eqb_spec payload "[DONE]") as [e|_]; [contradiction|].
  now rewrite Hparse.
Qed.

Lemma openai_live_line_bad_json (payload : string) (out : Streams.stream) :
  payload <> "[DONE]" ->
  parse_json payload = None ->
  OpenAI.live_line parse_json ("data: " ++ payload) out
  = (out, OpenAI.LiveContinue).
Proof.
  intros Hdone Hparse. unfold OpenAI.live_line.
  rewrite startsWith_app.
  change 6 with (String.length "data: "). rewrite substring_from_app.
  destruct (String.eqb_spec payload "[DONE]") as [e|_]; [contradiction|].
  now rewrite Hparse.
Qed.

Lemma openai_on_catch_aggregate e dataStr st :
  OpenAI.aggregate (OpenAI.on_catch h e dataStr st) = OpenAI.aggregate st.
Proof. unfold OpenAI.on_catch. now destruct (onError h). Qed.

Lemma anthropic_on_catch_aggregate e dataStr st :
  Anthropic.aggregate (Anthropic.on_catch h e dataStr st)
  = Anthropic.aggregate st.
Proof.
  unfold Anthropic.on_catch, Anthropic.call_onError. now destruct (onError h).
Qed.

Lemma anthropic_process_event_bad_json eventLine name dataStr st :
  Anthropic.scan_lines (split nl eventLine) None EmptyString
  = (Some name, dataStr) ->
  name <> EmptyString ->
  dataStr <> EmptyString ->
  parse_json dataStr = None ->
  Anthropic.process_event parse_json h eventLine st
  = (Anthropic.on_catch h (SyntaxError dataStr) dataStr st, Anthropic.Normal).
Proof.
  intros Hscan Hname Hdata Hparse. unfold Anthropic.process_event.
  rewrite Hscan.
  destruct name; [contradiction|]. destruct dataStr; [contradiction|].
  cbn [is_empty orb]. now rewrite Hparse.
Qed.

End FrameErrors.

(** Inside a chunk a frame whose payload is not JSON is skipped.  In both
    providers the [catch] around [JSON.parse] writes to the console and
    calls [onError] (when it was passed) with the payload text, the
    variables the accessors read keep their values, and the loop over the
    frames of the chunk goes on with the frames that follow; in the OpenAI
    provider the pass that feeds [textStream] skips the line as well. *)
Lemma bad_frame_is_skipped :
  forall (parse_json : string -> option value) (h : hooks),
    (forall payload rest st out,
        payload <> "[DONE]" ->
        parse_json payload = None ->
        let line := "data: " ++ payload in
        let st' := OpenAI.on_catch h (SyntaxError payload) payload st in
        OpenAI.process_lines parse_json h (line :: rest) st
        = OpenAI.process_lines parse_json h rest st'
        /\ OpenAI.live_lines parse_json (line :: rest) out
           = OpenAI.live_lines parse_json rest out
        /\ OpenAI.aggregate st' = OpenAI.aggregate st
        /\ OpenAI.trace st'
           = (OpenAI.trace st
              ++ ConsoleError (SyntaxError payload) payload
              :: (if onError h
                  then [OnError (SyntaxError payload) (RawText payload)]
                  else []))%list)
    /\
    (forall eventLine name dataStr rest st,
        Anthropic.scan_lines (split nl eventLine) None EmptyString
        = (Some name, dataStr) ->
        name <> EmptyString ->
        dataStr <> EmptyString ->
        parse_json dataStr = None ->
        let st' := Anthropic.on_catch h (SyntaxError dataStr) dataStr st in
        Anthropic.process_events parse_json h (eventLine :: rest) st
        = Anthropic.process_events parse_json h rest st'
        /\ Anthropic.aggregate st' = Anthropic.aggregate st
        /\ Anthropic.textStream st' = Anthropic.textStream st
        /\ Anthropic.trace st'
           = (Anthropic.trace st
              ++ ConsoleError (SyntaxError dataStr) dataStr
              :: (if onError h
                  then [OnError (SyntaxError dataStr) (RawText dataStr)]
                  else []))%list).
Proof.
  intros parse_json h. split.
  - intros payload rest st out Hdone Hparse line st'.
    repeat split.
    + cbn [OpenAI.process_lines]. subst line.
      now rewrite openai_process_line_bad_json.
    + cbn [OpenAI.live_lines]. subst line.
      now rewrite openai_live_line_bad_json.
    + apply openai_on_catch_aggregate.
    + subst st'. unfold OpenAI.on_catch.
      destruct (onError h); cbn; [|reflexivity].
      now rewrite <- app_assoc.
  - intros eventLine name dataStr rest st Hscan Hname Hdata Hparse st'.
    repeat split.
    + cbn [Anthropic.process_events]. unfold Anthropic.seq.
      now rewrite (anthropic_process_event_bad_json _ _ _ _ _ _ Hscan).
    + apply anthropic_on_catch_aggregate.
    + subst st'. unfold Anthropic.on_catch, Anthropic.call_onError.
      now destruct (onError h).
    + subst st'. unfold Anthropic.on_catch, Anthropic.call_onError.
      destruct (onError h); cbn; [|reflexivity].
      now rewrite <- app_assoc.
Qed.

(** C8 at an Anthropic body that delivers a frame cut short in its first
    chunk and a text delta in its second.  The [catch] around [JSON.parse]
    reports the frame and goes on, as the claim says, but the chunk ends at
    line 303, which reads [eventName] out of its scope: the
    [ReferenceError] errors [textStream] and ends the read loop, so the
    next frame is never decoded and its text is lost.  The OpenAI provider
    decodes the same two chunks as the claim says. *)
Lemma C8_next_frame_is_lost_after_a_bad_frame :
  let w := Anthropic.exec JSON_parse all_hooks
             [Read (Chunk (broken_event ++ nl ++ nl));
              Read (Chunk (text_event "Hi" ++ nl ++ nl)); Read Done]
             Anthropic.request_returned in
  let w' := OpenAI.exec JSON_parse all_hooks
              [Read (Chunk ("data: " ++ broken_payload ++ nl ++ nl));
               Read (Chunk (text_frame "Hi")); Read Done]
              OpenAI.request_returned in
  Anthropic.aggregatedTextContent (Anthropic.vars (Anthropic.run w))
  = EmptyString
  /\ Streams.sstate (Anthropic.textStream (Anthropic.vars (Anthropic.run w)))
     = Streams.Errored (ReferenceError "eventName")
  /\ Streams.yielded (Anthropic.textStream (Anthropic.vars (Anthropic.run w)))
     = []
  /\ Anthropic.trace (Anthropic.vars (Anthropic.run w))
     = [ConsoleError (SyntaxError broken_payload) broken_payload;
        OnError (SyntaxError broken_payload) (RawText broken_payload);
        OnError (ReferenceError "eventName")
                (RawError (ReferenceError "eventName"));
        OnFinish {| Anthropic.content := [Anthropic.TextPart EmptyString] |}
                 {| Anthropic.inputTokens := Num 0;
                    Anthropic.outputTokens := Num 0;
                    Anthropic.totalTokens := Some (Num 0) |}
                 Null]
  /\ OpenAI.aggregatedContent (OpenAI.agg (OpenAI.run w')) = "Hi"
  /\ Streams.yielded (OpenAI.out (OpenAI.run w')) = [Str "Hi"].
Proof. vm_compute. repeat split. Qed.

(** ** The non-streaming branch on a non-OK response *)

(** C10 at a non-OK response whose body is the JSON literal [null].  The
    branch means to call [onError] with the parsed body as [rawError]
    (lines 165-167; line 170 in [anthropic.ts]), but the error message is
    built first (line 164; lines 167-168), from [errorBody.error?.message]:
    reading [.error] of [null] throws, the call of the branch is never
    reached, and the outer [catch] calls [onError] with the [TypeError] as
    [rawError] instead. *)
Lemma C10_null_body_is_not_passed_to_onError :
  OpenAI.errorBody_of JSON_parse null_response = Null
  /\ OpenAI.request_not_ok JSON_parse all_hooks null_response
     = ([OnError TypeError (RawError TypeError)], OpenAI.error_result)
  /\ Anthropic.errorBody_of JSON_parse null_response = Null
  /\ Anthropic.request_not_ok JSON_parse all_hooks null_response
     = ([OnError TypeError (RawError TypeError)], Anthropic.error_result)
  /\ RawError TypeError <> RawValue Null.
Proof. repeat split; try (vm_compute; reflexivity). discriminate. Qed.

(** Where the body is not [null] the branch does what it means to: it
    resolves with [{response: null, usage: null, stopReason: 'error'}]
    after one [onError] call (none without the hook) whose [rawError] is the
    parsed body, or the object [{message, details}] built from the status
    text when the body is not JSON.  The hook is taken to return here; what
    a throwing hook makes of the call is in the part on [request] and
    [generate] below. *)
Lemma not_ok_with_a_body_resolves_to_error_result :
  forall (parse_json : string -> option value) (h : hooks) (resp : response),
    (let body := OpenAI.errorBody_of parse_json resp in
     nullish body = false ->
     snd (OpenAI.request_not_ok parse_json h resp) = OpenAI.error_result
     /\ (forall b, parse_json (responseText resp) = Some b -> body = b)
     /\ (parse_json (responseText resp) = None -> body = fallback_body resp)
     /\ exists error,
         fst (OpenAI.request_not_ok parse_json h resp)
         = if onError h then [OnError error (RawValue body)] else [])
    /\
    (let body := Anthropic.errorBody_of parse_json resp in
     nullish body = false ->
     snd (Anthropic.request_not_ok parse_json h resp) = Anthropic.error_result
     /\ (forall b, parse_json (responseText resp) = Some b -> body = b)
     /\ (parse_json (responseText resp) = None -> body = fallback_body resp)
     /\ exists error,
         fst (Anthropic.request_not_ok parse_json h resp)
         = if onError h then [OnError error (RawValue body)] else []).
Proof.
  intros parse_json h resp. split.
  - cbv zeta. intros Hnn. unfold OpenAI.request_not_ok, get. rewrite Hnn.
    split; [reflexivity|]. split; [|split].
    + intros b Hp. unfold OpenAI.errorBody_of. now rewrite Hp.
    + intros Hp. unfold OpenAI.errorBody_of. now rewrite Hp.
    + eexists. cbn [fst]. reflexivity.
  - cbv zeta. intros Hnn. unfold Anthropic.request_not_ok, get. rewrite Hnn.
    split; [reflexivity|]. split; [|split].
    + intros b Hp. unfold Anthropic.errorBody_of. now rewrite Hp.
    + intros Hp. unfold Anthropic.errorBody_of. now rewrite Hp.
    + eexists. cbn [fst]. reflexivity.
Qed.

(** ** Stop reasons *)

Lemma get_ok_not_nullish (v w : value) (k : string) :
  get v k = Ok w -> nullish v = false.
Proof. unfold get. now destruct (nullish v). Qed.

Lemma get_not_nullish (v : value) (k : string) :
  nullish v = false -> get v k = Ok (field v k).
Proof. unfold get. now intros ->. Qed.



(** ** Token totals *)

Section AnthropicTotals.

Variable parse_json : string -> option value.
Variable h : hooks.











End AnthropicTotals.




(** ** The accessors *)

(** C1, as stated, on accessors called as soon as [request] has returned:
    each resolves at once, with the empty aggregate, although the stream
    later delivers text and a stop reason. *)
Lemma C1_counterexample :
  let w := OpenAI.exec JSON_parse all_hooks
             [Call FinalResponse; Call UsageOf; Call StopReason;
              Read (Chunk (text_frame "Hi" ++ finish_frame "stop"));
              Read Done]
             OpenAI.request_returned in
  OpenAI.answers w
  = [OpenAI.AMessage {| OpenAI.content := EmptyString;
                        OpenAI.toolCalls := None |};
     OpenAI.AUsage {| OpenAI.inputTokens := Num 0;
                      OpenAI.outputTokens := Num 0;
                      OpenAI.totalTokens := Num 0 |};
     OpenAI.AStopReason Null]
  /\ OpenAI.finished (OpenAI.run w) = true
  /\ OpenAI.finalResponse (OpenAI.agg (OpenAI.run w))
     = {| OpenAI.content := "Hi"; OpenAI.toolCalls := None |}
  /\ OpenAI.stopReason (OpenAI.agg (OpenAI.run w)) = Str "stop"
  /\ let w' := Anthropic.exec JSON_parse all_hooks
                 [Call FinalResponse;
                  Read (Chunk (text_event "Hi" ++ nl ++ nl))]
                 Anthropic.request_returned in
     Anthropic.answers w'
     = [Anthropic.AMessage {| Anthropic.content := [] |}]
     /\ Anthropic.aggregatedTextContent (Anthropic.vars (Anthropic.run w'))
        = "Hi".
Proof. vm_compute. repeat split. Qed.

Section Accessors.

Variable parse_json : string -> option value.
Variable h : hooks.

Lemma openai_finished_stable evs w :
  OpenAI.finished (OpenAI.run w) = true ->
  OpenAI.finished (OpenAI.run (OpenAI.exec parse_json h evs w)) = true
  /\ OpenAI.agg (OpenAI.run (OpenAI.exec parse_json h evs w))
     = OpenAI.agg (OpenAI.run w).
Proof.
  revert w. induction evs as [|ev evs IH]; intros w Hw; [now split|].
  cbn [OpenAI.exec fold_left].
  assert (Hs : OpenAI.finished (OpenAI.run (OpenAI.step parse_json h w ev))
               = true
               /\ OpenAI.agg (OpenAI.run (OpenAI.step parse_json h w ev))
                  = OpenAI.agg (OpenAI.run w)).
  { destruct ev as [rr| |a]; cbn; try (now split).
    unfold OpenAI.on_read. now rewrite Hw. }
  destruct Hs as [Hf Ha]. destruct (IH _ Hf) as [Hf' Ha'].
  split; [exact Hf' | now rewrite <- Ha].
Qed.

Lemma anthropic_resolve_aggregate a st :
  Anthropic.aggregate (fst (Anthropic.resolve a st)) = Anthropic.aggregate st.
Proof. now destruct a. Qed.

Lemma anthropic_resolve_by_aggregate a st st' :
  Anthropic.aggregate st = Anthropic.aggregate st' ->
  snd (Anthropic.resolve a st) = snd (Anthropic.resolve a st').
Proof.
  unfold Anthropic.aggregate. intros [= Ht Hu Hs].
  destruct a; cbn; unfold Anthropic.usage, Anthropic.stopReason;
    now rewrite ?Ht, ?Hu, ?Hs.
Qed.

Lemma anthropic_finished_stable evs w :
  Anthropic.finished (Anthropic.run w) = true ->
  Anthropic.finished (Anthropic.run (Anthropic.exec parse_json h evs w)) = true
  /\ Anthropic.aggregate
       (Anthropic.vars (Anthropic.run (Anthropic.exec parse_json h evs w)))
     = Anthropic.aggregate (Anthropic.vars (Anthropic.run w)).
Proof.
  revert w. induction evs as [|ev evs IH]; intros w Hw; [now split|].
  cbn [Anthropic.exec fold_left].
  assert (Hs : Anthropic.finished
                 (Anthropic.run (Anthropic.step parse_json h w ev)) = true
               /\ Anthropic.aggregate
                    (Anthropic.vars
                       (Anthropic.run (Anthropic.step parse_json h w ev)))
                  = Anthropic.aggregate (Anthropic.vars (Anthropic.run w))).
  { destruct ev as [rr| |a]; cbn [Anthropic.step].
    - cbn. unfold Anthropic.on_read. now rewrite Hw.
    - now split.
    - pose proof (anthropic_resolve_aggregate a
                    (Anthropic.vars (Anthropic.run w))) as Hr.
      destruct (Anthropic.resolve a (Anthropic.vars (Anthropic.run w)))
        as [st' ans].
      now split. }
  destruct Hs as [Hf Ha]. destruct (IH _ Hf) as [Hf' Ha'].
  split; [exact Hf' | now rewrite <- Ha].
Qed.

End Accessors.

(** C1, amended.  Each of the three accessors is an [async] function that
    resolves as soon as it is called, with the aggregate as it stands at
    that moment; it does not wait for the stream.  Called after the stream
    has drained it resolves with the final aggregate, whatever happens
    afterwards. *)
Theorem C1_accessors_answer_at_once :
  forall (parse_json : string -> option value) (h : hooks),
    (forall evs a w,
        OpenAI.answers (OpenAI.exec parse_json h (evs ++ [Call a]) w)
        = (OpenAI.answers (OpenAI.exec parse_json h evs w)
           ++ [OpenAI.resolve a
                 (OpenAI.agg (OpenAI.run (OpenAI.exec parse_json h evs w)))])%list)
    /\
    (forall evs a w,
        OpenAI.finished (OpenAI.run w) = true ->
        OpenAI.resolve a
          (OpenAI.agg (OpenAI.run (OpenAI.exec parse_json h evs w)))
        = OpenAI.resolve a (OpenAI.agg (OpenAI.run w)))
    /\
    (forall evs a w,
        Anthropic.answers (Anthropic.exec parse_json h (evs ++ [Call a]) w)
        = (Anthropic.answers (Anthropic.exec parse_json h evs w)
           ++ [snd (Anthropic.resolve a
                      (Anthropic.vars
                         (Anthropic.run (Anthropic.exec parse_json h evs w))))])%list)
    /\
    (forall evs a w,
        Anthropic.finished (Anthropic.run w) = true ->
        snd (Anthropic.resolve a
               (Anthropic.vars
                  (Anthropic.run (Anthropic.exec parse_json h evs w))))
        = snd (Anthropic.resolve a (Anthropic.vars (Anthropic.run w)))).
Proof.
  intros parse_json h. split; [|split; [|split]].
  - intros evs a w. unfold OpenAI.exec. rewrite fold_left_app. reflexivity.
  - intros evs a w Hw.
    now destruct (openai_finished_stable parse_json h evs w Hw) as [_ ->].
  - intros evs a w. unfold Anthropic.exec. rewrite fold_left_app.
    cbn [fold_left Anthropic.step].
    now destruct (Anthropic.resolve a _).
  - intros evs a w Hw. apply anthropic_resolve_by_aggregate.
    now destruct (anthropic_finished_stable parse_json h evs w Hw).
Qed.

(** C1 on accessors called after the stream has drained. *)
Lemma C1_accessors_answer_at_once_witness :
  let w := OpenAI.exec JSON_parse all_hooks
             [Read (Chunk (text_frame "Hi")); Read Done]
             OpenAI.request_returned in
  OpenAI.resolve FinalResponse
    (OpenAI.agg (OpenAI.run
       (OpenAI.exec JSON_parse all_hooks
                    [Pull; Read (Chunk (text_frame "more")); Pull] w)))
  = OpenAI.resolve FinalResponse (OpenAI.agg (OpenAI.run w))
  /\
  let w' := Anthropic.exec JSON_parse all_hooks
              [Read (Chunk (text_event "Hi" ++ nl ++ nl))]
              Anthropic.request_returned in
  snd (Anthropic.resolve FinalResponse
         (Anthropic.vars (Anthropic.run
            (Anthropic.exec JSON_parse all_hooks
                            [Call FinalResponse; Read Done] w'))))
  = snd (Anthropic.resolve FinalResponse (Anthropic.vars (Anthropic.run w'))).
Proof.
  split.
  - refine (proj1 (proj2 (C1_accessors_answer_at_once JSON_parse all_hooks))
              _ _ _ _).
    vm_compute. reflexivity.
  - refine (proj2 (proj2 (proj2
              (C1_accessors_answer_at_once JSON_parse all_hooks))) _ _ _ _).
    vm_compute. reflexivity.
Defined.

(** ** A stream that fails midway *)


Section Failures.

Variable parse_json : string -> option value.
Variable h : hooks.

Lemma openai_finally_aggregate r :
  OpenAI.aggregate (OpenAI.agg (OpenAI.finally h r))
  = OpenAI.aggregate (OpenAI.agg r).
Proof. unfold OpenAI.finally. cbn. now destruct (onFinish h). Qed.

Lemma openai_on_fatal_aggregate e r :
  OpenAI.aggregate (OpenAI.agg (OpenAI.on_fatal h e r))
  = OpenAI.aggregate (OpenAI.agg r).
Proof. unfold OpenAI.on_fatal. cbn. now destruct (onError h). Qed.






End Failures.



(** ** Chunk boundaries *)

(** C3, as stated, on a frame cut in two chunks: the first part is not
    JSON and is reported through [onError], the second part does not start
    with [data: ] and is skipped, so the text delta is lost both to the
    aggregate and to [textStream]. *)
Lemma C3_counterexample :
  frame_head ++ frame_tail = text_frame "Hello"
  /\
  let whole := OpenAI.exec JSON_parse all_hooks
                 [Read (Chunk (text_frame "Hello")); Read Done]
                 OpenAI.request_returned in
  let cut := OpenAI.exec JSON_parse all_hooks
               [Read (Chunk frame_head); Read (Chunk frame_tail); Read Done]
               OpenAI.request_returned in
  OpenAI.aggregatedContent (OpenAI.agg (OpenAI.run whole)) = "Hello"
  /\ Streams.yielded (OpenAI.out (OpenAI.run whole)) = [Str "Hello"]
  /\ OpenAI.aggregatedContent (OpenAI.agg (OpenAI.run cut)) = EmptyString
  /\ Streams.yielded (OpenAI.out (OpenAI.run cut)) = []
  /\ exists e raw rest,
      OpenAI.trace (OpenAI.agg (OpenAI.run cut))
      = ConsoleError e raw :: OnError e (RawText raw) :: rest.
Proof.
  vm_compute. repeat split. do 3 eexists. reflexivity.
Qed.

Section ChunkBoundaries.

Variable parse_json : string -> option value.
Variable h : hooks.

Lemma lines_of_app (a b : string) :
  OpenAI.lines_of (a ++ nl ++ b)
  = (OpenAI.lines_of a ++ OpenAI.lines_of b)%list.
Proof. unfold OpenAI.lines_of. now rewrite split_nl_app, filter_app. Qed.

Lemma lines_of_nl (a : string) :
  OpenAI.lines_of (a ++ nl) = OpenAI.lines_of a.
Proof.
  rewrite <- (append_empty_r nl), lines_of_app. cbn. apply app_nil_r.
Qed.

Lemma process_line_flow line st :
  snd (OpenAI.process_line parse_json h line st)
  = if OpenAI.is_done line then OpenAI.Return else OpenAI.Continue.
Proof.
  unfold OpenAI.process_line, OpenAI.is_done.
  destruct (startsWith line "data: "); cbn [andb]; [|reflexivity].
  destruct (String.eqb (substring_from 6 line) "[DONE]"); [reflexivity|].
  destruct (match parse_json (substring_from 6 line) with
            | Some c => OpenAI.on_chunk_data h c st
            | None => (st, Some (SyntaxError (substring_from 6 line)))
            end) as [st' [e|]]; reflexivity.
Qed.

Lemma process_lines_app l1 l2 st :
  OpenAI.process_lines parse_json h (l1 ++ l2) st
  = if existsb OpenAI.is_done l1
    then OpenAI.process_lines parse_json h l1 st
    else OpenAI.process_lines parse_json h l2
           (OpenAI.process_lines parse_json h l1 st).
Proof.
  revert st. induction l1 as [|line l1 IH]; intros st; [reflexivity|].
  cbn [app OpenAI.process_lines existsb].
  pose proof (process_line_flow line st) as Hf.
  destruct (OpenAI.process_line parse_json h line st) as [st' fl].
  cbn [snd] in Hf. subst fl.
  destruct (OpenAI.is_done line); cbn [orb]; [reflexivity | apply IH].
Qed.

Lemma live_line_flow line out :
  OpenAI.is_done line = false ->
  snd (OpenAI.live_line parse_json line out) = OpenAI.LiveContinue.
Proof.
  unfold OpenAI.live_line, OpenAI.is_done.
  destruct (startsWith line "data: "); cbn [andb]; [|reflexivity].
  intros ->.
  repeat match goal with
         | |- context [match ?x with _ => _ end] => destruct x
         end; reflexivity.
Qed.

Lemma live_line_done line out :
  OpenAI.is_done line = true ->
  snd (OpenAI.live_line parse_json line out) <> OpenAI.LiveContinue.
Proof.
  unfold OpenAI.live_line, OpenAI.is_done.
  destruct (startsWith line "data: "); cbn [andb]; [|discriminate].
  intros ->. now destruct (Streams.close out).
Qed.

Lemma live_lines_app_done l1 l2 out :
  existsb OpenAI.is_done l1 = true ->
  OpenAI.live_lines parse_json (l1 ++ l2) out
  = OpenAI.live_lines parse_json l1 out
  /\ snd (OpenAI.live_lines parse_json l1 out) <> OpenAI.LiveContinue.
Proof.
  revert out. induction l1 as [|line l1 IH]; intros out; [discriminate|].
  cbn [app OpenAI.live_lines existsb].
  destruct (OpenAI.is_done line) eqn:Hd; cbn [orb].
  - intros _. pose proof (live_line_done line out Hd) as Hf.
    destruct (OpenAI.live_line parse_json line out) as [out' fl].
    cbn [snd] in Hf. destruct fl; [contradiction| |]; split;
      try reflexivity; discriminate.
  - intros Hex. pose proof (live_line_flow line out Hd) as Hf.
    destruct (OpenAI.live_line parse_json line out) as [out' fl].
    cbn [snd] in Hf. subst fl. now apply IH.
Qed.

Lemma live_lines_app_open l1 l2 out :
  existsb OpenAI.is_done l1 = false ->
  OpenAI.live_lines parse_json (l1 ++ l2) out
  = OpenAI.live_lines parse_json l2
      (fst (OpenAI.live_lines parse_json l1 out))
  /\ snd (OpenAI.live_lines parse_json l1 out) = OpenAI.LiveContinue.
Proof.
  revert out. induction l1 as [|line l1 IH]; intros out; [now split|].
  cbn [app OpenAI.live_lines existsb].
  destruct (OpenAI.is_done line) eqn:Hd; cbn [orb]; [discriminate|].
  intros Hex. pose proof (live_line_flow line out Hd) as Hf.
  destruct (OpenAI.live_line parse_json line out) as [out' fl].
  cbn [snd] in Hf. subst fl. now apply IH.
Qed.

Lemma on_read_cut_at_line_end c1 c2 r :
  OpenAI.on_read parse_json h (Chunk c2)
    (OpenAI.on_read parse_json h (Chunk (c1 ++ nl)) r)
  = OpenAI.on_read parse_json h (Chunk (c1 ++ nl ++ c2)) r.
Proof.
  unfold OpenAI.on_read at 2 3.
  destruct (OpenAI.finished r) eqn:Hfin.
  - unfold OpenAI.on_read. now rewrite Hfin.
  - unfold OpenAI.processChunk. rewrite lines_of_nl, !lines_of_app.
    rewrite process_lines_app.
    destruct (existsb OpenAI.is_done (OpenAI.lines_of c1)) eqn:Hex.
    + destruct (live_lines_app_done _ (OpenAI.lines_of c2) (OpenAI.out r) Hex)
        as [-> Hne].
      destruct (OpenAI.live_lines parse_json (OpenAI.lines_of c1)
                                  (OpenAI.out r)) as [out' fl].
      cbn [snd] in Hne. destruct fl; [contradiction| |]; reflexivity.
    + destruct (live_lines_app_open _ (OpenAI.lines_of c2) (OpenAI.out r) Hex)
        as [-> Hc].
      destruct (OpenAI.live_lines parse_json (OpenAI.lines_of c1)
                                  (OpenAI.out r)) as [out' fl].
      cbn [snd fst] in *. subst fl. reflexivity.
Qed.

End ChunkBoundaries.

(** C3, amended.  Every chunk is split into frames on its own and nothing
    is kept for the next chunk.  The frames that lie wholly inside a chunk
    are decoded in order, so in the OpenAI provider a body delivered in two
    chunks cut at the end of a line leaves the read loop in the same state
    (aggregate, hook calls, [textStream]) as the same text delivered in one
    chunk.  A frame cut by a chunk boundary is not put together again. *)
Theorem C3_chunks_are_decoded_separately :
  forall (parse_json : string -> option value) (h : hooks)
         (c1 c2 : string) (w : OpenAI.world),
    OpenAI.exec parse_json h [Read (Chunk (c1 ++ nl)); Read (Chunk c2)] w
    = OpenAI.exec parse_json h [Read (Chunk (c1 ++ nl ++ c2))] w.
Proof.
  intros parse_json h c1 c2 w. cbn [OpenAI.exec fold_left OpenAI.step].
  cbn [OpenAI.run OpenAI.answers]. now rewrite on_read_cut_at_line_end.
Qed.

(** ** Tool-call arguments *)


Section ToolCalls.








Lemma length_update_nth {A : Type} (f : A -> A) (l : list A) (i : nat) :
  List.length (OpenAI.update_nth i f l) = List.length l.
Proof.
  revert i. induction l as [|x l IH]; intros [|i]; cbn; auto.
Qed.


Variable parse_json : string -> option value.
Variable h : hooks.
Hypothesis with_onMessage : onMessage h = true.





End ToolCalls.



(** ** Text deltas *)

Section TextDeltas.

Variable parse_json : string -> option value.
Variable h : hooks.

(** With an [onMessage] hook, an OpenAI frame whose delta has a content
    appends exactly that content to the aggregated text. *)
Lemma openai_text_delta_appends payload chunkData choices st :
  onMessage h = true ->
  payload <> "[DONE]" ->
  parse_json payload = Some chunkData ->
  get chunkData "choices" = Ok choices ->
  truthy (oget (oget (oindex0 choices) "delta") "content") = true ->
  OpenAI.aggregatedContent
    (fst (OpenAI.process_line parse_json h ("data: " ++ payload) st))
  = OpenAI.aggregatedContent st
    ++ to_string (oget (oget (oindex0 choices) "delta") "content").
Proof.
  intros Hh Hdone Hparse Hchoices Hc.
  unfold OpenAI.process_line.
  rewrite startsWith_app.
  change 6 with (String.length "data: "). rewrite substring_from_app.
  destruct (String.eqb_spec payload "[DONE]") as [e|_]; [contradiction|].
  rewrite Hparse.
  pose proof (get_ok_not_nullish _ _ _ Hchoices) as Hnn.
  unfold OpenAI.on_chunk_data, OpenAI.seq, OpenAI.classify,
    OpenAI.update_stop_reason, OpenAI.update_usage, OpenAI.eval,
    OpenAI.call_onMessage, OpenAI.assign, OpenAI.skip.
  rewrite Hh, Hchoices, (get_not_nullish _ "usage" Hnn), Hc.
  assert (Hf : field (oget (oindex0 choices) "delta") "content"
               = oget (oget (oindex0 choices) "delta") "content").
  { unfold oget at 2. destruct (nullish (oget (oindex0 choices) "delta")) eqn:Hn;
      [|reflexivity].
    unfold oget at 1 in Hc. now rewrite Hn in Hc. }
  rewrite Hf.
  destruct (truthy (oget (oindex0 choices) "finish_reason"));
    destruct (truthy (field chunkData "usage")); reflexivity.
Qed.

(** An Anthropic [text_delta] appends exactly its text, with or without
    hooks. *)
Lemma anthropic_text_delta_appends eventData delta st :
  get eventData "delta" = Ok delta ->
  get delta "type" = Ok (Str "text_delta") ->
  Anthropic.aggregatedTextContent
    (fst (Anthropic.on_event h "content_block_delta" eventData st))
  = Anthropic.aggregatedTextContent st ++ to_string (field delta "text").
Proof.
  intros Hdelta Htype.
  unfold Anthropic.on_event. cbn [String.eqb Ascii.eqb Bool.eqb].
  unfold Anthropic.eval. rewrite Hdelta, Htype.
  cbn [Anthropic.is_str String.eqb Ascii.eqb Bool.eqb].
  unfold Anthropic.seq, Anthropic.assign, Anthropic.stream_enqueue,
    Anthropic.call_onMessage, Anthropic.skip.
  cbn [Anthropic.textStream Anthropic.set_text].
  destruct (Streams.enqueue (field delta "text") (Anthropic.textStream st));
    [|reflexivity].
  now destruct (onMessage h).
Qed.

End TextDeltas.

(** C7 on a caller without [onMessage]: the OpenAI provider aggregates text
    inside [if (onMessage) { ... }], so the two text deltas leave
    [aggregatedContent] empty; with the hook, and in the Anthropic provider
    without it, the same deltas give "Hello". *)
Lemma C7_text_lost_without_onMessage :
  OpenAI.aggregatedContent
    (OpenAI.processChunk JSON_parse without_onMessage
       (text_frame "Hel" ++ text_frame "lo") OpenAI.initial)
  = EmptyString
  /\ OpenAI.aggregatedContent
       (OpenAI.processChunk JSON_parse all_hooks
          (text_frame "Hel" ++ text_frame "lo") OpenAI.initial)
     = "Hello"
  /\ Anthropic.aggregatedTextContent
       (fst (Anthropic.process_events JSON_parse without_onMessage
               (Anthropic.events_of
                  (text_event "Hel" ++ nl ++ nl ++ text_event "lo" ++ nl ++ nl))
               Anthropic.initial))
     = "Hello".
Proof. vm_compute. repeat split. Qed.

(** The Anthropic read loop after its first chunk: the test that follows
    the [for] loop throws, the [catch] errors [textStream] and calls
    [onError], and the second chunk is never read. *)
Lemma anthropic_stops_after_first_chunk :
  let w := Anthropic.exec JSON_parse all_hooks
             [Read (Chunk (text_event "Hel" ++ nl ++ nl));
              Read (Chunk (text_event "lo" ++ nl ++ nl)); Read Done]
             Anthropic.request_returned in
  Anthropic.aggregatedTextContent (Anthropic.vars (Anthropic.run w)) = "Hel"
  /\ Streams.sstate (Anthropic.textStream (Anthropic.vars (Anthropic.run w)))
     = Streams.Errored (ReferenceError "eventName")
  /\ In (OnError (ReferenceError "eventName")
                 (RawError (ReferenceError "eventName")))
        (Anthropic.trace (Anthropic.vars (Anthropic.run w))).
Proof. vm_compute. repeat split. auto. Qed.

(** C9 on a caller without [onMessage]: the pass that feeds [textStream]
    yields both deltas, while the pass in [processChunk] aggregates
    nothing, so [finalResponse()] answers with an empty content after the
    stream has drained. *)
Lemma C9_stream_and_final_response_differ :
  let w := OpenAI.exec JSON_parse without_onMessage
             [Read (Chunk (text_frame "Hel"));
              Read (Chunk (text_frame "lo" ++ "data: [DONE]" ++ nl));
              Pull; Pull; Call FinalResponse]
             OpenAI.request_returned in
  OpenAI.finished (OpenAI.run w) = true
  /\ Streams.delivered (OpenAI.out (OpenAI.run w)) = [Str "Hel"; Str "lo"]
  /\ Streams.sstate (OpenAI.out (OpenAI.run w)) = Streams.Closed
  /\ OpenAI.answers w
     = [OpenAI.AMessage {| OpenAI.content := EmptyString;
                           OpenAI.toolCalls := None |}].
Proof. vm_compute. repeat split. Qed.

(** ** The two passes of the OpenAI read loop *)

Section TwoPasses.

Variable parse_json : string -> option value.
Variable h : hooks.
Hypothesis with_onMessage : onMessage h = true.















End TwoPasses.

(** ** Stop reasons over a sequence of frames *)

Section StopReasons.

Variable parse_json : string -> option value.
Variable h : hooks.





















End StopReasons.



(** * The code around the read loops *)

Import Objects Messages Around.

(** ** [splitDataUrl] *)

Section Splitting.

Variable c : ascii.

Let sep : string := String c EmptyString.

Lemma prefix_char (c' : ascii) (s : string) :
  String.prefix sep (String c' s) = Ascii.eqb c c'.
Proof.
  unfold sep. cbn [String.prefix].
  destruct (ascii_dec c c') as [e|ne];
    destruct (Ascii.eqb_spec c c') as [e'|ne']; try congruence.
  now destruct s.
Qed.

(** A piece without the separator is not split. *)
Lemma split_go_without (s cur : string) :
  has_char c s = false -> split_go sep 0 cur s = [cur ++ s].
Proof.
  revert cur. induction s as [|c' s IH]; intros cur Hs.
  - cbn. now rewrite append_empty_r.
  - cbn [has_char] in Hs. apply orb_false_iff in Hs. destruct Hs as [Hc Hs].
    cbn [split_go]. rewrite prefix_char, Hc, (IH _ Hs), append_assoc.
    reflexivity.
Qed.

(** Splitting distributes over a cut made at the separator. *)
Lemma split_go_char_app (a b cur : string) :
  split_go sep 0 cur (a ++ String c b)
  = (split_go sep 0 cur a ++ split_go sep 0 EmptyString b)%list.
Proof.
  revert cur. induction a as [|c' a IH]; intros cur.
  - cbn [append split_go]. rewrite prefix_char, Ascii.eqb_refl. reflexivity.
  - change (String c' a ++ String c b) with (String c' (a ++ String c b)).
    cbn [split_go]. rewrite !prefix_char.
    destruct (Ascii.eqb c c').
    + cbn [String.length sep Nat.sub]. rewrite IH. reflexivity.
    + apply IH.
Qed.

End Splitting.

(** [split] gives at least one piece. *)
Lemma split_go_not_nil (sep s cur : string) (skip : nat) :
  split_go sep skip cur s <> [].
Proof.
  revert cur skip.
  induction s as [|c s IH]; intros cur skip; cbn [split_go]; [discriminate|].
  destruct skip; [|apply IH].
  destruct (String.prefix sep (String c s)); [discriminate | apply IH].
Qed.

Lemma split_not_nil (sep s : string) : split sep s <> [].
Proof. apply split_go_not_nil. Qed.

Lemma split_first (c : ascii) (a b : string) :
  has_char c a = false ->
  split (String c EmptyString) (a ++ String c b)
  = a :: split (String c EmptyString) b.
Proof.
  intros Ha. unfold split. rewrite split_go_char_app.
  now rewrite (split_go_without c a EmptyString Ha).
Qed.

Lemma split_without (c : ascii) (a : string) :
  has_char c a = false -> split (String c EmptyString) a = [a].
Proof. intros Ha. unfold split. now rewrite (split_go_without c a _ Ha). Qed.

(** X1.  The data URL that [mapToOpenAIMessages] builds for an image part
    is taken apart again by [splitDataUrl]: it gives back the media type and
    the data, provided the data holds no comma (base64 text never does). *)
Theorem splitDataUrl_of_data_url :
  forall (m : MediaType) (data : string),
    has_char comma data = false ->
    DataUrl.splitDataUrl (DataUrl.data_url (media_type_name m) data)
    = {| DataUrl.mimeType := Some (media_type_name m);
         DataUrl.base64Content := Some data |}.
Proof.
  intros m data Hdata. unfold DataUrl.splitDataUrl, DataUrl.data_url.
  unfold comma in Hdata.
  assert (Hs : forall mt,
             has_char "," ("data:" ++ mt ++ ";base64") = false ->
             split "," ("data:" ++ mt ++ ";base64," ++ data)
             = ["data:" ++ mt ++ ";base64"; data]).
  { intros mt Hmt.
    replace ("data:" ++ mt ++ ";base64," ++ data)
      with (("data:" ++ mt ++ ";base64") ++ String "," data)
      by (now rewrite !append_assoc).
    rewrite (split_first "," _ data Hmt).
    now rewrite (split_without "," data Hdata). }
  destruct m; rewrite Hs by reflexivity; reflexivity.
Qed.

(** X1 on the PNG of the multimodal example. *)
Lemma splitDataUrl_of_data_url_witness :
  DataUrl.splitDataUrl (DataUrl.data_url "image/png" "iVBORw0KGgo=")
  = {| DataUrl.mimeType := Some "image/png";
       DataUrl.base64Content := Some "iVBORw0KGgo=" |}.
Proof.
  apply (splitDataUrl_of_data_url image_png "iVBORw0KGgo="). reflexivity.
Defined.

(** X2.  [splitDataUrl] on text that is not a data URL: without a comma
    there is no [base64Content], and the whole text is taken as the header;
    with commas, the content is what lies between the first comma and the
    second, and what follows the second comma is dropped. *)
Theorem splitDataUrl_commas :
  forall (header content rest : string),
    has_char comma header = false ->
    has_char comma content = false ->
    DataUrl.base64Content (DataUrl.splitDataUrl header) = None
    /\ DataUrl.base64Content
         (DataUrl.splitDataUrl (header ++ "," ++ content))
       = Some content
    /\ DataUrl.base64Content
         (DataUrl.splitDataUrl (header ++ "," ++ content ++ "," ++ rest))
       = Some content
    /\ DataUrl.mimeType
         (DataUrl.splitDataUrl (header ++ "," ++ content ++ "," ++ rest))
       = DataUrl.mimeType (DataUrl.splitDataUrl header).
Proof.
  intros header content rest Hh Hc. unfold DataUrl.splitDataUrl.
  unfold comma in Hh, Hc.
  change ("," ++ content) with (String "," content).
  change ("," ++ content ++ "," ++ rest)
    with (String "," (content ++ String "," rest)).
  rewrite (split_without "," header Hh).
  rewrite !(split_first "," header _ Hh).
  rewrite (split_without "," content Hc).
  rewrite (split_first "," content _ Hc).
  pose proof (split_not_nil ";" header) as Hne.
  destruct (split ";" header) as [|h0 t]; [contradiction|].
  repeat split; reflexivity.
Qed.

(** X2 on a URL with a stray second comma, and on plain text. *)
Lemma splitDataUrl_commas_witness :
  DataUrl.base64Content (DataUrl.splitDataUrl "data:text/plain") = None
  /\ DataUrl.base64Content (DataUrl.splitDataUrl "data:text/plain,a,b")
     = Some "a".
Proof.
  destruct (splitDataUrl_commas "data:text/plain" "a" "b" eq_refl eq_refl)
    as (H1 & _ & H3 & _).
  split; [exact H1 | exact H3].
Defined.

(** ** [writeToServerResponse] *)

Lemma read_chunks_then (chunks : list string) (rest : list read_result) :
  Server.read (map Chunk chunks ++ rest)
  = (map Server.Write chunks ++ fst (Server.read rest),
     snd (Server.read rest))%list.
Proof.
  induction chunks as [|c chunks IH]; cbn.
  - now destruct (Server.read rest).
  - rewrite IH. reflexivity.
Qed.

(** X3.  [writeToServerResponse] writes the head first, with status 200
    when none is given, then every chunk read before the stream ends, in
    order, and calls [end()] exactly once as the last call, both when the
    stream is done and when a read fails (the failure then rejects the
    promise of [read()]).  Nothing that the stream would deliver later is
    read or written. *)
Theorem writeToServerResponse_calls :
  forall status statusText headers chunks later e,
    let head :=
      Server.WriteHead (match status with Some n => n | None => 200%Z end)
                       statusText headers in
    Server.writeToServerResponse status statusText headers
      (map Chunk chunks ++ Done :: later)
    = (head :: map Server.Write chunks ++ [Server.End_], None)%list
    /\ Server.writeToServerResponse status statusText headers
         (map Chunk chunks ++ Failed e :: later)
       = (head :: map Server.Write chunks ++ [Server.End_], Some e)%list.
Proof.
  intros status statusText headers chunks later e head.
  unfold Server.writeToServerResponse. rewrite !read_chunks_then.
  split; reflexivity.
Qed.

(** ** Request bodies *)

Section ObjectFacts.

Lemma lookup_remove_member_same k m : lookup k (remove_member k m) = None.
Proof.
  induction m as [|[k' v'] m IH]; cbn; [reflexivity|].
  destruct (String.eqb k k') eqn:E; [exact IH|].
  cbn. now rewrite IH, E.
Qed.

Lemma lookup_remove_member_other k k' m :
  String.eqb k' k = false ->
  lookup k' (remove_member k m) = lookup k' m.
Proof.
  intros Hk. induction m as [|[k1 v1] m IH]; cbn; [reflexivity|].
  destruct (String.eqb k k1) eqn:E.
  - apply String.eqb_eq in E. subst k1. rewrite IH, Hk.
    now destruct (lookup k' m).
  - cbn. now rewrite IH.
Qed.

Lemma lookup_set_member_same k v m : lookup k (set_member k v m) = Some v.
Proof.
  induction m as [|[k' v'] m IH]; cbn.
  - now rewrite String.eqb_refl.
  - destruct (String.eqb k k') eqn:E; cbn.
    + now rewrite lookup_remove_member_same, String.eqb_refl.
    + now rewrite IH.
Qed.

Lemma lookup_set_member_other k k' v m :
  String.eqb k' k = false ->
  lookup k' (set_member k v m) = lookup k' m.
Proof.
  intros Hk. induction m as [|[k1 v1] m IH]; cbn.
  - now rewrite Hk.
  - destruct (String.eqb k k1) eqn:E; cbn.
    + apply String.eqb_eq in E. subst k1.
      now rewrite (lookup_remove_member_other _ _ _ Hk), Hk.
    + now rewrite IH.
Qed.

(** In [{ ...base, ...extra }] a key of [extra] wins. *)
Lemma lookup_spread k base extra :
  lookup k (spread base extra)
  = match lookup k extra with
    | Some v => Some v
    | None => lookup k base
    end.
Proof.
  unfold spread. revert base.
  induction extra as [|[k1 v1] extra IH]; intros base; cbn; [reflexivity|].
  rewrite IH. destruct (lookup k extra); [reflexivity|].
  destruct (String.eqb k k1) eqn:E.
  - apply String.eqb_eq in E. subst k1. apply lookup_set_member_same.
  - now apply lookup_set_member_other.
Qed.

Lemma lookup_spread_optional k base o :
  lookup k (spread_optional base o)
  = match o with
    | Some extra =>
        match lookup k extra with
        | Some v => Some v
        | None => lookup k base
        end
    | None => lookup k base
    end.
Proof. destruct o; [apply lookup_spread | reflexivity]. Qed.

End ObjectFacts.

(** X4.  A call with [stream: true] always sends [stream: true]: neither
    the provider's default parameters nor the options of the call can turn
    it off in the request body, in either provider. *)
Theorem stream_true_is_sent :
  forall stringify openai anthropic (p : Calls.params),
    Calls.stream p = Some true ->
    field (Obj (OpenAIRequest.requestBody stringify openai p)) "stream"
    = Bool true
    /\ field (Obj (AnthropicRequest.requestBody anthropic p)) "stream"
       = Bool true.
Proof.
  intros stringify o a p Hs.
  unfold OpenAIRequest.requestBody, AnthropicRequest.requestBody,
    Calls.streaming. rewrite Hs. cbn [field].
  now rewrite !lookup_set_member_same.
Qed.

(** X4 on provider defaults that say [stream: false]. *)
Lemma stream_true_is_sent_witness :
  field (Obj (OpenAIRequest.requestBody no_stringify openai_options
                (sample_params (Some true) None))) "stream"
  = Bool true.
Proof.
  exact (proj1 (stream_true_is_sent no_stringify openai_options
                  anthropic_options (sample_params (Some true) None) eq_refl)).
Defined.

(** X5.  The options of a call take precedence: a key given in
    [providerOptions] is sent with the value given there, over the
    provider's default parameters and over the fields [request] fills in
    itself ([model], [messages], [max_tokens]).  The exceptions are [stream]
    in a streaming call and, in the Anthropic provider, [system] when a
    system prompt is passed. *)
Theorem provider_options_take_precedence :
  forall stringify openai anthropic (p : Calls.params) options k v,
    Calls.providerOptions p = Some options ->
    lookup k options = Some v ->
    (Calls.streaming p = true -> k <> "stream") ->
    field (Obj (OpenAIRequest.requestBody stringify openai p)) k = v
    /\ ((given (Calls.systemPrompt p) = true -> k <> "system") ->
        field (Obj (AnthropicRequest.requestBody anthropic p)) k = v).
Proof.
  intros stringify o a p options k v Hopt Hk Hstream.
  assert (Hne : forall s, k <> s -> String.eqb k s = false)
    by (intros s; apply String.eqb_neq).
  split.
  - unfold OpenAIRequest.requestBody. cbn [field].
    destruct (Calls.streaming p).
    + rewrite lookup_set_member_other by (apply Hne; auto).
      now rewrite lookup_spread_optional, Hopt, Hk.
    + now rewrite lookup_spread_optional, Hopt, Hk.
  - intros Hsys. unfold AnthropicRequest.requestBody. cbn [field].
    assert (Hbody : forall m,
               lookup k (spread_optional m (Calls.providerOptions p)) = Some v)
      by (intros m; now rewrite lookup_spread_optional, Hopt, Hk).
    destruct (Calls.streaming p), (given (Calls.systemPrompt p));
      rewrite ?lookup_set_member_other by (apply Hne; auto);
      now rewrite Hbody.
Qed.

(** X5 on a call without [stream] whose options carry [stream: true]: the
    body says [stream: true] although the non-streaming branch is taken. *)
Lemma provider_options_take_precedence_witness :
  field (Obj (OpenAIRequest.requestBody no_stringify openai_options
                (sample_params None (Some [("stream", Bool true)]))))
        "stream"
  = Bool true.
Proof.
  refine (proj1 (provider_options_take_precedence no_stringify openai_options
                   anthropic_options
                   (sample_params None (Some [("stream", Bool true)]))
                   [("stream", Bool true)] "stream" (Bool true)
                   eq_refl eq_refl _)).
  discriminate.
Defined.

(** X6.  In the Anthropic request body a system prompt passed to the call
    is sent as [system] whatever the default parameters and the options
    say, and [max_tokens] is 4096 unless one of the two gives it. *)
Theorem anthropic_system_and_max_tokens :
  forall anthropic (p : Calls.params),
    (forall prompt,
        Calls.systemPrompt p = Some prompt ->
        prompt <> EmptyString ->
        field (Obj (AnthropicRequest.requestBody anthropic p)) "system"
        = Str prompt)
    /\ (opt_lookup "max_tokens"
          (AnthropicRequest.defaultAnthropicParams anthropic) = None ->
        opt_lookup "max_tokens" (Calls.providerOptions p) = None ->
        field (Obj (AnthropicRequest.requestBody anthropic p)) "max_tokens"
        = Num 4096).
Proof.
  intros a p. split.
  - intros prompt Hp Hne. unfold AnthropicRequest.requestBody. rewrite Hp.
    assert (Hg : given (Some prompt) = true) by (now destruct prompt).
    rewrite Hg. cbn [field optional_string].
    destruct (Calls.streaming p);
      rewrite ?lookup_set_member_other by reflexivity;
      now rewrite lookup_set_member_same.
  - intros Hd Ho. unfold AnthropicRequest.requestBody. cbn [field].
    assert (Hbody :
      lookup "max_tokens"
        (spread_optional
           (spread_optional
              [("model", Str (Calls.modelId p));
               ("messages",
                Arr (AnthropicRequest.mapToAnthropicMessages (Calls.messages p)));
               ("stream", Bool match Calls.stream p with
                               | Some b => b
                               | None => false
                               end);
               ("max_tokens", Num 4096)]
              (AnthropicRequest.defaultAnthropicParams a))
           (Calls.providerOptions p)) = Some (Num 4096)).
    { rewrite !lookup_spread_optional.
      unfold opt_lookup in Hd, Ho.
      destruct (Calls.providerOptions p) as [po|];
        destruct (AnthropicRequest.defaultAnthropicParams a) as [d|];
        rewrite ?Ho, ?Hd; reflexivity. }
    destruct (Calls.streaming p), (given (Calls.systemPrompt p));
      rewrite ?lookup_set_member_other by reflexivity;
      now rewrite Hbody.
Qed.

(** X6 on defaults and options that both carry a [system] of their own. *)
Lemma anthropic_system_and_max_tokens_witness :
  field (Obj (AnthropicRequest.requestBody anthropic_options
                (sample_params None (Some [("system", Str "Other.")]))))
        "system"
  = Str "Be brief.".
Proof.
  refine (proj1 (anthropic_system_and_max_tokens anthropic_options
                   (sample_params None (Some [("system", Str "Other.")])))
            "Be brief." eq_refl _).
  discriminate.
Defined.

(** ** [mapToOpenAIMessages] and [mapToAnthropicMessages] *)

Section OpenAIMapping.

Variable stringify : list ResultPart -> string.

Lemma forEach_part_acc r parts messages contentParts :
  OpenAIRequest.forEach_part stringify r parts messages contentParts
  = ((messages
      ++ fst (OpenAIRequest.forEach_part stringify r parts [] []))%list,
     (contentParts
      ++ snd (OpenAIRequest.forEach_part stringify r parts [] []))%list).
Proof.
  revert messages contentParts.
  induction parts as [|part parts IH]; intros messages contentParts.
  - cbn. now rewrite !app_nil_r.
  - destruct part as [text|mt data|id name input|id c e];
      cbn [OpenAIRequest.forEach_part app].
    + rewrite IH, (IH [] [_]). cbn [fst snd app].
      now rewrite <- app_assoc.
    + rewrite IH, (IH [] [_]). cbn [fst snd app].
      now rewrite <- app_assoc.
    + apply IH.
    + destruct (is_tool r); [|apply IH].
      rewrite IH, (IH [_] []). cbn [fst snd app].
      now rewrite <- app_assoc.
Qed.

Lemma map_message_acc acc msg :
  OpenAIRequest.map_message stringify acc msg
  = (acc ++ OpenAIRequest.map_message stringify [] msg)%list.
Proof.
  unfold OpenAIRequest.map_message.
  destruct (content msg) as [s|parts]; [reflexivity|].
  rewrite forEach_part_acc.
  destruct (OpenAIRequest.forEach_part stringify (role msg) parts [] [])
    as [ms cps].
  cbn [fst snd app].
  destruct cps; [destruct (is_tool (role msg))|];
    now rewrite ?app_assoc, ?app_nil_r.
Qed.

Lemma fold_map_message_acc msgs acc :
  fold_left (OpenAIRequest.map_message stringify) msgs acc
  = (acc ++ fold_left (OpenAIRequest.map_message stringify) msgs [])%list.
Proof.
  revert acc. induction msgs as [|msg msgs IH]; intros acc; cbn [fold_left].
  - now rewrite app_nil_r.
  - rewrite IH, (IH (OpenAIRequest.map_message stringify [] msg)),
      map_message_acc.
    now rewrite app_assoc.
Qed.

Lemma mapToOpenAIMessages_cons msg msgs systemPrompt :
  OpenAIRequest.mapToOpenAIMessages stringify (msg :: msgs) systemPrompt
  = (OpenAIRequest.mapToOpenAIMessages stringify [] systemPrompt
     ++ OpenAIRequest.map_message stringify [] msg
     ++ OpenAIRequest.mapToOpenAIMessages stringify msgs None)%list.
Proof.
  unfold OpenAIRequest.mapToOpenAIMessages. cbn [fold_left given].
  rewrite fold_map_message_acc, map_message_acc. now rewrite app_assoc.
Qed.

(** The outgoing messages of a tool message all have the role [tool]. *)
Lemma forEach_part_tool_roles parts :
  Forall (fun m => is_tool_out m = true)
         (fst (OpenAIRequest.forEach_part stringify tool parts [] [])).
Proof.
  induction parts as [|part parts IH]; [constructor|].
  destruct part as [text|mt data|id name input|id c e];
    cbn [OpenAIRequest.forEach_part is_tool];
    rewrite forEach_part_acc; cbn [fst app]; try exact IH.
  constructor; [reflexivity | exact IH].
Qed.

Lemma forEach_part_non_tool r parts :
  is_tool r = false ->
  fst (OpenAIRequest.forEach_part stringify r parts [] []) = [].
Proof.
  intros Hr. induction parts as [|part parts IH]; [reflexivity|].
  destruct part as [text|mt data|id name input|id c e];
    cbn [OpenAIRequest.forEach_part]; rewrite ?Hr;
    try (rewrite forEach_part_acc; cbn [fst app]); exact IH.
Qed.

Lemma filter_all_false {A : Type} (f : A -> bool) (l : list A) :
  Forall (fun x => f x = false) l -> filter f l = [].
Proof.
  induction 1 as [|x l Hx _ IH]; cbn; [reflexivity|]. now rewrite Hx.
Qed.

(** What is left of one message when the [tool] messages are taken out. *)
Lemma map_message_roles msg :
  map out_role
      (filter (fun m => negb (is_tool_out m))
              (OpenAIRequest.map_message stringify [] msg))
  = if is_tool (role msg) then [] else [Str (role_name (role msg))].
Proof.
  unfold OpenAIRequest.map_message.
  destruct msg as [r c id]. cbn [role content toolCallId].
  destruct c as [s|parts].
  - destruct r; cbn; try reflexivity. now destruct (given id).
  - destruct r.
    + pose proof (forEach_part_non_tool user parts eq_refl) as Hnil.
      destruct (OpenAIRequest.forEach_part stringify user parts [] [])
        as [ms cps].
      cbn [fst] in Hnil. subst ms. now destruct cps.
    + pose proof (forEach_part_non_tool assistant parts eq_refl) as Hnil.
      destruct (OpenAIRequest.forEach_part stringify assistant parts [] [])
        as [ms cps].
      cbn [fst] in Hnil. subst ms. now destruct cps.
    + pose proof (forEach_part_tool_roles parts) as Hall.
      destruct (OpenAIRequest.forEach_part stringify tool parts [] [])
        as [ms cps].
      cbn [fst] in Hall.
      assert (Hf : filter (fun m => negb (is_tool_out m)) ms = []).
      { apply filter_all_false. eapply Forall_impl; [|exact Hall].
        cbn. now intros m ->. }
      destruct cps; cbn [is_tool]; rewrite ?filter_app, ?Hf; reflexivity.
Qed.

End OpenAIMapping.

(** X7.  [mapToOpenAIMessages] maps a conversation piece by piece: the
    messages of [a ++ b] are those of [a], headed by the system message when
    a system prompt is given, followed by those of [b] mapped without a
    system prompt. *)
Theorem mapToOpenAIMessages_app :
  forall stringify (a b : list Message) (systemPrompt : option string),
    OpenAIRequest.mapToOpenAIMessages stringify (a ++ b) systemPrompt
    = (OpenAIRequest.mapToOpenAIMessages stringify a systemPrompt
       ++ OpenAIRequest.mapToOpenAIMessages stringify b None)%list.
Proof.
  intros stringify a b systemPrompt.
  unfold OpenAIRequest.mapToOpenAIMessages. rewrite fold_left_app.
  now rewrite fold_map_message_acc.
Qed.

(** X8.  [mapToOpenAIMessages] neither drops nor duplicates a user or
    assistant message: taking the [tool] messages out of its result leaves
    the system message, when a non-empty system prompt is given, and then
    exactly one message for every input message whose role is not [tool],
    with that role and in the same order -- also for a message whose parts
    are all tool calls or tool results, which is sent with an empty
    content. *)
Theorem mapToOpenAIMessages_roles :
  forall stringify (msgs : list Message) (systemPrompt : option string),
    map out_role
        (filter (fun m => negb (is_tool_out m))
                (OpenAIRequest.mapToOpenAIMessages stringify msgs systemPrompt))
    = ((if given systemPrompt then [Str "system"] else [])
       ++ map (fun m => Str (role_name (role m))) (filter non_tool msgs))%list.
Proof.
  intros stringify msgs. induction msgs as [|msg msgs IH]; intros systemPrompt.
  - unfold OpenAIRequest.mapToOpenAIMessages. cbn [fold_left filter map].
    rewrite app_nil_r. now destruct (given systemPrompt).
  - rewrite mapToOpenAIMessages_cons, !filter_app, !map_app.
    rewrite (IH None), map_message_roles. cbn [given app filter].
    unfold OpenAIRequest.mapToOpenAIMessages at 1. cbn [fold_left].
    unfold non_tool at 2.
    destruct (given systemPrompt), (is_tool (role msg)); reflexivity.
Qed.

(** X9.  A [tool] message made of tool-result parts is sent as one [tool]
    message per part, in order, each with the part's id as [tool_call_id]
    and its content as a string ([JSON.stringify] of it when structured),
    and nothing else.  The same parts in a user or assistant message are
    dropped: a single message with an empty content is sent. *)
Theorem mapToOpenAIMessages_tool_results :
  forall stringify acc (results : list (string * ResultContent * option bool))
         id,
    OpenAIRequest.map_message stringify acc
      {| role := tool; content := Parts (map as_part results);
         toolCallId := id |}
    = (acc ++ map (fun r => OpenAIRequest.tool_result_message stringify
                              (fst (fst r)) (snd (fst r)))
                  results)%list
    /\ OpenAIRequest.map_message stringify acc
         {| role := user; content := Parts (map as_part results);
            toolCallId := id |}
       = (acc ++ [Obj [("role", Str "user"); ("content", Str EmptyString)]])%list
    /\ OpenAIRequest.map_message stringify acc
         {| role := assistant; content := Parts (map as_part results);
            toolCallId := id |}
       = (acc ++ [Obj [("role", Str "assistant");
                       ("content", Str EmptyString)]])%list.
Proof.
  intros stringify acc results id.
  assert (Htool : forall messages,
             OpenAIRequest.forEach_part stringify tool (map as_part results)
                                        messages []
             = ((messages
                 ++ map (fun r => OpenAIRequest.tool_result_message stringify
                                    (fst (fst r)) (snd (fst r)))
                        results)%list, [])).
  { induction results as [|[[i c] e] results IH]; intros messages; cbn.
    - now rewrite app_nil_r.
    - rewrite IH. now rewrite <- app_assoc. }
  assert (Hother : forall r messages,
             is_tool r = false ->
             OpenAIRequest.forEach_part stringify r (map as_part results)
                                        messages []
             = (messages, [])).
  { intros r messages Hr.
    clear Htool.
    induction results as [|[[i c] e] results IH]; cbn; [reflexivity|].
    rewrite Hr. exact IH. }
  unfold OpenAIRequest.map_message. cbn [content role].
  rewrite Htool, !Hother by reflexivity. repeat split.
Qed.

(** X10.  [mapToAnthropicMessages] sends one message per input message, in
    order, and never with the role [tool]: a tool message goes out as a
    user message, the other roles are kept. *)
Theorem mapToAnthropicMessages_roles :
  forall (msgs : list Message),
    map out_role (AnthropicRequest.mapToAnthropicMessages msgs)
    = map (fun m => Str (match role m with
                         | assistant => "assistant"
                         | _ => "user"
                         end)) msgs
    /\ Forall (fun m => is_tool_out m = false)
              (AnthropicRequest.mapToAnthropicMessages msgs).
Proof.
  intros msgs. unfold AnthropicRequest.mapToAnthropicMessages.
  induction msgs as [|[r c id] msgs [IH1 IH2]]; cbn [map].
  - split; [reflexivity | constructor].
  - split.
    + rewrite IH1. now destruct r.
    + constructor; [now destruct r | exact IH2].
Qed.

(** ** [request] and [generate] *)

Section OpenAICalls.

Variable stringify : list ResultPart -> string.
Variable parse_json : string -> option value.
Variable o : OpenAIRequest.OpenAIProviderOptions.
Variable p : Calls.params.

Lemma openai_call_onError_returns n e r :
  onError_returns p ->
  OpenAIRequest.call_onError p n e r
  = (if onError (Calls.hooks_of p) then [Calls.Hook (OnError e r)] else [],
     None).
Proof.
  intros Hret. unfold OpenAIRequest.call_onError. rewrite (Hret n).
  now destruct (onError (Calls.hooks_of p)).
Qed.

Lemma openai_caught_returns n e :
  onError_returns p ->
  OpenAIRequest.caught p n e
  = (if onError (Calls.hooks_of p)
     then [Calls.Hook (OnError e (RawError e))] else [],
     if Calls.streaming p then Calls.Rejects e
     else Calls.Resolves Calls.error_result).
Proof.
  intros Hret. unfold OpenAIRequest.caught.
  now rewrite openai_call_onError_returns.
Qed.

Lemma openai_caught_steps n e :
  onError_returns p ->
  let steps := fst (OpenAIRequest.caught p n e) in
  onError_calls steps = (if onError (Calls.hooks_of p) then 1 else 0)
  /\ filter is_success_step steps = []
  /\ filter is_fetch steps = [].
Proof.
  intros Hret. rewrite openai_caught_returns by exact Hret.
  destruct (onError (Calls.hooks_of p)); cbn; repeat split.
Qed.

Lemma openai_not_ok_steps resp :
  onError_returns p ->
  let res := OpenAIRequest.not_ok parse_json p resp in
  onError_calls (fst res) = (if onError (Calls.hooks_of p) then 1 else 0)
  /\ filter is_success_step (fst res) = []
  /\ filter is_fetch (fst res) = [].
Proof.
  intros Hret res. subst res. unfold OpenAIRequest.not_ok.
  destruct (get (OpenAI.errorBody_of parse_json resp) "error") as [err|e].
  - rewrite openai_call_onError_returns by exact Hret.
    destruct (onError (Calls.hooks_of p)); cbn; repeat split.
  - now apply openai_caught_steps.
Qed.

End OpenAICalls.

(** X11.  A non-streaming call of [OpenAIProvider.request] whose hooks
    all return does exactly one of two things after its single [fetch], and
    never rejects.  When the response is OK, readable, JSON, and has
    [choices], the call resolves with the message, the usage and the stop
    reason read from the body, calls [onMessage] then [onFinish] with that
    message, and never [onError].  In every other case (the fetch or the
    body read fails, the status is not OK, the text is not JSON, [choices]
    is missing) it resolves with [{response: null, usage: null, stopReason:
    'error'}] after one [onError] call, and calls neither [onMessage] nor
    [onFinish]. *)
Theorem openai_non_streaming_outcome :
  forall stringify parse_json openai (p : Calls.params) (f : Calls.fetched),
    Calls.streaming p = false ->
    before_call_returns p ->
    hooks_return p ->
    let res := OpenAIRequest.request stringify parse_json openai p f in
    List.length (filter is_fetch (fst res)) = 1
    /\ match openai_answer parse_json f with
       | Some responseData =>
           successful_call (Calls.hooks_of p) responseData
                           (OpenAIRequest.message_of responseData)
                           (OpenAI.usage_of_response responseData)
                           (OpenAIRequest.finish_reason_of responseData) res
       | None => failed_call (Calls.hooks_of p) res
       end.
Proof.
  intros stringify parse_json o p f Hs Hb (Hm & Hfi & Hret) res. subst res.
  unfold OpenAIRequest.request. rewrite Hs.
  assert (Hmain :
    let r := OpenAIRequest.non_streaming parse_json p f in
    filter is_fetch (fst r) = []
    /\ match openai_answer parse_json f with
       | Some responseData =>
           successful_call (Calls.hooks_of p) responseData
                           (OpenAIRequest.message_of responseData)
                           (OpenAI.usage_of_response responseData)
                           (OpenAIRequest.finish_reason_of responseData) r
       | None => failed_call (Calls.hooks_of p) r
       end).
  { cbv zeta. unfold OpenAIRequest.non_streaming, openai_answer.
    assert (Hc : forall n e,
               filter is_fetch (fst (OpenAIRequest.caught p n e)) = []
               /\ failed_call (Calls.hooks_of p) (OpenAIRequest.caught p n e)).
    { intros n e. destruct (openai_caught_steps p n e Hret) as (H1 & H2 & H3).
      unfold failed_call. repeat split; auto.
      rewrite openai_caught_returns by exact Hret. cbn [snd]. now rewrite Hs. }
    destruct f as [e|resp [e|] noReader]; try apply Hc.
    destruct (ok resp).
    - destruct (parse_json (responseText resp)) as [d|]; [|apply Hc].
      unfold OpenAIRequest.respond.
      destruct (get d "choices") as [choices|e]; [|apply Hc].
      destruct (nullish choices); [apply Hc|].
      unfold OpenAIRequest.call_hook. rewrite Hm, Hfi.
      split.
      + now destruct (onMessage (Calls.hooks_of p)),
                     (onFinish (Calls.hooks_of p)).
      + unfold successful_call.
        now destruct (onMessage (Calls.hooks_of p)),
                     (onFinish (Calls.hooks_of p)).
    - assert (Hr : snd (OpenAIRequest.not_ok parse_json p resp)
                   = Calls.Resolves Calls.error_result).
      { unfold OpenAIRequest.not_ok.
        destruct (get (OpenAI.errorBody_of parse_json resp) "error").
        - rewrite openai_call_onError_returns by exact Hret. reflexivity.
        - rewrite openai_caught_returns by exact Hret. cbn [snd].
          now rewrite Hs. }
      destruct (openai_not_ok_steps parse_json p resp Hret)
        as (H1 & H2 & H3).
      unfold failed_call. repeat split; auto. }
  cbv zeta in Hmain.
  destruct (OpenAIRequest.non_streaming parse_json p f) as [steps r].
  destruct Hmain as [Hf Hmn]. cbn [fst snd] in *.
  unfold before_call_returns in Hb.
  assert (Hcount : forall pre : list (Calls.step OpenAI.Message OpenAI.Usage),
             filter is_fetch pre = [] ->
             filter is_success_step pre = [] ->
             onError_calls pre = 0 ->
             List.length
               (filter is_fetch
                  (pre ++ Calls.Fetch (OpenAIRequest.apiUrl o)
                            (OpenAIRequest.headers o)
                            (Obj (OpenAIRequest.requestBody stringify o p))
                   :: steps)) = 1
             /\ onError_calls
                  (pre ++ Calls.Fetch (OpenAIRequest.apiUrl o)
                            (OpenAIRequest.headers o)
                            (Obj (OpenAIRequest.requestBody stringify o p))
                   :: steps) = onError_calls steps
             /\ filter is_success_step
                  (pre ++ Calls.Fetch (OpenAIRequest.apiUrl o)
                            (OpenAIRequest.headers o)
                            (Obj (OpenAIRequest.requestBody stringify o p))
                   :: steps) = filter is_success_step steps).
  { intros pre P1 P2 P3. unfold onError_calls in *.
    rewrite !filter_app, P1, P2. cbn [filter is_fetch is_success_step is_onError].
    rewrite Hf. cbn. split; [reflexivity|]. split; [|reflexivity].
    rewrite length_app, P3. reflexivity. }
  destruct (Calls.onBeforeCall p) as [[e|]|]; [contradiction| |];
    cbn [fst snd].
  - destruct (Hcount [Calls.BeforeCall (Obj (OpenAIRequest.requestBody stringify o p))]
                eq_refl eq_refl eq_refl) as (C1 & C2 & C3).
    split; [exact C1|].
    destruct (openai_answer parse_json f).
    + destruct Hmn as (Hr & He & Hss). unfold successful_call.
      cbn [fst snd]. now rewrite C2, C3.
    + destruct Hmn as (Hr & He & Hss). unfold failed_call. cbn [fst snd].
      now rewrite C2, C3.
  - destruct (Hcount [] eq_refl eq_refl eq_refl) as (C1 & C2 & C3).
    split; [exact C1|].
    destruct (openai_answer parse_json f).
    + destruct Hmn as (Hr & He & Hss). unfold successful_call.
      cbn [fst snd]. now rewrite C2, C3.
    + destruct Hmn as (Hr & He & Hss). unfold failed_call. cbn [fst snd].
      now rewrite C2, C3.
Qed.

(** X11 on a 200 response with one assistant message, and on a 200
    response that is not JSON. *)
Lemma openai_non_streaming_outcome_witness :
  snd (OpenAIRequest.request no_stringify JSON_parse openai_options
         (sample_params None None) (Calls.Responds completion None None))
  = Calls.Resolves
      (Calls.NonStreaming
         (Some (Obj [("role", Str "assistant"); ("content", Str "Hello");
                     ("toolCalls", Undefined)]))
         (Some {| OpenAI.inputTokens := Num 1; OpenAI.outputTokens := Num 2;
                  OpenAI.totalTokens := Num 3 |})
         (Str "stop"))
  /\ failed_call (Calls.hooks_of (sample_params None None))
       (OpenAIRequest.request no_stringify JSON_parse openai_options
          (sample_params None None) (Calls.Responds garbled None None)).
Proof.
  split.
  - exact (proj1 (proj2 (openai_non_streaming_outcome no_stringify JSON_parse
                           openai_options (sample_params None None)
                           (Calls.Responds completion None None) eq_refl I
                           (conj eq_refl (conj eq_refl (fun n => eq_refl)))))).
  - exact (proj2 (openai_non_streaming_outcome no_stringify JSON_parse
                    openai_options (sample_params None None)
                    (Calls.Responds garbled None None) eq_refl I
                    (conj eq_refl (conj eq_refl (fun n => eq_refl))))).
Defined.

Section AnthropicCalls.

Variable parse_json : string -> option value.
Variable p : Calls.params.

Lemma anthropic_call_onError_returns n e r :
  onError_returns p ->
  AnthropicRequest.call_onError p n e r
  = (if onError (Calls.hooks_of p) then [Calls.Hook (OnError e r)] else [],
     None).
Proof.
  intros Hret. unfold AnthropicRequest.call_onError. rewrite (Hret n).
  now destruct (onError (Calls.hooks_of p)).
Qed.

Lemma anthropic_caught_returns n e :
  onError_returns p ->
  AnthropicRequest.caught p n e
  = (if onError (Calls.hooks_of p)
     then [Calls.Hook (OnError e (RawError e))] else [],
     if Calls.streaming p then Calls.Rejects e
     else Calls.Resolves Calls.error_result).
Proof.
  intros Hret. unfold AnthropicRequest.caught.
  now rewrite anthropic_call_onError_returns.
Qed.



End AnthropicCalls.





Section Settling.

Variable stringify : list ResultPart -> string.
Variable parse_json : string -> option value.
Variable openai : OpenAIRequest.OpenAIProviderOptions.
Variable anthropic : AnthropicRequest.AnthropicProviderOptions.
Variable p : Calls.params.
Hypothesis not_streaming : Calls.streaming p = false.
Hypothesis Hret : onError_returns p.

Lemma openai_caught_resolves n e :
  snd (OpenAIRequest.caught p n e) = Calls.Resolves Calls.error_result.
Proof.
  rewrite openai_caught_returns by exact Hret. cbn [snd].
  now rewrite not_streaming.
Qed.

Lemma anthropic_caught_resolves n e :
  snd (AnthropicRequest.caught p n e) = Calls.Resolves Calls.error_result.
Proof.
  rewrite anthropic_caught_returns by exact Hret. cbn [snd].
  now rewrite not_streaming.
Qed.

Lemma openai_non_streaming_resolves f :
  exists r, snd (OpenAIRequest.non_streaming parse_json p f) = Calls.Resolves r.
Proof.
  assert (Hc : forall n e (g : list OpenAIRequest.step -> list OpenAIRequest.step),
             exists r,
               snd (let '(s, r) := OpenAIRequest.caught p n e in (g s, r))
               = Calls.Resolves r).
  { intros n e g. pose proof (openai_caught_resolves n e) as H.
    destruct (OpenAIRequest.caught p n e) as [s r]. cbn [snd] in *. eauto. }
  assert (Hc0 : forall n e,
             exists r, snd (OpenAIRequest.caught p n e) = Calls.Resolves r).
  { intros n e. rewrite openai_caught_resolves. eauto. }
  unfold OpenAIRequest.non_streaming.
  destruct f as [e|resp [e|] noReader]; try apply Hc0.
  destruct (ok resp).
  - destruct (parse_json (responseText resp)) as [d|]; [|apply Hc0].
    unfold OpenAIRequest.respond.
    destruct (get d "choices") as [choices|e]; [|apply Hc0].
    destruct (nullish choices); [apply Hc0|].
    destruct (OpenAIRequest.call_hook (onMessage (Calls.hooks_of p)) _ _)
      as [s1 [e1|]]; [apply (Hc 0 e1 (fun s => s1 ++ s)%list)|].
    destruct (OpenAIRequest.call_hook (onFinish (Calls.hooks_of p)) _ _)
      as [s2 [e2|]]; [|cbn [snd]; eauto].
    apply (Hc 0 e2 (fun s => s1 ++ s2 ++ s)%list).
  - unfold OpenAIRequest.not_ok.
    destruct (get (OpenAI.errorBody_of parse_json resp) "error");
      [|apply Hc0].
    rewrite openai_call_onError_returns by exact Hret. cbn [snd]. eauto.
Qed.

Lemma anthropic_non_streaming_resolves f :
  exists r,
    snd (AnthropicRequest.non_streaming parse_json p f) = Calls.Resolves r.
Proof.
  assert (Hc : forall n e (g : list AnthropicRequest.step -> list AnthropicRequest.step),
             exists r,
               snd (let '(s, r) := AnthropicRequest.caught p n e in (g s, r))
               = Calls.Resolves r).
  { intros n e g. pose proof (anthropic_caught_resolves n e) as H.
    destruct (AnthropicRequest.caught p n e) as [s r]. cbn [snd] in *. eauto. }
  assert (Hc0 : forall n e,
             exists r, snd (AnthropicRequest.caught p n e) = Calls.Resolves r).
  { intros n e. rewrite anthropic_caught_resolves. eauto. }
  unfold AnthropicRequest.non_streaming.
  destruct f as [e|resp [e|] noReader]; try apply Hc0.
  destruct (ok resp).
  - destruct (parse_json (responseText resp)) as [d|]; [|apply Hc0].
    unfold AnthropicRequest.respond.
    destruct (get d "content") as [c|e]; [|apply Hc0].
    destruct (or_else c (Arr [])) as [ | |b|z| |s0|blocks|m];
      try apply Hc0.
    destruct (AnthropicRequest.map_blocks blocks) as [mapped|e];
      [|apply Hc0].
    destruct (AnthropicRequest.call_hook (onMessage (Calls.hooks_of p)) _ _)
      as [s1 [e1|]]; [apply (Hc 0 e1 (fun s => s1 ++ s)%list)|].
    destruct (AnthropicRequest.call_hook (onFinish (Calls.hooks_of p)) _ _)
      as [s2 [e2|]]; [|cbn [snd]; eauto].
    apply (Hc 0 e2 (fun s => s1 ++ s2 ++ s)%list).
  - unfold AnthropicRequest.not_ok.
    destruct (get (Anthropic.errorBody_of parse_json resp) "error");
      [|apply Hc0].
    rewrite anthropic_call_onError_returns by exact Hret. cbn [snd]. eauto.
Qed.

(** What [generate] makes of a settled [request] when [onError] returns. *)
Lemma generate_with_resolves {M U : Type}
  (res : list (Calls.step M U) * Calls.settled (Calls.generate_result U)) :
  exists r, snd (Calls.generate_with p res) = Calls.Resolves r.
Proof.
  destruct res as [steps [r|e]]; unfold Calls.generate_with, Calls.generate;
    [cbn; eauto|].
  rewrite not_streaming, (Hret (List.length (filter Calls.reported steps))).
  destruct (onError (Calls.hooks_of p)); cbn; eauto.
Qed.

End Settling.

(** X14.  In non-streaming mode nothing rejects as long as the [onError]
    hook returns.  [request] resolves whatever [fetch] answers when
    [onBeforeCall] returns, also when [onMessage] or [onFinish] throws: its
    [catch] turns that into the error result.  [generate] resolves in every
    case, also when [onBeforeCall] throws.  A throwing [onError] can make
    the call reject: when [onBeforeCall] throws and [onError], having
    returned from the call [request] makes, throws in the call [generate]
    makes, [generate] rejects with what it threw. *)
Theorem generate_resolves_without_streaming :
  forall stringify parse_json openai anthropic (p : Calls.params) f,
    Calls.streaming p = false ->
    let requested_o :=
      OpenAIRequest.request stringify parse_json openai p f in
    let requested_a := AnthropicRequest.request parse_json anthropic p f in
    (onError_returns p ->
     (before_call_returns p ->
      (exists r, snd requested_o = Calls.Resolves r)
      /\ (exists r, snd requested_a = Calls.Resolves r))
     /\ (exists r, snd (Calls.generate_with p requested_o) = Calls.Resolves r)
     /\ (exists r, snd (Calls.generate_with p requested_a) = Calls.Resolves r))
    /\ (forall e e',
           Calls.onBeforeCall p = Some (Some e) ->
           onError (Calls.hooks_of p) = true ->
           Calls.onError_does p 0 = Calls.Returns ->
           Calls.onError_does p 1 = Calls.Throws e' ->
           snd (Calls.generate_with p requested_o) = Calls.Rejects e'
           /\ snd (Calls.generate_with p requested_a) = Calls.Rejects e').
Proof.
  intros stringify parse_json o a p f Hs requested_o requested_a.
  subst requested_o requested_a. split.
  - intros Hret. split; [|split; now apply generate_with_resolves].
    intros Hb. unfold before_call_returns in Hb.
    unfold OpenAIRequest.request, AnthropicRequest.request. rewrite Hs.
    destruct (openai_non_streaming_resolves parse_json p Hs Hret f)
      as [ro Ho].
    destruct (anthropic_non_streaming_resolves parse_json p Hs Hret f)
      as [ra Ha].
    destruct (OpenAIRequest.non_streaming parse_json p f) as [so xo].
    destruct (AnthropicRequest.non_streaming parse_json p f) as [sa xa].
    cbn [snd] in *. subst xo xa.
    destruct (Calls.onBeforeCall p) as [[e|]|]; [contradiction| |];
      cbn [snd]; eauto.
  - intros e e' Hb Hon H0 H1.
    unfold Calls.generate_with, Calls.generate, OpenAIRequest.request,
      AnthropicRequest.request, OpenAIRequest.call_onError,
      AnthropicRequest.call_onError.
    rewrite Hb, Hon, H0. cbn. rewrite ?Hon, H1. now split.
Qed.

(** X14 on a call whose [onBeforeCall] throws: with an [onError] that
    returns the call resolves, with one that throws when called again it
    rejects. *)
Lemma generate_resolves_without_streaming_witness :
  (exists r,
      snd (Calls.generate_with (refusing_params None returning)
             (OpenAIRequest.request no_stringify JSON_parse openai_options
                (refusing_params None returning)
                (Calls.Responds completion None None)))
      = Calls.Resolves r)
  /\ snd (Calls.generate_with (refusing_params None throwing_later)
            (OpenAIRequest.request no_stringify JSON_parse openai_options
               (refusing_params None throwing_later)
               (Calls.Responds completion None None)))
     = Calls.Rejects (ApiError "onError failed").
Proof.
  split.
  - exact (proj1 (proj2 (proj1 (generate_resolves_without_streaming
                                  no_stringify JSON_parse openai_options
                                  anthropic_options
                                  (refusing_params None returning)
                                  (Calls.Responds completion None None)
                                  eq_refl)
                           (fun n => eq_refl)))).
  - exact (proj1 (proj2 (generate_resolves_without_streaming no_stringify
                           JSON_parse openai_options anthropic_options
                           (refusing_params None throwing_later)
                           (Calls.Responds completion None None) eq_refl)
                    (ApiError "not now") (ApiError "onError failed")
                    eq_refl eq_refl eq_refl eq_refl)).
Defined.

(** X15.  When the [onBeforeCall] hook throws, no request is sent:
    [request] makes no [fetch] and calls [onError] once, [generate] calls it
    a second time.  With an [onError] that returns, [request] rejects with
    the hook's error, also in non-streaming mode, where [generate] then
    resolves with the error result. *)
Theorem onBeforeCall_failure_stops_the_call :
  forall stringify parse_json openai anthropic (p : Calls.params) e f,
    Calls.onBeforeCall p = Some (Some e) ->
    let requested_o :=
      OpenAIRequest.request stringify parse_json openai p f in
    let requested_a := AnthropicRequest.request parse_json anthropic p f in
    (filter is_fetch (fst requested_o) = []
     /\ onError_calls (fst (Calls.generate_with p requested_o))
        = (if onError (Calls.hooks_of p) then 2 else 0)
     /\ (onError_returns p ->
         snd requested_o = Calls.Rejects e
         /\ snd (Calls.generate_with p requested_o)
            = if Calls.streaming p then Calls.Rejects e
              else Calls.Resolves Calls.error_result))
    /\
    (filter is_fetch (fst requested_a) = []
     /\ onError_calls (fst (Calls.generate_with p requested_a))
        = (if onError (Calls.hooks_of p) then 2 else 0)
     /\ (onError_returns p ->
         snd requested_a = Calls.Rejects e
         /\ snd (Calls.generate_with p requested_a)
            = if Calls.streaming p then Calls.Rejects e
              else Calls.Resolves Calls.error_result)).
Proof.
  intros stringify parse_json o a p e f Hb requested_o requested_a.
  subst requested_o requested_a.
  unfold Calls.generate_with, Calls.generate, OpenAIRequest.request,
    AnthropicRequest.request, OpenAIRequest.call_onError,
    AnthropicRequest.call_onError.
  rewrite Hb.
  destruct (onError (Calls.hooks_of p)) eqn:Hon; cbn; rewrite ?Hon; cbn;
    (split; (split; [reflexivity|]; split; [reflexivity|]);
     intros Hret; try rewrite (Hret 0); try rewrite (Hret 1); cbn;
     now split).
Qed.

(** X15 on a non-streaming call. *)
Lemma onBeforeCall_failure_stops_the_call_witness :
  snd (Calls.generate_with (refusing_params None returning)
         (OpenAIRequest.request no_stringify JSON_parse openai_options
            (refusing_params None returning)
            (Calls.Responds completion None None)))
  = Calls.Resolves Calls.error_result.
Proof.
  exact (proj2 (proj2 (proj2 (proj1
           (onBeforeCall_failure_stops_the_call no_stringify JSON_parse
              openai_options anthropic_options (refusing_params None returning)
              (ApiError "not now") (Calls.Responds completion None None)
              eq_refl))) (fun n => eq_refl))).
Defined.

(** ** What the statements of [processChunk] keep *)

Section OpenAIFrames.

Variable parse_json : string -> option value.
Variable h : hooks.
Variable R : OpenAI.state -> OpenAI.state -> Prop.

Hypothesis R_refl : forall st, R st st.
Hypothesis R_trans : forall a b c, R a b -> R b c -> R a c.
Hypothesis R_content :
  forall st s,
    onMessage h = true ->
    R st (OpenAI.set_content (OpenAI.aggregatedContent st ++ s) st).
Hypothesis R_tool_calls :
  forall st ds,
    onMessage h = true ->
    R st (OpenAI.set_tool_calls
            (fst (OpenAI.forEach_tool_call ds (OpenAI.aggregatedToolCalls st)))
            st).
Hypothesis R_stop_reason : forall st v, R st (OpenAI.set_stop_reason v st).
Hypothesis R_usage : forall st u, R st (OpenAI.set_usage u st).
Hypothesis R_emit :
  forall st e, is_onFinish e = false -> R st (OpenAI.emit e st).

Lemma openai_keeps_skip : openai_keeps R OpenAI.skip.
Proof. intros st. apply R_refl. Qed.

Lemma openai_keeps_throw e : openai_keeps R (OpenAI.throw e).
Proof. intros st. apply R_refl. Qed.

Lemma openai_keeps_assign f :
  (forall st, R st (f st)) -> openai_keeps R (OpenAI.assign f).
Proof. intros Hf st. apply Hf. Qed.

Lemma openai_keeps_seq a b :
  openai_keeps R a -> openai_keeps R b -> openai_keeps R (OpenAI.seq a b).
Proof.
  intros Ha Hb st. unfold OpenAI.seq. specialize (Ha st).
  destruct (a st) as [st' [e|]]; cbn [fst] in *; [exact Ha|].
  eapply R_trans; [exact Ha | apply Hb].
Qed.

Lemma openai_keeps_eval {A : Type} (r : res A) (k : A -> OpenAI.stmt) :
  (forall a, openai_keeps R (k a)) -> openai_keeps R (OpenAI.eval r k).
Proof.
  intros Hk. destruct r as [a|e]; cbn; [apply Hk | apply openai_keeps_throw].
Qed.

Lemma openai_keeps_call_onMessage t data rawChunk :
  openai_keeps R (OpenAI.call_onMessage t data rawChunk).
Proof. apply openai_keeps_assign. intros st. now apply R_emit. Qed.

Lemma openai_keeps_classify chunkData :
  onMessage h = true -> openai_keeps R (OpenAI.classify chunkData).
Proof.
  intros Hm. unfold OpenAI.classify. apply openai_keeps_eval. intros choices.
  destruct (truthy (oget (oget (oindex0 choices) "delta") "content")).
  { apply openai_keeps_seq; [|apply openai_keeps_call_onMessage].
    apply openai_keeps_assign. intros st. now apply R_content. }
  destruct (truthy (oget (oget (oindex0 choices) "delta") "tool_calls"));
    [|apply openai_keeps_call_onMessage].
  destruct (field (oget (oindex0 choices) "delta") "tool_calls")
    as [ | |b|z| |s|ds|m]; try apply openai_keeps_throw.
  apply openai_keeps_seq; [|apply openai_keeps_call_onMessage].
  intros st. pose proof (R_tool_calls st ds Hm) as Htc.
  destruct (OpenAI.forEach_tool_call ds (OpenAI.aggregatedToolCalls st))
    as [tcs thrown].
  exact Htc.
Qed.

Lemma openai_keeps_update_stop_reason chunkData :
  openai_keeps R (OpenAI.update_stop_reason chunkData).
Proof.
  unfold OpenAI.update_stop_reason. apply openai_keeps_eval. intros choices.
  destruct (truthy (oget (oindex0 choices) "finish_reason"));
    [|apply openai_keeps_skip].
  apply openai_keeps_assign. intros st. apply R_stop_reason.
Qed.

Lemma openai_keeps_update_usage chunkData :
  openai_keeps R (OpenAI.update_usage chunkData).
Proof.
  unfold OpenAI.update_usage. apply openai_keeps_eval. intros u.
  destruct (truthy u); [|apply openai_keeps_skip].
  apply openai_keeps_assign. intros st. apply R_usage.
Qed.

Lemma openai_keeps_on_chunk_data chunkData :
  openai_keeps R (OpenAI.on_chunk_data h chunkData).
Proof.
  unfold OpenAI.on_chunk_data.
  apply openai_keeps_seq;
    [|apply openai_keeps_seq;
      [apply openai_keeps_update_stop_reason | apply openai_keeps_update_usage]].
  generalize (openai_keeps_classify chunkData).
  case (onMessage h); intros Hcl;
    [now apply Hcl | apply openai_keeps_skip].
Qed.

Lemma openai_keeps_on_catch e dataStr st :
  R st (OpenAI.on_catch h e dataStr st).
Proof.
  unfold OpenAI.on_catch.
  destruct (onError h); [|now apply R_emit].
  eapply R_trans; [|now apply R_emit]. now apply R_emit.
Qed.

Lemma openai_keeps_process_line line st :
  R st (fst (OpenAI.process_line parse_json h line st)).
Proof.
  unfold OpenAI.process_line.
  destruct (startsWith line "data: "); [|apply R_refl].
  destruct (String.eqb (substring_from 6 line) "[DONE]"); [apply R_refl|].
  destruct (parse_json (substring_from 6 line)) as [chunkData|].
  - pose proof (openai_keeps_on_chunk_data chunkData st) as Hc.
    destruct (OpenAI.on_chunk_data h chunkData st) as [st' [e|]];
      cbn [fst] in *; [|exact Hc].
    eapply R_trans; [exact Hc | apply openai_keeps_on_catch].
  - cbn [fst]. apply openai_keeps_on_catch.
Qed.

Lemma openai_keeps_process_lines lines st :
  R st (OpenAI.process_lines parse_json h lines st).
Proof.
  revert st. induction lines as [|line lines IH]; intros st; [apply R_refl|].
  cbn [OpenAI.process_lines].
  pose proof (openai_keeps_process_line line st) as Hl.
  destruct (OpenAI.process_line parse_json h line st) as [st' [|]];
    cbn [fst] in Hl; [|exact Hl].
  eapply R_trans; [exact Hl | apply IH].
Qed.

Lemma openai_keeps_processChunk chunkStr st :
  R st (OpenAI.processChunk parse_json h chunkStr st).
Proof. apply openai_keeps_process_lines. Qed.

End OpenAIFrames.

(** ** The hooks and the aggregate over a whole run *)

Section OpenAIRuns.

Variable parse_json : string -> option value.
Variable h : hooks.

Lemma onFinish_calls_emit {M U : Type} (t : list (effect M U)) (e : effect M U) :
  onFinish_calls (t ++ [e])%list
  = onFinish_calls t + (if is_onFinish e then 1 else 0).
Proof.
  unfold onFinish_calls. rewrite filter_app, length_app. cbn.
  now destruct (is_onFinish e).
Qed.

Lemma openai_onFinish_calls_emit st e :
  onFinish_calls (OpenAI.trace (OpenAI.emit e st))
  = onFinish_calls (OpenAI.trace st) + (if is_onFinish e then 1 else 0).
Proof. exact (onFinish_calls_emit (OpenAI.trace st) e). Qed.

Lemma openai_processChunk_onFinish_calls chunkStr st :
  onFinish_calls (OpenAI.trace (OpenAI.processChunk parse_json h chunkStr st))
  = onFinish_calls (OpenAI.trace st).
Proof.
  apply (openai_keeps_processChunk parse_json h
           (fun a b => onFinish_calls (OpenAI.trace b)
                       = onFinish_calls (OpenAI.trace a)));
    try reflexivity.
  - intros a b c Hab Hbc. now rewrite Hbc.
  - intros a e He. rewrite openai_onFinish_calls_emit, He. lia.
Qed.

Lemma openai_on_fatal_onFinish_calls e r :
  onFinish_calls (OpenAI.trace (OpenAI.agg (OpenAI.on_fatal h e r)))
  = onFinish_calls (OpenAI.trace (OpenAI.agg r))
  /\ OpenAI.finished (OpenAI.on_fatal h e r) = OpenAI.finished r.
Proof.
  unfold OpenAI.on_fatal. cbn [OpenAI.agg OpenAI.finished].
  destruct (onError h); split; try reflexivity.
  rewrite openai_onFinish_calls_emit. cbn [is_onFinish]. lia.
Qed.

Lemma openai_finally_onFinish r :
  let r' := OpenAI.finally h r in
  OpenAI.finished r' = true
  /\ onFinish_calls (OpenAI.trace (OpenAI.agg r'))
     = onFinish_calls (OpenAI.trace (OpenAI.agg r))
       + (if onFinish h then 1 else 0)
  /\ (onFinish h = true ->
      In (OnFinish (OpenAI.finalResponse (OpenAI.agg r'))
                   (OpenAI.usage (OpenAI.agg r'))
                   (OpenAI.stopReason (OpenAI.agg r')))
         (OpenAI.trace (OpenAI.agg r'))).
Proof.
  unfold OpenAI.finally. cbv zeta. cbn [OpenAI.agg OpenAI.finished].
  destruct (onFinish h).
  - split; [reflexivity|].
    split; [now rewrite openai_onFinish_calls_emit|].
    intros _. cbn [OpenAI.emit OpenAI.trace]. apply in_or_app. right.
    now left.
  - split; [reflexivity|]. split; [lia | discriminate].
Qed.

Lemma openai_aggregate_step (w : OpenAI.world) (ev : event) :
  OpenAI.finished (OpenAI.run w) = true ->
  OpenAI.run (OpenAI.step parse_json h w ev)
  = {| OpenAI.agg := OpenAI.agg (OpenAI.run w);
       OpenAI.out := OpenAI.out (OpenAI.run (OpenAI.step parse_json h w ev));
       OpenAI.finished := true |}.
Proof.
  intros Hf. destruct ev as [rr| |a]; cbn.
  - unfold OpenAI.on_read. rewrite Hf. destruct (OpenAI.run w); cbn in *.
    now subst.
  - now rewrite Hf.
  - destruct (OpenAI.run w); cbn in *. now subst.
Qed.

(** X16.  The OpenAI read loop calls [onFinish] exactly once, when it
    ends, and never before: in every run, whatever the chunks, the reads
    of the consumer and the accessor calls, the number of [onFinish] calls
    is one if the hook was passed and the loop has ended, and zero
    otherwise.  The call carries the message, usage and stop reason that
    the accessors answer with from then on. *)
Theorem openai_onFinish_called_once :
  forall evs,
    let r := OpenAI.run
               (OpenAI.exec parse_json h evs OpenAI.request_returned) in
    onFinish_calls (OpenAI.trace (OpenAI.agg r))
    = (if (onFinish h && OpenAI.finished r)%bool then 1 else 0)
    /\ (onFinish h = true -> OpenAI.finished r = true ->
        In (OnFinish (OpenAI.finalResponse (OpenAI.agg r))
                     (OpenAI.usage (OpenAI.agg r))
                     (OpenAI.stopReason (OpenAI.agg r)))
           (OpenAI.trace (OpenAI.agg r))).
Proof.
  intros evs.
  set (I := fun r : OpenAI.run_state =>
              onFinish_calls (OpenAI.trace (OpenAI.agg r))
              = (if (onFinish h && OpenAI.finished r)%bool then 1 else 0)
              /\ (onFinish h = true -> OpenAI.finished r = true ->
                  In (OnFinish (OpenAI.finalResponse (OpenAI.agg r))
                               (OpenAI.usage (OpenAI.agg r))
                               (OpenAI.stopReason (OpenAI.agg r)))
                     (OpenAI.trace (OpenAI.agg r)))).
  change (I (OpenAI.run
               (OpenAI.exec parse_json h evs OpenAI.request_returned))).
  assert (Hfin : forall r,
             OpenAI.finished r = false ->
             onFinish_calls (OpenAI.trace (OpenAI.agg r)) = 0 ->
             I (OpenAI.finally h r)).
  { intros r Hf H0. destruct (openai_finally_onFinish r) as (Hf' & Hc & Hin).
    split; [|intros Hon _; now apply Hin].
    rewrite Hc, H0, Hf'. now destruct (onFinish h). }
  assert (H0 : I (OpenAI.run OpenAI.request_returned)).
  { split; cbn; [now rewrite andb_false_r | discriminate]. }
  revert H0. generalize OpenAI.request_returned.
  induction evs as [|ev evs IH]; intros w Hw; [exact Hw|].
  cbn [OpenAI.exec fold_left]. apply IH.
  destruct (OpenAI.finished (OpenAI.run w)) eqn:Hf.
  { rewrite (openai_aggregate_step w ev Hf). destruct Hw as [Hc Hin].
    rewrite Hf in Hc, Hin. split; cbn; assumption. }
  destruct Hw as [Hc _]. rewrite Hf, andb_false_r in Hc.
  destruct ev as [rr| |a]; cbn [OpenAI.step OpenAI.run].
  - unfold OpenAI.on_read. rewrite Hf. destruct rr as [c| |e].
    + pose proof (openai_processChunk_onFinish_calls c
                    (OpenAI.agg (OpenAI.run w))) as Hp.
      rewrite Hc in Hp.
      destruct (OpenAI.live_lines parse_json (OpenAI.lines_of c)
                                  (OpenAI.out (OpenAI.run w))) as [out' [| |e]].
      * split; cbn; [now rewrite Hp, andb_false_r | discriminate].
      * now apply Hfin.
      * apply Hfin.
        -- now rewrite (proj2 (openai_on_fatal_onFinish_calls e _)).
        -- now rewrite (proj1 (openai_on_fatal_onFinish_calls e _)).
    + now apply Hfin.
    + apply Hfin.
      * now rewrite (proj2 (openai_on_fatal_onFinish_calls e _)).
      * now rewrite (proj1 (openai_on_fatal_onFinish_calls e _)).
  - split; cbn; [now rewrite Hc, Hf, andb_false_r | rewrite Hf; discriminate].
  - split; cbn; [now rewrite Hc, Hf, andb_false_r | rewrite Hf; discriminate].
Qed.

Lemma forEach_tool_call_length ds tcs :
  List.length tcs <= List.length (fst (OpenAI.forEach_tool_call ds tcs)).
Proof.
  revert tcs. induction ds as [|d ds IH]; intros tcs; [cbn; lia|].
  cbn [OpenAI.forEach_tool_call].
  destruct (OpenAI.tool_call_step tcs d) as [tcs'|e] eqn:Hs; [|cbn; lia].
  etransitivity; [|apply IH].
  unfold OpenAI.tool_call_step in Hs.
  destruct (get d "index") as [index|]; [|discriminate].
  destruct (ge_length index (List.length tcs)).
  { injection Hs as <-. rewrite length_app. cbn. lia. }
  destruct (element_index tcs index) as [i|].
  - injection Hs as <-.
    repeat match goal with
           | |- context [if ?b then _ else _] => destruct b
           end; rewrite ?length_update_nth; lia.
  - destruct (truthy _ || truthy _)%bool; [discriminate|].
    injection Hs as <-. lia.
Qed.

Lemma openai_processChunk_grows chunkStr st :
  let st' := OpenAI.processChunk parse_json h chunkStr st in
  (exists t, OpenAI.aggregatedContent st' = OpenAI.aggregatedContent st ++ t)
  /\ List.length (OpenAI.aggregatedToolCalls st)
     <= List.length (OpenAI.aggregatedToolCalls st').
Proof.
  apply (openai_keeps_processChunk parse_json h
           (fun a b =>
              (exists t, OpenAI.aggregatedContent b
                         = OpenAI.aggregatedContent a ++ t)
              /\ List.length (OpenAI.aggregatedToolCalls a)
                 <= List.length (OpenAI.aggregatedToolCalls b))).
  - intros a. split; [exists EmptyString; now rewrite append_empty_r | lia].
  - intros a b c [[t1 H1] L1] [[t2 H2] L2]. split; [|lia].
    exists (t1 ++ t2). now rewrite H2, H1, append_assoc.
  - intros a s _. cbn. split; [now exists s | lia].
  - intros a ds _. cbn. split; [|apply forEach_tool_call_length].
    exists EmptyString. now rewrite append_empty_r.
  - intros a v. cbn. split; [|lia].
    exists EmptyString. now rewrite append_empty_r.
  - intros a u. cbn. split; [|lia].
    exists EmptyString. now rewrite append_empty_r.
  - intros a e _. cbn. split; [|lia].
    exists EmptyString. now rewrite append_empty_r.
Qed.

Lemma openai_finally_agg r :
  OpenAI.aggregatedContent (OpenAI.agg (OpenAI.finally h r))
  = OpenAI.aggregatedContent (OpenAI.agg r)
  /\ OpenAI.aggregatedToolCalls (OpenAI.agg (OpenAI.finally h r))
     = OpenAI.aggregatedToolCalls (OpenAI.agg r).
Proof. unfold OpenAI.finally. cbn. now destruct (onFinish h). Qed.

Lemma openai_on_fatal_agg e r :
  OpenAI.aggregatedContent (OpenAI.agg (OpenAI.on_fatal h e r))
  = OpenAI.aggregatedContent (OpenAI.agg r)
  /\ OpenAI.aggregatedToolCalls (OpenAI.agg (OpenAI.on_fatal h e r))
     = OpenAI.aggregatedToolCalls (OpenAI.agg r).
Proof. unfold OpenAI.on_fatal. cbn. now destruct (onError h). Qed.

(** What one event does to the content and the tool calls: nothing, or
    what [processChunk] does to them. *)
Lemma openai_step_agg (w : OpenAI.world) (ev : event) :
  let a := OpenAI.agg (OpenAI.run w) in
  let a' := OpenAI.agg (OpenAI.run (OpenAI.step parse_json h w ev)) in
  (OpenAI.aggregatedContent a' = OpenAI.aggregatedContent a
   /\ OpenAI.aggregatedToolCalls a' = OpenAI.aggregatedToolCalls a)
  \/ exists c,
      OpenAI.aggregatedContent a'
      = OpenAI.aggregatedContent (OpenAI.processChunk parse_json h c a)
      /\ OpenAI.aggregatedToolCalls a'
         = OpenAI.aggregatedToolCalls (OpenAI.processChunk parse_json h c a).
Proof.
  destruct ev as [rr| |a]; cbn; try (left; now split).
  unfold OpenAI.on_read.
  destruct (OpenAI.finished (OpenAI.run w)); [left; now split|].
  destruct rr as [c| |e].
  - right. exists c.
    destruct (OpenAI.live_lines parse_json (OpenAI.lines_of c)
                                (OpenAI.out (OpenAI.run w))) as [out' [| |e]].
    + now split.
    + apply openai_finally_agg.
    + destruct (openai_finally_agg
                  (OpenAI.on_fatal h e
                     {| OpenAI.agg :=
                          OpenAI.processChunk parse_json h c
                            (OpenAI.agg (OpenAI.run w));
                        OpenAI.out := out'; OpenAI.finished := false |}))
        as [-> ->].
      apply openai_on_fatal_agg.
  - left. apply openai_finally_agg.
  - left. destruct (openai_finally_agg (OpenAI.on_fatal h e (OpenAI.run w)))
      as [-> ->].
    apply openai_on_fatal_agg.
Qed.

(** X17.  The OpenAI aggregate only grows: in every run, the content
    aggregated at a later moment starts with the content aggregated at an
    earlier one, and the list of tool calls is at least as long.  Text
    once aggregated is never rewritten or dropped, also when a later frame
    is malformed, a read fails or the stream ends. *)
Theorem openai_aggregate_only_grows :
  forall evs1 evs2,
    let before :=
      OpenAI.agg (OpenAI.run (OpenAI.exec parse_json h evs1
                                          OpenAI.request_returned)) in
    let after :=
      OpenAI.agg (OpenAI.run (OpenAI.exec parse_json h (evs1 ++ evs2)
                                          OpenAI.request_returned)) in
    (exists t, OpenAI.aggregatedContent after
               = OpenAI.aggregatedContent before ++ t)
    /\ List.length (OpenAI.aggregatedToolCalls before)
       <= List.length (OpenAI.aggregatedToolCalls after).
Proof.
  intros evs1 evs2. cbv zeta. unfold OpenAI.exec. rewrite fold_left_app.
  generalize (fold_left (OpenAI.step parse_json h) evs1
                        OpenAI.request_returned).
  induction evs2 as [|ev evs IH]; intros w.
  { cbn. split; [exists EmptyString; now rewrite append_empty_r | lia]. }
  cbn [fold_left].
  destruct (IH (OpenAI.step parse_json h w ev)) as [[t Ht] Hl].
  destruct (openai_step_agg w ev) as [[Hc Htc]|[c [Hc Htc]]].
  - rewrite Hc in Ht. rewrite Htc in Hl. split; [now exists t | exact Hl].
  - destruct (openai_processChunk_grows c (OpenAI.agg (OpenAI.run w)))
      as [[t0 Ht0] Hl0].
    rewrite Hc, Ht0 in Ht. rewrite Htc in Hl. split; [|lia].
    exists (t0 ++ t). now rewrite Ht, append_assoc.
Qed.

Lemma openai_processChunk_without_onMessage chunkStr st :
  onMessage h = false ->
  let st' := OpenAI.processChunk parse_json h chunkStr st in
  OpenAI.aggregatedContent st' = OpenAI.aggregatedContent st
  /\ OpenAI.aggregatedToolCalls st' = OpenAI.aggregatedToolCalls st.
Proof.
  intros Hm.
  apply (openai_keeps_processChunk parse_json h
           (fun a b =>
              OpenAI.aggregatedContent b = OpenAI.aggregatedContent a
              /\ OpenAI.aggregatedToolCalls b = OpenAI.aggregatedToolCalls a));
    try (intros; now split); try congruence.
  intros a b c [H1 H2] [H3 H4]. split; congruence.
Qed.

(** X18.  Without an [onMessage] hook the OpenAI provider aggregates
    nothing: the content stays empty and no tool call is recorded,
    whatever the stream delivers, so every [finalResponse()] answers with
    an empty message, and so does the [onFinish] call. *)
Theorem openai_without_onMessage_aggregates_nothing :
  forall evs,
    onMessage h = false ->
    let w := OpenAI.exec parse_json h evs OpenAI.request_returned in
    OpenAI.finalResponse (OpenAI.agg (OpenAI.run w)) = empty_message
    /\ (forall m, In (OpenAI.AMessage m) (OpenAI.answers w) ->
                  m = empty_message)
    /\ (forall m u s, In (OnFinish m u s) (OpenAI.trace (OpenAI.agg (OpenAI.run w))) ->
                      m = empty_message).
Proof.
  intros evs Hm.
  set (I := fun w : OpenAI.world =>
              (OpenAI.aggregatedContent (OpenAI.agg (OpenAI.run w))
               = EmptyString
               /\ OpenAI.aggregatedToolCalls (OpenAI.agg (OpenAI.run w)) = [])
              /\ (forall m, In (OpenAI.AMessage m) (OpenAI.answers w) ->
                            m = empty_message)
              /\ (forall m u s,
                     In (OnFinish m u s)
                        (OpenAI.trace (OpenAI.agg (OpenAI.run w))) ->
                     m = empty_message)).
  assert (HI : I (OpenAI.exec parse_json h evs OpenAI.request_returned)).
  2:{ destruct HI as ([Hc Ht] & Ha & Hf). cbv zeta. split; [|now split].
      unfold OpenAI.finalResponse, empty_message. now rewrite Hc, Ht. }
  assert (H0 : I OpenAI.request_returned).
  { split; [now split|]. split; [intros m []|intros m u s []]. }
  revert H0. generalize OpenAI.request_returned.
  induction evs as [|ev evs IH]; intros w Hw; [exact Hw|].
  cbn [OpenAI.exec fold_left]. apply IH. clear IH.
  destruct Hw as ([Hc Ht] & Ha & Hf).
  assert (Hempty : forall st,
             OpenAI.aggregatedContent st = EmptyString ->
             OpenAI.aggregatedToolCalls st = [] ->
             OpenAI.finalResponse st = empty_message).
  { intros st H1 H2. unfold OpenAI.finalResponse, empty_message.
    now rewrite H1, H2. }
  (* the trace after [processChunk] has no new [onFinish] call *)
  assert (Hchunk : forall c,
             let st' := OpenAI.processChunk parse_json h c
                          (OpenAI.agg (OpenAI.run w)) in
             (OpenAI.aggregatedContent st' = EmptyString
              /\ OpenAI.aggregatedToolCalls st' = [])
             /\ forall m u s, In (OnFinish m u s) (OpenAI.trace st') ->
                              m = empty_message).
  { intros c.
    destruct (openai_processChunk_without_onMessage c
                (OpenAI.agg (OpenAI.run w)) Hm) as [H1 H2].
    split; [split; congruence|].
    apply (openai_keeps_processChunk parse_json h
             (fun a b =>
                (forall m u s, In (OnFinish m u s) (OpenAI.trace a) ->
                               m = empty_message) ->
                forall m u s, In (OnFinish m u s) (OpenAI.trace b) ->
                              m = empty_message));
      try (intros; cbn in *; eauto; fail).
    intros a e He Hin m u s Hi. cbn in Hi. apply in_app_or in Hi.
    destruct Hi as [Hi|[Hi|[]]]; [eauto|]. subst e. discriminate. }
  assert (Hfatal : forall e r,
             (forall m u s, In (OnFinish m u s) (OpenAI.trace (OpenAI.agg r)) ->
                            m = empty_message) ->
             forall m u s,
               In (OnFinish m u s)
                  (OpenAI.trace (OpenAI.agg (OpenAI.on_fatal h e r))) ->
               m = empty_message).
  { intros e r Hr m u s. unfold OpenAI.on_fatal. cbn.
    destruct (onError h); [|apply Hr]. cbn. intros Hi.
    apply in_app_or in Hi. destruct Hi as [Hi|[Hi|[]]]; [eauto|discriminate]. }
  assert (Hfinally : forall r,
             OpenAI.aggregatedContent (OpenAI.agg r) = EmptyString ->
             OpenAI.aggregatedToolCalls (OpenAI.agg r) = [] ->
             (forall m u s, In (OnFinish m u s) (OpenAI.trace (OpenAI.agg r)) ->
                            m = empty_message) ->
             forall m u s,
               In (OnFinish m u s)
                  (OpenAI.trace (OpenAI.agg (OpenAI.finally h r))) ->
               m = empty_message).
  { intros r H1 H2 Hr m u s. unfold OpenAI.finally. cbn.
    destruct (onFinish h); [|apply Hr]. cbn. intros Hi.
    apply in_app_or in Hi. destruct Hi as [Hi|[Hi|[]]]; [eauto|].
    injection Hi as <- _ _. now apply Hempty. }
  destruct ev as [rr| |a]; cbn [OpenAI.step].
  - split; [|split; [exact Ha|]]; cbn [OpenAI.run OpenAI.answers];
      unfold OpenAI.on_read;
      destruct (OpenAI.finished (OpenAI.run w)); try (now split); try exact Hf;
      destruct rr as [c| |e].
    + destruct (Hchunk c) as [[H1 H2] _].
      destruct (OpenAI.live_lines parse_json (OpenAI.lines_of c)
                                  (OpenAI.out (OpenAI.run w))) as [out' [| |e]].
      * now split.
      * destruct (openai_finally_agg
                    {| OpenAI.agg := OpenAI.processChunk parse_json h c
                                       (OpenAI.agg (OpenAI.run w));
                       OpenAI.out := out'; OpenAI.finished := false |})
          as [-> ->]. now split.
      * destruct (openai_finally_agg
                    (OpenAI.on_fatal h e
                       {| OpenAI.agg := OpenAI.processChunk parse_json h c
                                          (OpenAI.agg (OpenAI.run w));
                          OpenAI.out := out'; OpenAI.finished := false |}))
          as [-> ->].
        destruct (openai_on_fatal_agg e
                    {| OpenAI.agg := OpenAI.processChunk parse_json h c
                                       (OpenAI.agg (OpenAI.run w));
                       OpenAI.out := out'; OpenAI.finished := false |})
          as [-> ->]. now split.
    + destruct (openai_finally_agg (OpenAI.run w)) as [-> ->]. now split.
    + destruct (openai_finally_agg (OpenAI.on_fatal h e (OpenAI.run w)))
        as [-> ->].
      destruct (openai_on_fatal_agg e (OpenAI.run w)) as [-> ->]. now split.
    + destruct (Hchunk c) as [[H1 H2] H3].
      destruct (OpenAI.live_lines parse_json (OpenAI.lines_of c)
                                  (OpenAI.out (OpenAI.run w))) as [out' [| |e]].
      * exact H3.
      * now apply Hfinally.
      * apply Hfinally.
        -- now rewrite (proj1 (openai_on_fatal_agg e _)).
        -- now rewrite (proj2 (openai_on_fatal_agg e _)).
        -- now apply Hfatal.
    + now apply Hfinally.
    + apply Hfinally.
      * now rewrite (proj1 (openai_on_fatal_agg e _)).
      * now rewrite (proj2 (openai_on_fatal_agg e _)).
      * now apply Hfatal.
  - split; [now split|]. split; [exact Ha | exact Hf].
  - split; [now split|]. split; [|exact Hf].
    cbn [OpenAI.answers]. intros m Hi. apply in_app_or in Hi.
    destruct Hi as [Hi|[Hi|[]]]; [eauto|].
    destruct a; cbn in Hi; try discriminate.
    injection Hi as <-. now apply Hempty.
Qed.

End OpenAIRuns.

(** X18 on two text deltas and the end of the body. *)
Lemma openai_without_onMessage_aggregates_nothing_witness :
  OpenAI.finalResponse
    (OpenAI.agg
       (OpenAI.run
          (OpenAI.exec JSON_parse without_onMessage
             [Read (Chunk (text_frame "Hel")); Read (Chunk (text_frame "lo"));
              Read Done]
             OpenAI.request_returned)))
  = empty_message.
Proof.
  exact (proj1 (openai_without_onMessage_aggregates_nothing JSON_parse
                  without_onMessage
                  [Read (Chunk (text_frame "Hel"));
                   Read (Chunk (text_frame "lo")); Read Done]
                  eq_refl)).
Defined.

(** ** The end of [textStream] *)

Section OpenAIStreamEnd.

Variable parse_json : string -> option value.
Variable h : hooks.

(** Once the read loop has ended only the consumer acts on [textStream]. *)
Lemma openai_finished_out (P : Streams.stream -> Prop) evs w :
  (forall s, P s -> P (Streams.pull s)) ->
  OpenAI.finished (OpenAI.run w) = true ->
  P (OpenAI.out (OpenAI.run w)) ->
  P (OpenAI.out (OpenAI.run (OpenAI.exec parse_json h evs w))).
Proof.
  intros Hpull. revert w.
  induction evs as [|ev evs IH]; intros w Hf HP; [exact HP|].
  cbn [OpenAI.exec fold_left].
  destruct ev as [rr| |a]; apply IH; cbn; try assumption.
  - unfold OpenAI.on_read. now rewrite Hf.
  - unfold OpenAI.on_read. now rewrite Hf.
  - now apply Hpull.
Qed.

Lemma pull_closed s :
  Streams.sstate s = Streams.Closed /\ Streams.queue s = [] ->
  Streams.sstate (Streams.pull s) = Streams.Closed
  /\ Streams.queue (Streams.pull s) = [].
Proof.
  intros [Hs Hq]. unfold Streams.pull, Streams.is_readable.
  rewrite Hq, Hs. now split.
Qed.

Lemma pull_open s :
  Streams.sstate s = Streams.Readable /\ Streams.closeRequested s = false ->
  Streams.sstate (Streams.pull s) = Streams.Readable
  /\ Streams.closeRequested (Streams.pull s) = false.
Proof.
  intros [Hs Hc]. unfold Streams.pull, Streams.is_readable.
  rewrite Hs, Hc. destruct (Streams.queue s) as [|v [|v' rest]]; now split.
Qed.

(** X20.  When the body ends without a [data: [DONE]] line, the [finally]
    clause closes [textStream] only if its queue is empty.  If the
    consumer has left a chunk unread, [desiredSize] is not positive, the
    test of the clause takes that for a closed stream, and [close] is not
    called: the stream stays open for good, so that a consumer that reads on
    gets the queued chunks and then waits for ever. *)
Theorem openai_end_of_body_closes_only_an_empty_queue :
  forall (w : OpenAI.world) evs,
    OpenAI.finished (OpenAI.run w) = false ->
    Streams.can_close_or_enqueue (OpenAI.out (OpenAI.run w)) = true ->
    let s := OpenAI.out
               (OpenAI.run
                  (OpenAI.exec parse_json h (Read Done :: evs) w)) in
    match Streams.queue (OpenAI.out (OpenAI.run w)) with
    | [] => Streams.sstate s = Streams.Closed
    | _ :: _ =>
        Streams.sstate s = Streams.Readable
        /\ Streams.closeRequested s = false
    end.
Proof.
  intros w evs Hf Hcan s. subst s. cbn [OpenAI.exec fold_left].
  change (fold_left (OpenAI.step parse_json h) evs)
    with (OpenAI.exec parse_json h evs).
  assert (Hstep : OpenAI.run (OpenAI.step parse_json h w (Read Done))
                  = OpenAI.finally h (OpenAI.run w)).
  { cbn. unfold OpenAI.on_read. now rewrite Hf. }
  unfold Streams.can_close_or_enqueue, Streams.is_readable in Hcan.
  destruct (Streams.closeRequested (OpenAI.out (OpenAI.run w))) eqn:Hc;
    [discriminate|].
  destruct (Streams.sstate (OpenAI.out (OpenAI.run w))) eqn:Hs;
    try discriminate.
  destruct (Streams.queue (OpenAI.out (OpenAI.run w))) as [|v q] eqn:Hq.
  - apply (openai_finished_out
             (fun s => Streams.sstate s = Streams.Closed
                       /\ Streams.queue s = [])).
    + exact pull_closed.
    + now rewrite Hstep.
    + rewrite Hstep. unfold OpenAI.finally, Streams.desiredSize,
        Streams.close, Streams.can_close_or_enqueue, Streams.is_readable.
      cbn [OpenAI.out]. rewrite Hs, Hq, Hc. cbn. now split.
  - apply (openai_finished_out
             (fun s => Streams.sstate s = Streams.Readable
                       /\ Streams.closeRequested s = false)).
    + exact pull_open.
    + now rewrite Hstep.
    + rewrite Hstep. unfold OpenAI.finally, Streams.desiredSize.
      cbn [OpenAI.out]. rewrite Hs, Hq.
      replace (Z.leb (1 - Z.of_nat (List.length (v :: q))) 0) with true
        by (symmetry; apply Z.leb_le; cbn [List.length]; lia).
      now split.
Qed.

(** X21.  A [data: [DONE]] line ends the read loop: the lines that follow
    it in its chunk, and every later chunk, change nothing; the aggregate
    is the one left by the lines before it. *)
Theorem openai_done_line_ends_the_loop :
  forall (w : OpenAI.world) c l1 d l2 evs,
    OpenAI.finished (OpenAI.run w) = false ->
    OpenAI.lines_of c = (l1 ++ d :: l2)%list ->
    existsb OpenAI.is_done l1 = false ->
    OpenAI.is_done d = true ->
    let w' := OpenAI.exec parse_json h (Read (Chunk c) :: evs) w in
    OpenAI.finished (OpenAI.run w') = true
    /\ OpenAI.aggregate (OpenAI.agg (OpenAI.run w'))
       = OpenAI.aggregate
           (OpenAI.process_lines parse_json h l1 (OpenAI.agg (OpenAI.run w))).
Proof.
  intros w c l1 d l2 evs Hf Hlines Hl1 Hd w'. subst w'.
  cbn [OpenAI.exec fold_left].
  change (fold_left (OpenAI.step parse_json h) evs)
    with (OpenAI.exec parse_json h evs).
  assert (Hstep : OpenAI.finished
                    (OpenAI.run (OpenAI.step parse_json h w (Read (Chunk c))))
                  = true
                  /\ OpenAI.aggregate
                       (OpenAI.agg
                          (OpenAI.run
                             (OpenAI.step parse_json h w (Read (Chunk c)))))
                     = OpenAI.aggregate
                         (OpenAI.process_lines parse_json h l1
                            (OpenAI.agg (OpenAI.run w)))).
  { cbn [OpenAI.step OpenAI.run]. unfold OpenAI.on_read. rewrite Hf.
    unfold OpenAI.processChunk. rewrite Hlines.
    rewrite (process_lines_app parse_json h), Hl1.
    cbn [OpenAI.process_lines].
    assert (Hline : forall st,
               OpenAI.process_line parse_json h d st = (st, OpenAI.Return)).
    { intros st. unfold OpenAI.process_line. unfold OpenAI.is_done in Hd.
      apply andb_prop in Hd. destruct Hd as [-> ->]. reflexivity. }
    rewrite Hline.
    destruct (live_lines_app_open parse_json l1 (d :: l2)
                (OpenAI.out (OpenAI.run w)) Hl1) as [-> _].
    cbn [OpenAI.live_lines].
    pose proof (live_line_done parse_json d
                  (fst (OpenAI.live_lines parse_json l1
                          (OpenAI.out (OpenAI.run w)))) Hd) as Hne.
    destruct (OpenAI.live_line parse_json d
                (fst (OpenAI.live_lines parse_json l1
                        (OpenAI.out (OpenAI.run w))))) as [out' [| |e]];
      cbn [snd] in Hne; [contradiction| |].
    - split; [reflexivity|]. now rewrite openai_finally_aggregate.
    - split; [reflexivity|].
      now rewrite openai_finally_aggregate, openai_on_fatal_aggregate. }
  destruct Hstep as [Hfin Hagg].
  destruct (openai_finished_stable parse_json h evs _ Hfin) as [Hfin' Hagg'].
  split; [exact Hfin'|]. now rewrite Hagg'.
Qed.

End OpenAIStreamEnd.

(** X20 on one text delta that nobody has read when the body ends: two
    reads later the stream is still open. *)
Lemma openai_end_of_body_closes_only_an_empty_queue_witness :
  let s := OpenAI.out
             (OpenAI.run
                (OpenAI.exec JSON_parse all_hooks
                   [Read (Chunk (text_frame "Hi")); Read Done; Pull; Pull]
                   OpenAI.request_returned)) in
  Streams.sstate s = Streams.Readable /\ Streams.closeRequested s = false.
Proof.
  exact (openai_end_of_body_closes_only_an_empty_queue JSON_parse all_hooks
           (OpenAI.exec JSON_parse all_hooks [Read (Chunk (text_frame "Hi"))]
                        OpenAI.request_returned)
           [Pull; Pull] eq_refl eq_refl).
Defined.

(** X21 on a chunk with a text delta after its [data: [DONE]] line, and a
    later chunk. *)
Lemma openai_done_line_ends_the_loop_witness :
  OpenAI.aggregatedContent
    (OpenAI.agg
       (OpenAI.run
          (OpenAI.exec JSON_parse all_hooks
             [Read (Chunk (text_frame "Hi" ++ "data: [DONE]" ++ nl
                           ++ text_frame " there"));
              Read (Chunk (text_frame "!"))]
             OpenAI.request_returned)))
  = "Hi".
Proof.
  exact (f_equal (fun a => fst (fst (fst a)))
           (proj2 (openai_done_line_ends_the_loop JSON_parse all_hooks
                     OpenAI.request_returned
                     (text_frame "Hi" ++ "data: [DONE]" ++ nl
                      ++ text_frame " there")
                     ["data: " ++ text_payload "Hi"] "data: [DONE]"
                     ["data: " ++ text_payload " there"]
                     [Read (Chunk (text_frame "!"))]
                     eq_refl eq_refl eq_refl eq_refl))).
Defined.

(** ** What the statements of the Anthropic loop body keep *)

Section AnthropicFrames.

Variable parse_json : string -> option value.
Variable h : hooks.
Variable R : Anthropic.state -> Anthropic.state -> Prop.

Hypothesis R_refl : forall st, R st st.
Hypothesis R_trans : forall a b c, R a b -> R b c -> R a c.
Hypothesis R_text : forall st t, R st (Anthropic.set_text t st).
Hypothesis R_usage : forall st u, R st (Anthropic.set_usage u st).
Hypothesis R_stop_reason : forall st v, R st (Anthropic.set_stop_reason v st).
Hypothesis R_enqueue :
  forall st v s,
    Streams.enqueue v (Anthropic.textStream st) = Ok s ->
    R st (Anthropic.set_stream s st).
Hypothesis R_error : forall st e, R st (Anthropic.stream_error e st).
Hypothesis R_emit :
  forall st e, is_onFinish e = false -> R st (Anthropic.emit e st).















End AnthropicFrames.

(** ** The hooks and the stream over a whole Anthropic run *)

Section AnthropicRuns.

Variable parse_json : string -> option value.
Variable h : hooks.









End AnthropicRuns.

(** ** The end of the Anthropic [textStream] *)

Section AnthropicStreamEnd.

Variable parse_json : string -> option value.
Variable h : hooks.

Lemma errors_on_return_skip : anthropic_errors_on_return Anthropic.skip.
Proof. intros st Ho. exact Ho. Qed.

Lemma errors_on_return_throw e :
  anthropic_errors_on_return (Anthropic.throw e).
Proof. intros st Ho. exact Ho. Qed.

Lemma errors_on_return_break : anthropic_errors_on_return Anthropic.break.
Proof. intros st Ho. exact Ho. Qed.

Lemma errors_on_return_assign f :
  (forall st, stream_open st -> stream_open (f st)) ->
  anthropic_errors_on_return (Anthropic.assign f).
Proof. intros Hf st Ho. now apply Hf. Qed.

Lemma errors_on_return_seq a b :
  anthropic_errors_on_return a -> anthropic_errors_on_return b ->
  anthropic_errors_on_return (Anthropic.seq a b).
Proof.
  intros Ha Hb st Ho. unfold Anthropic.seq. specialize (Ha st Ho).
  destruct (a st) as [st' [| | |e]]; cbn [fst snd] in *; try exact Ha.
  now apply Hb.
Qed.

Lemma errors_on_return_eval {A : Type} (r : res A) (k : A -> Anthropic.stmt) :
  (forall a, anthropic_errors_on_return (k a)) ->
  anthropic_errors_on_return (Anthropic.eval r k).
Proof.
  intros Hk. destruct r as [a|e]; cbn;
    [apply Hk | apply errors_on_return_throw].
Qed.

Lemma stream_open_emit e st :
  stream_open st -> stream_open (Anthropic.emit e st).
Proof. intros Ho. exact Ho. Qed.

Lemma stream_open_call_onError e r st :
  stream_open st -> stream_open (Anthropic.call_onError h e r st).
Proof. unfold Anthropic.call_onError. now destruct (onError h). Qed.

Lemma errors_on_return_call_onMessage t data rawChunk :
  anthropic_errors_on_return (Anthropic.call_onMessage h t data rawChunk).
Proof.
  unfold Anthropic.call_onMessage.
  destruct (onMessage h); [|apply errors_on_return_skip].
  apply errors_on_return_assign. intros st. apply stream_open_emit.
Qed.

Lemma errors_on_return_stream_enqueue v :
  anthropic_errors_on_return (Anthropic.stream_enqueue v).
Proof.
  intros st [Hs Hc]. unfold Anthropic.stream_enqueue, Streams.enqueue,
    Streams.can_close_or_enqueue, Streams.is_readable.
  rewrite Hs, Hc. cbn [negb andb].
  destruct (Streams.pendingReads (Anthropic.textStream st)); now split.
Qed.

Lemma stream_error_errors e st :
  stream_open st -> stream_errored (Anthropic.stream_error e st).
Proof.
  intros [Hs Hc]. unfold stream_errored, Anthropic.stream_error,
    Streams.error, Streams.is_readable.
  rewrite Hs. cbn. split; [now exists e | reflexivity].
Qed.

(** The branch of the [error] event (lines 291-295). *)
Lemma errors_on_return_error_event err rawError :
  anthropic_errors_on_return
    (Anthropic.seq
       (Anthropic.assign (Anthropic.call_onError h err rawError))
       (Anthropic.seq (Anthropic.assign (Anthropic.stream_error err))
                      Anthropic.ret)).
Proof.
  intros st Ho. cbn. apply stream_error_errors.
  now apply stream_open_call_onError.
Qed.

Lemma errors_on_return_on_event eventName eventData :
  anthropic_errors_on_return (Anthropic.on_event h eventName eventData).
Proof.
  unfold Anthropic.on_event.
  repeat match goal with
         | |- anthropic_errors_on_return (if ?b then _ else _) => destruct b
         | |- anthropic_errors_on_return (let _ := _ in _) => cbv zeta
         | |- anthropic_errors_on_return
                (Anthropic.seq (Anthropic.assign (Anthropic.call_onError _ _ _))
                               _) =>
             apply errors_on_return_error_event
         | |- anthropic_errors_on_return (Anthropic.seq _ _) =>
             apply errors_on_return_seq
         | |- anthropic_errors_on_return (Anthropic.eval _ _) =>
             apply errors_on_return_eval; intros ?
         | |- anthropic_errors_on_return (Anthropic.call_onMessage _ _ _ _) =>
             apply errors_on_return_call_onMessage
         | |- anthropic_errors_on_return (Anthropic.stream_enqueue _) =>
             apply errors_on_return_stream_enqueue
         | |- anthropic_errors_on_return Anthropic.skip =>
             apply errors_on_return_skip
         | |- anthropic_errors_on_return Anthropic.break =>
             apply errors_on_return_break
         | |- anthropic_errors_on_return (Anthropic.assign _) =>
             apply errors_on_return_assign; intros ? ?
         end;
    assumption.
Qed.

Lemma errors_on_return_process_event eventLine :
  anthropic_errors_on_return (Anthropic.process_event parse_json h eventLine).
Proof.
  intros st Ho. unfold Anthropic.process_event.
  destruct (Anthropic.scan_lines (split nl eventLine) None EmptyString)
    as [[name|] dataStr]; [|exact Ho].
  destruct (is_empty name || is_empty dataStr)%bool; [exact Ho|].
  destruct (parse_json dataStr) as [eventData|].
  - pose proof (errors_on_return_on_event name eventData st Ho) as He.
    destruct (Anthropic.on_event h name eventData st) as [st' [| | |e]];
      cbn [fst snd] in *; try exact He.
    unfold Anthropic.on_catch. now apply stream_open_call_onError.
  - cbn [fst snd]. unfold Anthropic.on_catch.
    now apply stream_open_call_onError.
Qed.

Lemma errors_on_return_process_events eventLines :
  anthropic_errors_on_return
    (Anthropic.process_events parse_json h eventLines).
Proof.
  induction eventLines as [|eventLine rest IH];
    [apply errors_on_return_skip|].
  cbn [Anthropic.process_events].
  apply errors_on_return_seq; [apply errors_on_return_process_event | exact IH].
Qed.

Lemma stream_errored_finally st :
  stream_errored st -> stream_errored (Anthropic.finally h st).
Proof.
  intros [[e He] Hq].
  assert (Hclose : Anthropic.stream_close st = st).
  { unfold Anthropic.stream_close, Streams.close,
      Streams.can_close_or_enqueue, Streams.is_readable.
    rewrite He. now rewrite andb_false_r. }
  unfold Anthropic.finally. cbv zeta. rewrite Hclose.
  unfold stream_errored.
  destruct (onFinish h); cbn; (split; [now exists e | exact Hq]).
Qed.

Lemma stream_errored_on_fatal e st :
  stream_open st -> stream_errored (Anthropic.on_fatal h e st).
Proof.
  intros Ho. pose proof (stream_error_errors e st Ho) as He.
  unfold Anthropic.on_fatal, Anthropic.call_onError.
  now destruct (onError h).
Qed.

Lemma stream_errored_step (w : Anthropic.world) (ev : event) :
  Anthropic.finished (Anthropic.run w) = true ->
  stream_errored (Anthropic.vars (Anthropic.run w)) ->
  stream_errored
    (Anthropic.vars (Anthropic.run (Anthropic.step parse_json h w ev))).
Proof.
  intros Hf [[e He] Hq]. destruct ev as [rr| |a]; cbn [Anthropic.step].
  - cbn. unfold Anthropic.on_read. rewrite Hf. split; [now exists e | exact Hq].
  - cbn. unfold stream_errored, Streams.pull, Streams.is_readable. cbn.
    rewrite Hq, He. split; [now exists e | exact Hq].
  - destruct a; cbn; (split; [now exists e | exact Hq]).
Qed.

(** X23.  The Anthropic read loop does not survive its first chunk: when
    a chunk is read while the loop runs and [textStream] is open, the loop
    ends with that chunk, [textStream] is errored, and whatever is read
    afterwards changes neither the text, the usage nor the stop reason.
    (After the [for] loop over the events, line 303 reads [eventName], which
    is out of scope there; an [error] event returns before that, with the
    stream errored as well.) *)
Theorem anthropic_first_chunk_ends_the_stream :
  forall (w : Anthropic.world) c evs,
    Anthropic.finished (Anthropic.run w) = false ->
    stream_open (Anthropic.vars (Anthropic.run w)) ->
    let w1 := Anthropic.step parse_json h w (Read (Chunk c)) in
    let w2 := Anthropic.exec parse_json h evs w1 in
    Anthropic.finished (Anthropic.run w2) = true
    /\ (exists e,
          Streams.sstate (Anthropic.textStream (Anthropic.vars (Anthropic.run w2)))
          = Streams.Errored e)
    /\ Anthropic.aggregate (Anthropic.vars (Anthropic.run w2))
       = Anthropic.aggregate (Anthropic.vars (Anthropic.run w1)).
Proof.
  intros w c evs Hf Ho w1 w2.
  assert (H1 : Anthropic.finished (Anthropic.run w1) = true
               /\ stream_errored (Anthropic.vars (Anthropic.run w1))).
  { subst w1. cbn [Anthropic.step Anthropic.run]. unfold Anthropic.on_read.
    rewrite Hf.
    pose proof (errors_on_return_process_events (Anthropic.events_of c)
                  (Anthropic.vars (Anthropic.run w)) Ho) as He.
    destruct (Anthropic.process_events parse_json h (Anthropic.events_of c)
                (Anthropic.vars (Anthropic.run w))) as [st' [| | |e]];
      cbn [fst snd Anthropic.vars Anthropic.finished] in *;
      (split; [reflexivity|]); apply stream_errored_finally;
      try exact He; now apply stream_errored_on_fatal. }
  destruct H1 as [Hf1 He1].
  destruct (anthropic_finished_stable parse_json h evs w1 Hf1) as [Hf2 Ha2].
  split; [exact Hf2|]. split; [|exact Ha2].
  subst w2. clearbody w1. clear Ha2 Hf2.
  revert w1 Hf1 He1. induction evs as [|ev evs IH]; intros w1 Hf1 He1.
  - destruct He1 as [He1 _]. exact He1.
  - cbn [Anthropic.exec fold_left]. apply IH.
    + destruct (anthropic_finished_stable parse_json h [ev] w1 Hf1) as [H _].
      exact H.
    + now apply stream_errored_step.
Qed.

End AnthropicStreamEnd.

(** X23 on a first chunk with one text delta: the second chunk is not
    read, and the consumer finds the stream errored. *)
Lemma anthropic_first_chunk_ends_the_stream_witness :
  exists e,
    Streams.sstate
      (Anthropic.textStream
         (Anthropic.vars
            (Anthropic.run
               (Anthropic.exec JSON_parse all_hooks
                  [Read (Chunk (text_event "Hel" ++ nl ++ nl));
                   Read (Chunk (text_event "lo" ++ nl ++ nl)); Pull]
                  Anthropic.request_returned))))
    = Streams.Errored e.
Proof.
  exact (proj1 (proj2 (anthropic_first_chunk_ends_the_stream JSON_parse
                         all_hooks Anthropic.request_returned
                         (text_event "Hel" ++ nl ++ nl)
                         [Read (Chunk (text_event "lo" ++ nl ++ nl)); Pull]
                         eq_refl (conj eq_refl eq_refl)))).
Defined.

(** X24.  A streaming call of either provider resolves exactly when the
    response is OK and its body gives a reader, with the streaming result
    and before anything is read from the body; every other answer of
    [fetch] makes it reject, after at least one [onError] call if the hook
    was passed.  In particular a streaming call never resolves with the
    error result. *)
Theorem streaming_call_set_up :
  forall stringify parse_json openai anthropic (p : Calls.params) f,
    Calls.streaming p = true ->
    before_call_returns p ->
    stream_set_up (Calls.hooks_of p) f
      (OpenAIRequest.request stringify parse_json openai p f)
    /\ stream_set_up (Calls.hooks_of p) f
         (AnthropicRequest.request parse_json anthropic p f).
Proof.
  intros stringify parse_json o a p f Hs Hb.
  unfold before_call_returns in Hb.
  unfold stream_set_up, answered_ok, OpenAIRequest.request,
    AnthropicRequest.request, OpenAIRequest.open_stream,
    AnthropicRequest.open_stream, OpenAIRequest.caught,
    AnthropicRequest.caught, OpenAIRequest.call_onError,
    AnthropicRequest.call_onError.
  rewrite Hs.
  split;
    (destruct (Calls.onBeforeCall p) as [[e|]|]; [contradiction| |]);
    (destruct f as [e|resp unreadable [er|]];
     [|destruct (ok resp);
       [|match goal with
         | |- context [get ?b "error"] => destruct (get b "error")
         end]
      |destruct (ok resp);
       [|match goal with
         | |- context [get ?b "error"] => destruct (get b "error")
         end]]);
    destruct (onError (Calls.hooks_of p));
    destruct (Calls.onError_does p 0), (Calls.onError_does p 1);
    cbn; rewrite ?Hs;
    (split; [try reflexivity; eexists; reflexivity
            | try reflexivity; try discriminate; intros _; lia]).
Qed.

(** X24 on a 200 response, on a 200 response whose body gives no reader,
    and on a failing [fetch]. *)
Lemma streaming_call_set_up_witness :
  snd (OpenAIRequest.request no_stringify JSON_parse openai_options
         (sample_params (Some true) None)
         (Calls.Responds completion None None))
  = Calls.Resolves Calls.Streaming
  /\ (exists e,
         snd (OpenAIRequest.request no_stringify JSON_parse openai_options
                (sample_params (Some true) None)
                (Calls.Responds completion None (Some TypeError)))
         = Calls.Rejects e)
  /\ exists e,
      snd (AnthropicRequest.request JSON_parse anthropic_options
             (sample_params (Some true) None) (Calls.FetchFails TypeError))
      = Calls.Rejects e.
Proof.
  split; [|split].
  - exact (proj1 (proj1 (streaming_call_set_up no_stringify JSON_parse
                           openai_options anthropic_options
                           (sample_params (Some true) None)
                           (Calls.Responds completion None None) eq_refl I))).
  - exact (proj1 (proj1 (streaming_call_set_up no_stringify JSON_parse
                           openai_options anthropic_options
                           (sample_params (Some true) None)
                           (Calls.Responds completion None (Some TypeError))
                           eq_refl I))).
  - exact (proj1 (proj2 (streaming_call_set_up no_stringify JSON_parse
                           openai_options anthropic_options
                           (sample_params (Some true) None)
                           (Calls.FetchFails TypeError) eq_refl I))).
Defined.

(** ** [textStream] and the aggregated content during a turn *)



(** ** A frame that is not JSON, in the read loop *)

(** X25.  In the OpenAI read loop a frame whose payload is not JSON is
    not fatal: the chunk that holds it is handled as the lines before it,
    then the [catch] around [JSON.parse], which writes to the console,
    calls [onError] with the payload text and leaves the variables the
    accessors read as they are, then the lines after it, exactly as if
    those had come in a chunk of their own; [textStream] gets nothing
    for the frame, and unless [data: [DONE]] follows in the chunk the loop
    goes on to the next read.  In the Anthropic loop the same holds for the
    events of a chunk. *)
Theorem bad_frame_is_not_fatal :
  forall (parse_json : string -> option value) (h : hooks),
    (forall r c before payload after rest_chunk,
        OpenAI.finished r = false ->
        OpenAI.lines_of c = List.app before (("data: " ++ payload) :: after) ->
        existsb OpenAI.is_done before = false ->
        payload <> "[DONE]" ->
        parse_json payload = None ->
        OpenAI.lines_of rest_chunk = after ->
        let st1 := OpenAI.process_lines parse_json h before (OpenAI.agg r) in
        let st' := OpenAI.on_catch h (SyntaxError payload) payload st1 in
        OpenAI.on_read parse_json h (Chunk c) r
        = OpenAI.on_read parse_json h (Chunk rest_chunk)
            {| OpenAI.agg := st';
               OpenAI.out :=
                 fst (OpenAI.live_lines parse_json before (OpenAI.out r));
               OpenAI.finished := false |}
        /\ OpenAI.aggregate st' = OpenAI.aggregate st1
        /\ OpenAI.trace st'
           = (OpenAI.trace st1
              ++ ConsoleError (SyntaxError payload) payload
              :: (if onError h
                  then [OnError (SyntaxError payload) (RawText payload)]
                  else []))%list
        /\ (existsb OpenAI.is_done after = false ->
            OpenAI.finished (OpenAI.on_read parse_json h (Chunk c) r) = false))
    /\
    (forall eventLine name dataStr rest st,
        Anthropic.scan_lines (split nl eventLine) None EmptyString
        = (Some name, dataStr) ->
        name <> EmptyString ->
        dataStr <> EmptyString ->
        parse_json dataStr = None ->
        let st' := Anthropic.on_catch h (SyntaxError dataStr) dataStr st in
        Anthropic.process_events parse_json h (eventLine :: rest) st
        = Anthropic.process_events parse_json h rest st'
        /\ Anthropic.aggregate st' = Anthropic.aggregate st
        /\ Anthropic.textStream st' = Anthropic.textStream st
        /\ Anthropic.trace st'
           = (Anthropic.trace st
              ++ ConsoleError (SyntaxError dataStr) dataStr
              :: (if onError h
                  then [OnError (SyntaxError dataStr) (RawText dataStr)]
                  else []))%list).
Proof.
  intros parse_json h. split; [|exact (proj2 (bad_frame_is_skipped parse_json h))].
  intros r c before payload after rest_chunk Hf Hlines Hbefore Hdone Hparse
         Hrest st1 st'.
  destruct (proj1 (bad_frame_is_skipped parse_json h) payload after st1
              (fst (OpenAI.live_lines parse_json before (OpenAI.out r)))
              Hdone Hparse) as (Hp & Hl & Ha & Ht).
  cbv zeta in Hp, Hl, Ha, Ht. fold st' in Hp, Ha, Ht.
  assert (Hread : OpenAI.on_read parse_json h (Chunk c) r
                  = OpenAI.on_read parse_json h (Chunk rest_chunk)
                      {| OpenAI.agg := st';
                         OpenAI.out :=
                           fst (OpenAI.live_lines parse_json before
                                                  (OpenAI.out r));
                         OpenAI.finished := false |}).
  { unfold OpenAI.on_read. rewrite Hf. cbn [OpenAI.finished OpenAI.agg OpenAI.out].
    unfold OpenAI.processChunk. rewrite Hlines, Hrest.
    rewrite (process_lines_app parse_json h), Hbefore. fold st1. rewrite Hp.
    destruct (live_lines_app_open parse_json before
                (("data: " ++ payload) :: after) (OpenAI.out r) Hbefore)
      as [-> _].
    now rewrite Hl. }
  split; [exact Hread|]. split; [exact Ha|]. split; [exact Ht|].
  intros Hafter. rewrite Hread. unfold OpenAI.on_read.
  cbn [OpenAI.finished OpenAI.agg OpenAI.out]. rewrite Hrest.
  destruct (live_lines_app_open parse_json after []
              (fst (OpenAI.live_lines parse_json before (OpenAI.out r)))
              Hafter) as [_ Hc].
  destruct (OpenAI.live_lines parse_json after
              (fst (OpenAI.live_lines parse_json before (OpenAI.out r))))
    as [out' fl].
  cbn [snd] in Hc. now subst fl.
Qed.

(** X25 on a chunk that holds a frame cut short and then a text delta. *)
Lemma bad_frame_is_not_fatal_witness :
  OpenAI.on_read JSON_parse all_hooks
    (Chunk ("data: " ++ broken_payload ++ nl ++ text_frame "Hi"))
    OpenAI.started
  = OpenAI.on_read JSON_parse all_hooks (Chunk (text_frame "Hi"))
      {| OpenAI.agg :=
           OpenAI.on_catch all_hooks (SyntaxError broken_payload)
                           broken_payload OpenAI.initial;
         OpenAI.out := Streams.fresh;
         OpenAI.finished := false |}.
Proof.
  refine (proj1 (proj1 (bad_frame_is_not_fatal JSON_parse all_hooks)
                   OpenAI.started
                   ("data: " ++ broken_payload ++ nl ++ text_frame "Hi")
                   [] broken_payload
                   (OpenAI.lines_of (text_frame "Hi")) (text_frame "Hi")
                   eq_refl _ eq_refl _ _ eq_refl)).
  - vm_compute. reflexivity.
  - vm_compute. discriminate.
  - vm_compute. reflexivity.
Defined.
